(** * CLIBoard spawner: the run orchestrator, path guard, credential store
      and warm pool of [spawner/src/server.js], embedded in Rocq.

    Conventions of the embedding.
    - A JavaScript string is a [string], a sequence of code units below
      256; a [Buffer] of bytes is a [string] as well.
    - A JavaScript object used as a dictionary is a [gmap string _]; the
      values of the credentials file and of its updates are strings.
    - Node's [path] module is modelled for POSIX hosts, on path segments.
    - The Docker daemon is a store of containers. A driver call is rejected
      when the daemon does not answer, and the [catch] clauses of the
      handlers are modelled as written.
    - [res.write] and [stream.write] do not throw.
    - A handler is one atomic state transformer: interleavings at [await]
      points are outside the model. The continuation of [container.wait]
      and the handlers of a stream are actions of their own.
    - Of a container the model keeps the id, the state, the labels and
      [AutoRemove]; image, environment, mounts and command are left out. *)

From Stdlib Require Import String Ascii List Bool Arith Lia ZArith DecimalString.
From stdpp Require Import gmap strings list.

Import ListNotations.

(* ===================================================================== *)
(** * JavaScript string methods *)
(* ===================================================================== *)

Module Str.

Definition LF : ascii := ascii_of_nat 10.
Definition CR : ascii := ascii_of_nat 13.
Definition DQUOTE : ascii := ascii_of_nat 34.
Definition SQUOTE : ascii := ascii_of_nat 39.

(** [s.startsWith(p)] *)
Definition startsWith (s p : string) : bool := String.prefix p s.

Fixpoint rev_acc (s acc : string) : string :=
  match s with
  | EmptyString => acc
  | String c s' => rev_acc s' (String c acc)
  end.
Definition rev (s : string) : string := rev_acc s EmptyString.

(** [s.endsWith(p)] *)
Definition endsWith (s p : string) : bool := String.prefix (rev p) (rev s).

(** [s.indexOf(c)] for a one-character needle; [None] is JavaScript's -1. *)
Fixpoint indexOf (c : ascii) (s : string) : option nat :=
  match s with
  | EmptyString => None
  | String d s' =>
      if Ascii.eqb d c then Some 0
      else match indexOf c s' with Some n => Some (S n) | None => None end
  end.

(** [s.slice(0, n)] *)
Fixpoint take (n : nat) (s : string) : string :=
  match n, s with
  | S n', String c s' => String c (take n' s')
  | _, _ => EmptyString
  end.

(** [s.slice(n)] *)
Fixpoint drop (n : nat) (s : string) : string :=
  match n, s with
  | S n', String _ s' => drop n' s'
  | _, _ => s
  end.

(** [s.slice(1, -1)] *)
Definition slice_1_m1 (s : string) : string :=
  take (String.length s - 2) (drop 1 s).

(** White space and line terminators removed by [String.prototype.trim],
    among the code units below 256. *)
Definition is_ws (c : ascii) : bool :=
  let n := nat_of_ascii c in
  (9 <=? n) && (n <=? 13) || (n =? 32) || (n =? 160).

Fixpoint trimStart (s : string) : string :=
  match s with
  | EmptyString => EmptyString
  | String c s' => if is_ws c then trimStart s' else s
  end.

Definition trimEnd (s : string) : string := rev (trimStart (rev s)).

(** [s.trim()] *)
Definition trim (s : string) : string := trimEnd (trimStart s).

(** [s.split(sep)] for a one-character separator. *)
Fixpoint split (sep : ascii) (s : string) : list string :=
  match s with
  | EmptyString => [EmptyString]
  | String c s' =>
      if Ascii.eqb c sep then EmptyString :: split sep s'
      else match split sep s' with
           | [] => [String c EmptyString]
           | x :: xs => String c x :: xs
           end
  end.

(** Drops one trailing carriage return. *)
Definition chopCR (s : string) : string :=
  match rev s with
  | String c r => if Ascii.eqb c CR then rev r else s
  | EmptyString => s
  end.

(** Applies [f] to every element but the last. *)
Fixpoint map_init {A} (f : A -> A) (l : list A) : list A :=
  match l with
  | [] => []
  | [x] => [x]
  | x :: xs => f x :: map_init f xs
  end.

(** [s.split(/\r?\n/)]: every line feed separates, and takes a carriage
    return that immediately precedes it into the separator. *)
Definition splitLines (s : string) : list string :=
  map_init chopCR (split LF s).

(** [l.join(sep)] *)
Fixpoint join (sep : string) (l : list string) : string :=
  match l with
  | [] => EmptyString
  | [x] => x
  | x :: xs => x +:+ sep +:+ join sep xs
  end.

(** JavaScript truthiness of a string. *)
Definition truthy (s : string) : bool := negb (String.eqb s EmptyString).

(** Every character of [s] satisfies [P]. *)
Fixpoint all (P : ascii -> bool) (s : string) : bool :=
  match s with
  | EmptyString => true
  | String c s' => P c && all P s'
  end.

(** Character [c] does not occur in [s]. *)
Definition free (c : ascii) (s : string) : bool :=
  all (fun d => negb (Ascii.eqb d c)) s.

(** [s] does not begin with white space. *)
Definition noLead (s : string) : Prop := trimStart s = s.

End Str.

(* ===================================================================== *)
(** * Node's [path] module on a POSIX host *)
(* ===================================================================== *)

Module Path.

Definition SLASH : ascii := "/"%char.

(** [path.isAbsolute(p)] *)
Definition isAbsolute (p : string) : bool :=
  match p with
  | String c _ => Ascii.eqb c SLASH
  | EmptyString => false
  end.

(** One step of [normalizeString]; the stack holds the segments kept so
    far, last one first.  A [..] removes the segment before it; with
    nothing to remove it is kept when the path is relative
    ([allowAboveRoot]) and ignored at the root. *)
Definition pushSeg (allowAboveRoot : bool) (stack : list string) (seg : string)
  : list string :=
  if String.eqb seg "" then stack
  else if String.eqb seg "." then stack
  else if String.eqb seg ".." then
    match stack with
    | top :: rest =>
        if String.eqb top ".." then seg :: stack else rest
    | [] => if allowAboveRoot then [seg] else []
    end
  else seg :: stack.

Definition normalizeSegs (allowAboveRoot : bool) (segs : list string)
  : list string :=
  List.rev (fold_left (pushSeg allowAboveRoot) segs []).

Definition ofSegs (segs : list string) : string :=
  String SLASH (Str.join "/" segs).

(** Segments of [path.resolve(p)] in a process whose working directory is
    [cwd]. *)
Definition resolveSegs (cwd p : string) : list string :=
  normalizeSegs false (Str.split SLASH
    (if isAbsolute p then p else cwd +:+ "/" +:+ p)).

(** [path.resolve(p)] *)
Definition resolve (cwd p : string) : string := ofSegs (resolveSegs cwd p).

(** [path.normalize(p)] *)
Definition normalize (p : string) : string :=
  if String.eqb p "" then "."
  else
    let isAbs := isAbsolute p in
    let trailing := Str.endsWith p "/" in
    let body := Str.join "/" (normalizeSegs (negb isAbs) (Str.split SLASH p)) in
    if String.eqb body "" then
      (if isAbs then "/" else if trailing then "./" else ".")
    else
      let body' := if trailing then body +:+ "/" else body in
      if isAbs then "/" +:+ body' else body'.

(** [path.join(a, b)]: the non-empty arguments are joined by a slash and
    the result normalized. *)
Definition join (a b : string) : string :=
  if String.eqb a "" then normalize b
  else if String.eqb b "" then normalize a
  else normalize (a +:+ "/" +:+ b).

(** Removes the longest common prefix of two segment lists. *)
Fixpoint stripCommon (f t : list string) : list string * list string :=
  match f, t with
  | x :: f', y :: t' => if String.eqb x y then stripCommon f' t' else (f, t)
  | _, _ => (f, t)
  end.

(** [path.relative(from, to)]: both paths are resolved, the common
    leading segments dropped, and one [..] emitted per segment left in
    [from]. *)
Definition relative (cwd from to : string) : string :=
  let '(f, t) := stripCommon (resolveSegs cwd from) (resolveSegs cwd to) in
  Str.join "/" (List.map (fun _ => "..") f ++ t).

End Path.

(* ===================================================================== *)
(** * Path guard *)
(* ===================================================================== *)

Section PathGuard.

(** Working directory of the server process. *)
Variable cwd : string.

Definition isSubPath (child parent : string) : bool :=
  let rel := Path.relative cwd parent child in
  Str.truthy rel && negb (Str.startsWith rel "..") && negb (Path.isAbsolute rel).

Definition isAllowed (p : string) (allowedRoots : list string) : bool :=
  let abs := Path.resolve cwd p in
  existsb (fun root => String.eqb abs root || isSubPath abs root) allowedRoots.

(** [process.env.X || dflt]: the setting of the environment when it is set
    and not empty, the default otherwise. *)
Definition orDefault (setting : option string) (dflt : string) : string :=
  match setting with
  | Some v => if Str.truthy v then v else dflt
  | None => dflt
  end.

(** The allow-lists are resolved once at start-up:
    [(process.env.X || dflt).split(',').map((p) => path.resolve(p.trim()))
    .filter(Boolean)]; [dflt] is the default root, a directory of the
    repository. *)
Definition allowRoots (setting : option string) (dflt : string) : list string :=
  List.filter Str.truthy
    (List.map (fun p => Path.resolve cwd (Str.trim p))
       (Str.split ","%char (orDefault setting dflt))).

End PathGuard.

(** A normalized path [p] is a strict descendant of the normalized path
    [root] when the segments of [root] are a proper prefix of those of [p]. *)
Definition strictDescendant (cwd p root : string) : Prop :=
  exists rest, rest <> [] /\
    Path.resolveSegs cwd p = Path.resolveSegs cwd root ++ rest.

(* ===================================================================== *)
(** * Results of fallible code *)
(* ===================================================================== *)

(** A call either returns or throws (a rejected promise, once awaited). *)
Inductive result (A : Type) : Type :=
| Ok (a : A)
| Throw (msg : string).
Arguments Ok {A} a.
Arguments Throw {A} msg.

Definition bind {A B} (r : result A) (k : A -> result B) : result B :=
  match r with
  | Ok a => k a
  | Throw msg => Throw msg
  end.

Notation "'let*' x ':=' r 'in' k" := (bind r (fun x => k))
  (at level 10, x pattern, r at level 100, k at level 200).

(** [if (!cond) throw new Error(msg)] *)
Definition guard (cond : bool) (msg : string) : result unit :=
  if cond then Ok tt else Throw msg.

(* ===================================================================== *)
(** * File system *)
(* ===================================================================== *)

(** Regular files by path, and the entries of the directories that can be
    listed.  The paths the server gives to the file system are absolute
    and normalized. *)
Record FS : Type := mkFS {
  files : gmap string string;
  dirents : gmap string (list string)
}.

(** [name] becomes an entry of the directory [dir], unless it is one; a
    directory that cannot be listed is left as it is. *)
Definition addEntry (dir name : string) (d : gmap string (list string))
  : gmap string (list string) :=
  match d !! dir with
  | Some ent =>
      if existsb (String.eqb name) ent then d else <[dir := ent ++ [name]]> d
  | None => d
  end.

(** The path [p] becomes an entry of the directory that holds it. *)
Definition link (p : string) (d : gmap string (list string))
  : gmap string (list string) :=
  match List.rev (Path.resolveSegs "/" p) with
  | name :: up => addEntry (Path.ofSegs (List.rev up)) name d
  | [] => d
  end.

(** The directories on the way from [pre] down the names [segs]: each one
    that is missing is made, empty, and entered in the one above it. *)
Fixpoint mkdirs (pre segs : list string) (d : gmap string (list string))
  : gmap string (list string) :=
  match segs with
  | [] => d
  | x :: rest =>
      let p := Path.ofSegs (pre ++ [x]) in
      mkdirs (pre ++ [x]) rest
        (match d !! p with
         | Some _ => d
         | None => <[p := []]> (addEntry (Path.ofSegs pre) x d)
         end)
  end.

(** [fsp.readFile(p, 'utf8')] *)
Definition readFile (fs : FS) (p : string) : result string :=
  match files fs !! p with
  | Some txt => Ok txt
  | None => Throw "ENOENT"
  end.

(** [fsp.writeFile(p, data, 'utf8')]: the file holds [data] and is an
    entry of its directory; the handler has made the directory just before
    ([ensureDir]). *)
Definition writeFile (fs : FS) (p data : string) : FS :=
  mkFS (<[p := data]> (files fs)) (link p (dirents fs)).

(** [fsp.appendFile(p, data)], and a write to a stream opened with the
    flag [a]: the file is made when it is missing. *)
Definition appendFile (fs : FS) (p data : string) : FS :=
  mkFS (<[p := default "" (files fs !! p) +:+ data]> (files fs))
       (link p (dirents fs)).

(* ===================================================================== *)
(** * Credential store *)
(* ===================================================================== *)

Definition ENGINES : list string := ["codex"; "gemini"; "opencode"].

Definition isEngine (e : string) : bool := existsb (String.eqb e) ENGINES.

Module Creds.

(** [env[key] = val] on an object literal: the key [__proto__] reaches
    the prototype setter, which ignores a string; any other key becomes
    an own property. *)
Definition setProp (env : gmap string string) (key val : string)
  : gmap string string :=
  if String.eqb key "__proto__" then env else <[key := val]> env.

Definition quotedBy (q : ascii) (val : string) : bool :=
  Str.startsWith val (String q "") && Str.endsWith val (String q "").

(** Strips surrounding quotes if present. *)
Definition stripQuotes (val : string) : string :=
  if quotedBy Str.DQUOTE val || quotedBy Str.SQUOTE val
  then Str.slice_1_m1 val else val.

(** Body of the loop of [parseDotEnv]. *)
Definition parseLine (env : gmap string string) (line : string)
  : gmap string string :=
  let trimmed := Str.trim line in
  if negb (Str.truthy trimmed) || Str.startsWith trimmed "#" then env
  else
    match Str.indexOf "="%char trimmed with
    | None => env
    | Some idx =>
        let key := Str.trim (Str.take idx trimmed) in
        let val := Str.drop (S idx) trimmed in
        setProp env key (stripQuotes val)
    end.

Definition parseDotEnv (text : string) : gmap string string :=
  fold_left parseLine (Str.splitLines text) ∅.

Section Store.

(** [Object.keys]: the own keys of an object, each once, in the
    engine's enumeration order. *)
Variable objectKeys : gmap string string -> list string.

Definition entryLine (obj : gmap string string) (k : string) : string :=
  k +:+ "=" +:+ default "" (obj !! k).

Definition serializeDotEnv (obj : gmap string string) : string :=
  let keys := objectKeys obj in
  Str.join (String Str.LF "") (List.map (entryLine obj) keys)
  +:+ (if Nat.eqb (List.length keys) 0 then "" else String Str.LF "").

Definition readCredsEnv (fs : FS) (credsPath : string) : gmap string string :=
  match readFile fs (Path.join credsPath ".env") with
  | Ok txt => parseDotEnv txt
  | Throw _ => ∅
  end.

(** [{ ...cur, ...updates }]: the updates win. *)
Definition writeCredsEnv (fs : FS) (credsPath : string)
    (updates : gmap string string) : FS * gmap string string :=
  let envPath := Path.join credsPath ".env" in
  let cur := readCredsEnv fs credsPath in
  let next := updates ∪ cur in
  (writeFile fs envPath (serializeDotEnv next), next).

End Store.

(** An enumeration of the own keys, for running the model. *)
Definition keysOf (obj : gmap string string) : list string :=
  (map_to_list obj).*1.

Definition dirNonEmpty (fs : FS) (p : string) : bool :=
  match dirents fs !! p with
  | Some ent => Nat.ltb 0 (List.length ent)
  | None => false
  end.

Record Readiness : Type := mkReadiness {
  r_engine : string;
  ready : bool;
  reasons : list string;
  envKeys : list string;
  dirs : list (string * bool);
  vertexPossible : option bool
}.

Section Check.

Variable cwd : string.
Variable ALLOW_CREDS_ROOTS : list string.

(** The closure [has]: the keys found, and the answer. *)
Definition has (env : gmap string string) (found : list string) (k : string)
  : list string * bool :=
  let t := Str.truthy (default "" (env !! k)) in
  (if t then found ++ [k] else found, t).

(** The closure [existsDir]. *)
Definition existsDir (fs : FS) (credsPath : string)
    (ds : list (string * bool)) (sub : string) : list (string * bool) * bool :=
  let ok := dirNonEmpty fs (Path.join credsPath sub) in
  (ds ++ [(sub, ok)], ok).

Definition noReason (rdy : bool) (why : string) : list string :=
  if rdy then [] else [why].

(** The [switch] on the engine: after the first guard the engine is one
    of the three, and the last branch is the case [opencode]. *)
Definition checkReadiness (fs : FS) (engine credsPath : string)
  : result (Readiness * gmap string string) :=
  let* _ := guard (isEngine engine) "invalid engine" in
  let* _ := guard (isAllowed cwd credsPath ALLOW_CREDS_ROOTS)
              "creds not under allowed roots" in
  let env := readCredsEnv fs credsPath in
  if String.eqb engine "codex" then
    let '(ks, hasKey) := has env [] "OPENAI_API_KEY" in
    let '(ds, hasDir) := existsDir fs credsPath [] "codex" in
    let rdy := hasKey || hasDir in
    Ok (mkReadiness engine rdy
          (noReason rdy "Codex needs ChatGPT sign-in or OPENAI_API_KEY")
          ks ds None, env)
  else if String.eqb engine "gemini" then
    let '(ks, hasKey) := has env [] "GEMINI_API_KEY" in
    let '(ds, hasDir) := existsDir fs credsPath [] "gemini" in
    let '(ds, hasGcloud) := existsDir fs credsPath ds "gcloud" in
    let rdy := hasKey || hasDir || hasGcloud in
    Ok (mkReadiness engine rdy
          (noReason rdy "Gemini needs API key, device login, or Vertex ADC")
          ks ds (Some hasGcloud), env)
  else
    let '(ks, ok) :=
      let '(ks, a) := has env [] "OPENAI_API_KEY" in
      if a then (ks, true)
      else let '(ks, b) := has env ks "ANTHROPIC_API_KEY" in
           if b then (ks, true)
           else has env ks "GEMINI_API_KEY" in
    let '(ds, hasDir) := existsDir fs credsPath [] "opencode" in
    let rdy := ok || hasDir in
    Ok (mkReadiness engine rdy
          (noReason rdy "OpenCode needs a provider API key")
          ks ds None, env).

End Check.

End Creds.

(* ===================================================================== *)
(** * Container driver *)
(* ===================================================================== *)

Record Container : Type := mkContainer {
  Id : string;
  State : string;
  Labels : gmap string string;
  AutoRemove : bool
}.

(** The daemon: whether it answers, the containers it holds, and the
    commands started inside containers with [exec]. *)
Record Docker : Type := mkDocker {
  daemonUp : bool;
  containers : list Container;
  execLog : list (string * string)
}.

Module Driver.

Definition hasLabel (c : Container) (kv : string * string) : bool :=
  match Labels c !! kv.1 with
  | Some v => String.eqb v kv.2
  | None => false
  end.

(** [docker.listContainers({ all: true, filters: { label } })] *)
Definition listContainers (d : Docker) (label : list (string * string))
  : result (list Container) :=
  if daemonUp d
  then Ok (List.filter (fun c => forallb (hasLabel c) label) (containers d))
  else Throw "connect ECONNREFUSED".

(** [container.inspect()] *)
Definition inspect (d : Docker) (cid : string) : result Container :=
  if daemonUp d then
    match List.find (fun c => String.eqb (Id c) cid) (containers d) with
    | Some c => Ok c
    | None => Throw "no such container"
    end
  else Throw "connect ECONNREFUSED".

(** The main process of a running container ends: the container is left
    exited, or is discarded when it was created with [AutoRemove]. *)
Definition halted (cid : string) (c : Container) : list Container :=
  if String.eqb (Id c) cid && String.eqb (State c) "running" then
    if AutoRemove c then []
    else [mkContainer (Id c) "exited" (Labels c) false]
  else [c].

(** Effect of [container.stop({ t: 2 }).catch(() => {})] and of
    [container.kill().catch(() => {})]. *)
Definition halt (cid : string) (d : Docker) : Docker :=
  if daemonUp d
  then mkDocker true (flat_map (halted cid) (containers d)) (execLog d)
  else d.

(** Effect of [container.remove({ force: true }).catch(() => {})]. *)
Definition remove (cid : string) (d : Docker) : Docker :=
  if daemonUp d
  then mkDocker true
         (List.filter (fun c => negb (String.eqb (Id c) cid)) (containers d))
         (execLog d)
  else d.

(** Effect of [container.exec({ Cmd }).then(e => e.start())] inside a
    [try]: the command is started in the container. *)
Definition exec (cid cmd : string) (d : Docker) : Docker :=
  if daemonUp d
  then mkDocker true (containers d) (execLog d ++ [(cid, cmd)])
  else d.

(** [docker.createContainer(opts)] followed by [container.start()]. *)
Definition run (c : Container) (d : Docker) : result Docker :=
  if daemonUp d
  then Ok (mkDocker true
             (containers d ++ [mkContainer (Id c) "running" (Labels c) (AutoRemove c)])
             (execLog d))
  else Throw "connect ECONNREFUSED".

End Driver.

(* ===================================================================== *)
(** * Warm pool *)
(* ===================================================================== *)

(** The fields the warm pool receives; [readOnly] by its truthiness, a
    missing [uidgid] as [None]. *)
Record Mount : Type := mkMount {
  m_engine : string;
  m_workspace : string;
  m_creds : string;
  m_readOnly : bool;
  m_uidgid : option string
}.

Definition labelsForWarm (m : Mount) : list (string * string) :=
  [ ("adz.warm", "true");
    ("adz.engine", m_engine m);
    ("adz.workspace", m_workspace m);
    ("adz.creds", m_creds m);
    ("adz.readonly", if m_readOnly m then "1" else "0");
    ("adz.uidgid", default "" (m_uidgid m)) ].

(** The first running container that carries the six labels; the filter
    strings of the source are the pairs of [labelsForWarm], written
    [key=value]. *)
Definition findWarmContainer (d : Docker) (m : Mount) : result (option Container) :=
  let* list := Driver.listContainers d (labelsForWarm m) in
  Ok (List.find (fun c => String.eqb (State c) "running") list).

(** [ensureWarmContainer]; [cid] is the id the daemon gives to a container
    it creates. *)
Definition ensureWarmContainer (cid : string) (d : Docker) (m : Mount)
  : result (Docker * string) :=
  let* existing := findWarmContainer d m in
  match existing with
  | Some c => let* _ := Driver.inspect d (Id c) in Ok (d, Id c)
  | None =>
      let* d' := Driver.run
        (mkContainer cid "created" (list_to_map (labelsForWarm m)) false) d in
      Ok (d', cid)
  end.

(* ===================================================================== *)
(** * Base-64 and server-sent events *)
(* ===================================================================== *)

Definition NL : string := String Str.LF "".

Module Base64.

Definition alphabet : string :=
  "ABCDEFGHIJKLMNOPQRSTUVWXYZabcdefghijklmnopqrstuvwxyz0123456789+/".

Definition PAD : ascii := "="%char.

Definition digit (n : nat) : ascii :=
  match String.get n alphabet with
  | Some c => c
  | None => PAD
  end.

(** [Buffer.from(chunk).toString('base64')] *)
Fixpoint encode (bytes : string) : string :=
  match bytes with
  | String a (String b (String c rest)) =>
      let a := nat_of_ascii a in
      let b := nat_of_ascii b in
      let c := nat_of_ascii c in
      String (digit (a / 4))
        (String (digit (a mod 4 * 16 + b / 16))
           (String (digit (b mod 16 * 4 + c / 64))
              (String (digit (c mod 64)) (encode rest))))
  | String a (String b EmptyString) =>
      let a := nat_of_ascii a in
      let b := nat_of_ascii b in
      String (digit (a / 4))
        (String (digit (a mod 4 * 16 + b / 16))
           (String (digit (b mod 16 * 4)) (String PAD "")))
  | String a EmptyString =>
      let a := nat_of_ascii a in
      String (digit (a / 4))
        (String (digit (a mod 4 * 16)) (String PAD (String PAD "")))
  | EmptyString => ""
  end.

End Base64.

(** The event-stream wire format, as an [EventSource] client reads it. *)
Module SSE.

Record Frame : Type := mkFrame {
  f_event : string;
  f_data : list string
}.

(** Lines of a stream: a line ends at CR LF, at LF or at CR; what follows
    the last terminator is an unfinished line and is not returned. *)
Fixpoint lines (s : string) (cur : string) : list string :=
  match s with
  | EmptyString => []
  | String c s' =>
      if Ascii.eqb c Str.LF then Str.rev cur :: lines s' ""
      else if Ascii.eqb c Str.CR then
        match s' with
        | String c' s'' =>
            if Ascii.eqb c' Str.LF then Str.rev cur :: lines s'' ""
            else Str.rev cur :: lines s' ""
        | EmptyString => [Str.rev cur]
        end
      else lines s' (String c cur)
  end.

(** A field value: what follows the colon and one optional space. The
    server only writes [event: ] and [data: ] fields. *)
Fixpoint dispatch (ls : list string) (ev : option string) (data : list string)
  : list Frame :=
  match ls with
  | [] => []
  | l :: ls' =>
      if String.eqb l "" then
        match data with
        | [] => dispatch ls' None []
        | _ => mkFrame (default "message" ev) (List.rev data) :: dispatch ls' None []
        end
      else if Str.startsWith l "event: " then dispatch ls' (Some (Str.drop 7 l)) data
      else if Str.startsWith l "data: " then dispatch ls' ev (Str.drop 6 l :: data)
      else dispatch ls' ev data
  end.

(** The frames a client receives from the chunks written to a response. *)
Definition frames (writes : list string) : list Frame :=
  dispatch (lines (fold_right String.append "" writes) "") None [].

(** Neither a line feed nor a carriage return. *)
Definition plainChar (c : ascii) : bool :=
  negb (Ascii.eqb c Str.LF) && negb (Ascii.eqb c Str.CR).

(** A string without line terminators. *)
Definition plain (s : string) : bool := Str.all plainChar s.

End SSE.

(* ===================================================================== *)
(** * Run orchestrator: state *)
(* ===================================================================== *)

(** A response object: what was written to it, and whether it was ended. *)
Record Res : Type := mkRes {
  written : list string;
  ended : bool
}.

Definition resWrite (chunk : string) (r : Res) : Res :=
  if ended r then r else mkRes (written r ++ [chunk]) false.

Definition resEnd (r : Res) : Res := mkRes (written r) true.

(** [sseSend(res, data)] *)
Definition sseSend (data : string) (r : Res) : Res :=
  resWrite NL
    (fold_left (fun r ln => resWrite ("data: " +:+ ln +:+ NL) r)
               (Str.split Str.LF data) r).

(** The bidirectional stream of a run: what was written to the terminal's
    input, and whether the stream was destroyed. *)
Record Stream : Type := mkStream {
  stdin : list string;
  destroyed : bool
}.

Definition streamWrite (data : string) (st : Stream) : Stream :=
  mkStream (stdin st ++ [data]) (destroyed st).

Record Run : Type := mkRun {
  runId : string;
  engine : string;
  workspace : string;
  creds : string;
  containerId : string;
  containerName : string;
  status : string;
  transcriptPath : string;
  listeners : list nat;
  attachStream : Stream;
  isExec : bool;
  lastActivityAt : Z
}.

Record Artifact : Type := mkArtifact {
  a_type : string;
  a_kind : string;
  a_value : string
}.

(** A broadcast on the bus: the event name and its payload. *)
Record Event : Type := mkEvent {
  event : string;
  ev_runId : string;
  ev_engine : string;
  ev_workspace : string;
  ev_warm : option bool;
  ev_artifact : option Artifact
}.

Record Config : Type := mkConfig {
  cwd : string;
  IDLE_TIMEOUT_SEC : Z;
  ALLOW_WORKSPACE_ROOTS : list string;
  ALLOW_CREDS_ROOTS : list string
}.

(** The process state.  A run object is identified by its id: [heap] holds
    the run objects ever created (handlers installed on a stream keep
    theirs), [runs] the keys of the registry [Map] in insertion order, each
    bound to the object of the same id. *)
Record App : Type := mkApp {
  runs : list string;
  heap : gmap string Run;
  docker : Docker;
  bus : list Event;
  conns : gmap nat Res;
  fs : FS
}.

Definition emptyApp (d : Docker) (f : FS) : App := mkApp [] ∅ d [] ∅ f.

Inductive Reply : Type :=
| NotFound                                    (* 404 { error: 'not found' } *)
| Removed                                     (* 200 { ok, removed: true } *)
| Fallback (removed : bool)                   (* 200 { ok, removed, fallback: true } *)
| Bulk (count : nat) (includeWarm : bool)     (* 200 { ok, stopped | killed, includeWarm } *)
| Started (id name : string)                  (* 200 { runId, containerName } *)
| Streaming                                   (* an event stream *)
| Failed (msg : string).                      (* thrown: 400 { error: msg } *)

Definition statusCode (r : Reply) : nat :=
  match r with
  | NotFound => 404
  | Failed _ => 400
  | _ => 200
  end.

Definition TERMINAL : list string :=
  ["run-exited"; "run-stopped"; "run-killed"; "run-idle-stopped"; "run-closed"].

(** The terminal lifecycle events broadcast for run [id]. *)
Definition terminalEvents (id : string) (es : list Event) : list Event :=
  List.filter (fun e => String.eqb (ev_runId e) id
                        && existsb (String.eqb (event e)) TERMINAL) es.

(* ===================================================================== *)
(** * Run orchestrator: handlers *)
(* ===================================================================== *)

Definition withRuns (r : list string) (s : App) : App :=
  mkApp r (heap s) (docker s) (bus s) (conns s) (fs s).
Definition withHeap (h : gmap string Run) (s : App) : App :=
  mkApp (runs s) h (docker s) (bus s) (conns s) (fs s).
Definition withDocker (d : Docker) (s : App) : App :=
  mkApp (runs s) (heap s) d (bus s) (conns s) (fs s).
Definition withConns (c : gmap nat Res) (s : App) : App :=
  mkApp (runs s) (heap s) (docker s) (bus s) c (fs s).
Definition withFs (f : FS) (s : App) : App :=
  mkApp (runs s) (heap s) (docker s) (bus s) (conns s) f.

Definition setStatus (st : string) (r : Run) : Run :=
  mkRun (runId r) (engine r) (workspace r) (creds r) (containerId r)
    (containerName r) st (transcriptPath r) (listeners r) (attachStream r)
    (isExec r) (lastActivityAt r).
Definition setListeners (ls : list nat) (r : Run) : Run :=
  mkRun (runId r) (engine r) (workspace r) (creds r) (containerId r)
    (containerName r) (status r) (transcriptPath r) ls (attachStream r)
    (isExec r) (lastActivityAt r).
Definition setStream (st : Stream) (r : Run) : Run :=
  mkRun (runId r) (engine r) (workspace r) (creds r) (containerId r)
    (containerName r) (status r) (transcriptPath r) (listeners r) st
    (isExec r) (lastActivityAt r).
Definition setActivity (t : Z) (r : Run) : Run :=
  mkRun (runId r) (engine r) (workspace r) (creds r) (containerId r)
    (containerName r) (status r) (transcriptPath r) (listeners r)
    (attachStream r) (isExec r) t.

(** [runs.has(id)] *)
Definition runsHas (s : App) (id : string) : bool :=
  existsb (String.eqb id) (runs s).

(** [runs.get(id)] *)
Definition runsGet (s : App) (id : string) : option Run :=
  if runsHas s id then heap s !! id else None.

(** [runs.set(run.id, run)] with a new run object. *)
Definition runsSet (r : Run) (s : App) : App :=
  withRuns (if runsHas s (runId r) then runs s else runs s ++ [runId r])
    (withHeap (<[runId r := r]> (heap s)) s).

(** [runs.delete(id)] *)
Definition runsDelete (id : string) (s : App) : App :=
  withRuns (List.filter (fun k => negb (String.eqb k id)) (runs s)) s.

(** [runs.clear()] *)
Definition runsClear (s : App) : App := withRuns [] s.

(** An assignment to a field of the run object [id]. *)
Definition updRun (id : string) (f : Run -> Run) (s : App) : App :=
  withHeap (alter f id (heap s)) s.

(** [eventsBroadcast(event, payload)] *)
Definition eventsBroadcast (e : Event) (s : App) : App :=
  mkApp (runs s) (heap s) (docker s) (bus s ++ [e]) (conns s) (fs s).

Definition lifecycle (name : string) (r : Run) (warm : bool) : Event :=
  mkEvent name (runId r) (engine r) (workspace r) (Some warm) None.

(** [for (const res of ls) f(res)] *)
Definition forEachRes (f : Res -> Res) (ls : list nat) (s : App) : App :=
  withConns (fold_left (fun c l => alter f l c) ls (conns s)) s.

(** [run.listeners.forEach((r) => r.end()); run.listeners.clear()] *)
Definition endListeners (r : Run) (s : App) : App :=
  updRun (runId r) (setListeners []) (forEachRes resEnd (listeners r) s).

(** The loop that sends a last message to every listener and ends it,
    followed by [run.listeners.clear()]. *)
Definition farewell (msg : string) (r : Run) (s : App) : App :=
  updRun (runId r) (setListeners [])
    (forEachRes (fun c => resEnd (sseSend msg c)) (listeners r) s).

Record StartReq : Type := mkStartReq {
  q_engine : string;
  q_workspace : string;
  q_creds : string;
  q_readOnly : bool;
  q_uidgid : option string;
  q_preferWarm : bool
}.

Definition mountOf (q : StartReq) : Mount :=
  mkMount (q_engine q) (q_workspace q) (q_creds q) (q_readOnly q) (q_uidgid q).

Section Orchestrator.

Variable cfg : Config.
(** [buffer.toString('utf8')] *)
Variable toStringUtf8 : string -> string.
(** [detectArtifactsFromLine(run, line)], a regular-expression scan. *)
Variable detectArtifactsFromLine : string -> list Artifact.

(** [ensureDir(p)], that is [fsp.mkdir(p, { recursive: true })]: the
    directory and the directories above it that are missing are made. *)
Definition ensureDir (p : string) (f : FS) : FS :=
  mkFS (files f) (mkdirs [] (Path.resolveSegs "/" p) (dirents f)).

(** The preconditions of [startRun], in the order of the source. *)
Definition startChecks (q : StartReq) : result unit :=
  let* _ := guard (isEngine (q_engine q)) ("Invalid engine: " +:+ q_engine q) in
  let* _ := guard (Path.isAbsolute (q_workspace q))
              "workspace must be an absolute path" in
  let* _ := guard (Path.isAbsolute (q_creds q))
              "creds must be an absolute path" in
  let* _ := guard (isAllowed (cwd cfg) (q_workspace q) (ALLOW_WORKSPACE_ROOTS cfg))
              "workspace not under allowed roots" in
  guard (isAllowed (cwd cfg) (q_creds q) (ALLOW_CREDS_ROOTS cfg))
    "creds not under allowed roots".

(** [startRun] behind [POST /runs].  The environment supplies the fresh
    run id ([uuidv4]), the time stamp of the transcript's name, the id of
    the container the daemon would create, and the clock. *)
Definition startRun (q : StartReq) (id fileTs cid : string) (now : Z) (s : App)
  : App * Reply :=
  match startChecks q with
  | Throw msg => (s, Failed msg)
  | Ok _ =>
      let runsDir := Path.join (q_workspace q) ".runs" in
      let transcriptPath :=
        Path.join runsDir (q_engine q +:+ "-" +:+ fileTs +:+ ".log") in
      let s1 := withFs (appendFile (ensureDir runsDir (fs s)) transcriptPath "") s in
      let name :=
        "adz-" +:+ q_engine q +:+ "-" +:+ fileTs +:+ "-" +:+ Str.take 8 id in
      match (if q_preferWarm q then findWarmContainer (docker s1) (mountOf q)
             else Ok None) with
      | Throw msg => (s1, Failed msg)
      | Ok (Some warm) =>
          let run := mkRun id (q_engine q) (q_workspace q) (q_creds q)
                       (Id warm) (Str.take 12 (Id warm)) "running"
                       transcriptPath [] (mkStream [] false) true now in
          let s2 := withDocker (Driver.exec (Id warm) "/entrypoint.sh" (docker s1)) s1 in
          (eventsBroadcast (lifecycle "run-started" run true) (runsSet run s2),
           Started id (containerName run))
      | Ok None =>
          let labels : gmap string string :=
            list_to_map [ ("adz.engine", q_engine q);
                          ("adz.workspace", q_workspace q);
                          ("adz.creds", q_creds q);
                          ("adz.runId", id) ] in
          match Driver.run (mkContainer cid "created" labels true) (docker s1) with
          | Throw msg => (s1, Failed msg)
          | Ok d =>
              let run := mkRun id (q_engine q) (q_workspace q) (q_creds q)
                           cid name "running" transcriptPath []
                           (mkStream [] false) false now in
              (eventsBroadcast (lifecycle "run-started" run false)
                 (runsSet run (withDocker d s1)),
               Started id name)
          end
      end
  end.

(** The three writes a chunk causes on one listener; the [catch] around
    them is not reached. *)
Definition sendChunk (chunk : string) (r : Res) : Res :=
  let b64 := Base64.encode chunk in
  resWrite ("data: b64:" +:+ b64 +:+ NL +:+ NL)
    (resWrite ("data: " +:+ b64 +:+ NL +:+ NL)
       (resWrite ("event: chunk" +:+ NL) r)).

Definition artifactEvents (r : Run) (data : string) : list Event :=
  flat_map (fun ln =>
              if Str.truthy ln then
                List.map (fun a => mkEvent (a_type a) (runId r) (engine r)
                                     (workspace r) None (Some a))
                  (detectArtifactsFromLine ln)
              else [])
    (Str.splitLines data).

(** The ['data'] handler of the stream of run [id]. *)
Definition onData (id chunk : string) (now : Z) (s : App) : App :=
  match heap s !! id with
  | None => s
  | Some run =>
      let s1 := updRun id (setActivity now) s in
      let s2 := withFs (appendFile (fs s1) (transcriptPath run) chunk) s1 in
      let s3 := forEachRes (sendChunk chunk) (listeners run) s2 in
      fold_left (fun s e => eventsBroadcast e s)
        (artifactEvents run (toStringUtf8 chunk)) s3
  end.

Definition exitMarker (st : string) : string :=
  NL +:+ "[[PROCESS EXITED]] status=" +:+ st.

(** The ['end'] handler of the stream of a warm-exec run. *)
Definition onStreamEnd (id : string) (s : App) : App :=
  match heap s !! id with
  | Some run =>
      if isExec run then
        let s1 := updRun id (setStatus "exited") s in
        let s2 := farewell (exitMarker "exited") run s1 in
        eventsBroadcast (lifecycle "run-exited" run true) s2
      else s
  | None => s
  end.

(** [resolveStatus(container)] *)
Definition resolveStatus (d : Docker) (cid : string) : result string :=
  let* info := Driver.inspect d cid in
  Ok (if String.eqb (State info) "running" then "running"
      else if Str.truthy (State info) then State info else "exited").

(** The continuation of [container.wait()] of a fresh run; a rejection
    inside it is swallowed by the final [catch]. *)
Definition onContainerWait (id : string) (s : App) : App :=
  match heap s !! id with
  | Some run =>
      if isExec run then s
      else
        match resolveStatus (docker s) (containerId run) with
        | Throw _ => s
        | Ok st =>
            let s1 := updRun id (setStatus st) s in
            let s2 := farewell (exitMarker st) run s1 in
            eventsBroadcast (lifecycle "run-exited" run false) s2
        end
  | None => s
  end.

(** The fallback of stop, kill and close for an id the registry does not
    hold: every container labelled with the id is halted and removed. *)
Definition fallback (id : string) (s : App) : App * Reply :=
  match Driver.listContainers (docker s) [("adz.runId", id)] with
  | Throw _ => (s, NotFound)
  | Ok list =>
      let d := fold_left (fun d c => Driver.remove (Id c) (Driver.halt (Id c) d))
                 list (docker s) in
      (withDocker d s, Fallback (Nat.ltb 0 (List.length list)))
  end.

Definition CTRL_C : string := String (ascii_of_nat 3) "".

(** [DELETE /runs/:id] *)
Definition stopRun (id : string) (s : App) : App * Reply :=
  match runsGet s id with
  | None => fallback id s
  | Some run =>
      let s1 :=
        if isExec run then
          updRun id (fun r => setStream
            (streamWrite ("exit" +:+ NL) (streamWrite CTRL_C (attachStream r))) r) s
        else
          withDocker (Driver.remove (containerId run)
                        (Driver.halt (containerId run) (docker s))) s in
      let s2 := updRun id (setStatus "stopped") s1 in
      let s3 := eventsBroadcast (lifecycle "run-stopped" run (isExec run)) s2 in
      (runsDelete id (endListeners run s3), Removed)
  end.

Definition PKILL_ENGINES : string :=
  "pkill -9 -f '^(codex|gemini|opencode)$' || true".

(** [POST /runs/:id/kill] *)
Definition killRun (id : string) (s : App) : App * Reply :=
  match runsGet s id with
  | None => fallback id s
  | Some run =>
      let s1 :=
        if isExec run then
          withDocker (Driver.exec (containerId run) PKILL_ENGINES (docker s)) s
        else
          withDocker (Driver.remove (containerId run)
                        (Driver.halt (containerId run) (docker s))) s in
      let s2 := updRun id (setStatus "killed") s1 in
      let s3 := eventsBroadcast (lifecycle "run-killed" run (isExec run)) s2 in
      (runsDelete id (endListeners run s3), Removed)
  end.

Definition PKILL_ALL : string :=
  "pkill -KILL -f (/entrypoint.sh|codex|gemini|opencode) || true".

(** [POST /runs/:id/close] *)
Definition closeRun (id : string) (s : App) : App * Reply :=
  match runsGet s id with
  | None => fallback id s
  | Some run =>
      let s1 :=
        if isExec run then
          withDocker (Driver.exec (containerId run) PKILL_ALL (docker s))
            (updRun id (fun r => setStream
               (mkStream (stdin (attachStream r)) true) r) s)
        else
          withDocker (Driver.remove (containerId run)
                        (Driver.halt (containerId run) (docker s))) s in
      let s2 := runsDelete id (endListeners run s1) in
      (eventsBroadcast (lifecycle "run-closed" run (isExec run)) s2, Removed)
  end.

Definition autoStopMsg : string :=
  NL +:+ "[[AUTO-STOP]] idle timeout exceeded ("
     +:+ NilZero.string_of_int (Z.to_int (IDLE_TIMEOUT_SEC cfg))
     +:+ "s). Stopping run." +:+ NL.

(** [autoStopRun(run)] *)
Definition autoStopRun (run : Run) (s : App) : App :=
  let id := runId run in
  let s1 := withFs (appendFile (fs s) (transcriptPath run) autoStopMsg) s in
  let s2 := farewell autoStopMsg run s1 in
  let s3 :=
    if isExec run then
      updRun id (fun r => setStream
        (streamWrite ("exit" +:+ NL) (streamWrite CTRL_C (attachStream r))) r) s2
    else
      withDocker (Driver.remove (containerId run)
                    (Driver.halt (containerId run) (docker s2))) s2 in
  eventsBroadcast (lifecycle "run-idle-stopped" run (isExec run))
    (updRun id (setStatus "stopped") s3).

(** Whether the sweep stops [run] at time [now]. *)
Definition idleExpired (now : Z) (run : Run) : bool :=
  String.eqb (status run) "running"
  && negb (Z.eqb (lastActivityAt run) 0)
  && Z.leb (IDLE_TIMEOUT_SEC cfg * 1000) (now - lastActivityAt run).

(** One tick of the idle reaper, installed when the time-out is
    positive. *)
Definition idleSweep (now : Z) (s : App) : App :=
  if Z.ltb 0 (IDLE_TIMEOUT_SEC cfg) then
    fold_left (fun s id =>
                 match heap s !! id with
                 | Some run => if idleExpired now run then autoStopRun run s else s
                 | None => s
                 end)
      (runs s) s
  else s.

(** [listAdzContainers()] *)
Definition listAdzContainers (d : Docker) : result (list Container) :=
  let* list := Driver.listContainers d [] in
  Ok (List.filter (fun c =>
        Str.truthy (default "" (Labels c !! "adz.engine"))
        || Str.truthy (default "" (Labels c !! "adz.warm"))) list).

(** The loop shared by the two bulk handlers. *)
Definition bulk (includeWarm : bool) (all : list Container) (d : Docker)
  : Docker * nat :=
  fold_left (fun '(d, count) c =>
               let warm := String.eqb (default "" (Labels c !! "adz.warm")) "true" in
               if warm && negb includeWarm then (d, count)
               else (Driver.remove (Id c) (Driver.halt (Id c) d), S count))
    all (d, 0).

(** [POST /runs/stop-all] and [POST /runs/kill-all]; they differ in the
    driver call that halts a container. *)
Definition stopAll (includeWarm : bool) (s : App) : App * Reply :=
  match listAdzContainers (docker s) with
  | Throw msg => (s, Failed msg)
  | Ok all =>
      let '(d, count) := bulk includeWarm all (docker s) in
      (runsClear (withDocker d s), Bulk count includeWarm)
  end.

Definition killAll (includeWarm : bool) (s : App) : App * Reply :=
  match listAdzContainers (docker s) with
  | Throw msg => (s, Failed msg)
  | Ok all =>
      let '(d, count) := bulk includeWarm all (docker s) in
      (runsClear (withDocker d s), Bulk count includeWarm)
  end.

Definition TAIL_MAX : nat := 64 * 1024.

(** The bytes the log handler reads: the last [min(size, 64 KiB)]. *)
Definition tail (content : string) : string :=
  let size := Nat.min (String.length content) TAIL_MAX in
  Str.take size (Str.drop (String.length content - size) content).

(** [GET /runs/:id/logs]; [res] names the response object of the
    request. *)
Definition getLogs (id : string) (follow : bool) (res : nat) (s : App)
  : App * Reply :=
  match runsGet s id with
  | None => (s, NotFound)
  | Some run =>
      let c0 := mkRes [] false in
      let c1 := match files (fs s) !! transcriptPath run with
                | Some content => sseSend (toStringUtf8 (tail content)) c0
                | None => c0
                end in
      if follow then
        (updRun id (fun r => setListeners
                     (if existsb (Nat.eqb res) (listeners r) then listeners r
                      else listeners r ++ [res]) r)
           (withConns (<[res := c1]> (conns s)) s), Streaming)
      else (withConns (<[res := resEnd c1]> (conns s)) s, Streaming)
  end.

(** What can happen to the server. *)
Inductive Action : Type :=
| AStart (q : StartReq) (id fileTs cid : string) (now : Z)
| AData (id chunk : string) (now : Z)
| AStreamEnd (id : string)
| AContainerWait (id : string)
| AStop (id : string)
| AKill (id : string)
| AClose (id : string)
| ASweep (now : Z)
| AStopAll (includeWarm : bool)
| AKillAll (includeWarm : bool)
| ALogs (id : string) (follow : bool) (res : nat).

Definition step (a : Action) (s : App) : App :=
  match a with
  | AStart q id fileTs cid now => (startRun q id fileTs cid now s).1
  | AData id chunk now => onData id chunk now s
  | AStreamEnd id => onStreamEnd id s
  | AContainerWait id => onContainerWait id s
  | AStop id => (stopRun id s).1
  | AKill id => (killRun id s).1
  | AClose id => (closeRun id s).1
  | ASweep now => idleSweep now s
  | AStopAll w => (stopAll w s).1
  | AKillAll w => (killAll w s).1
  | ALogs id follow res => (getLogs id follow res s).1
  end.

Definition replay (acts : list Action) (s : App) : App :=
  fold_left (fun s a => step a s) acts s.

(** The terminal requests of the HTTP surface. *)
Inductive Request : Type := RStop | RKill | RClose.

Definition handle (r : Request) (id : string) (s : App) : App * Reply :=
  match r with
  | RStop => stopRun id s
  | RKill => killRun id s
  | RClose => closeRun id s
  end.

Definition terminalName (r : Request) : string :=
  match r with
  | RStop => "run-stopped"
  | RKill => "run-killed"
  | RClose => "run-closed"
  end.

(** The terminal operations on a run: the three requests, and the idle
    reaper stopping it. *)
Inductive Teardown : Type := TRequest (r : Request) | TIdle.

Definition teardown (t : Teardown) (run : Run) (s : App) : App :=
  match t with
  | TRequest r => (handle r (runId run) s).1
  | TIdle => autoStopRun run s
  end.

End Orchestrator.

(* ===================================================================== *)
(** * Scenarios *)
(* ===================================================================== *)

(** A small deployment used to run the model: one warm container for
    codex on [/ws/a], a reachable daemon, an empty registry. *)
Module Scenario.

Definition cfg : Config := mkConfig "/srv" 900 ["/ws"] ["/cr"].

Definition utf8 (bytes : string) : string := bytes.

Definition noArtifacts (line : string) : list Artifact := [].

Definition warmMount : Mount := mkMount "codex" "/ws/a" "/cr/a" true None.

Definition warm : Container :=
  mkContainer "w1" "running" (list_to_map (labelsForWarm warmMount)) false.

Definition daemon : Docker := mkDocker true [warm] [].

Definition boot : App := emptyApp daemon (mkFS ∅ ∅).

(** A request that prefers the warm pool, and one that does not. *)
Definition askWarm : StartReq := mkStartReq "codex" "/ws/a" "/cr/a" true None true.
Definition askFresh : StartReq := mkStartReq "codex" "/ws/a" "/cr/a" true None false.

Definition run (acts : list Action) : App := replay cfg utf8 noArtifacts acts boot.

Definition startWarm : Action := AStart askWarm "r1" "ts" "c1" 1000.
Definition startFresh : Action := AStart askFresh "r2" "ts" "c2" 1000.

(** The run objects the two starts create. *)
Definition warmRun : Run :=
  mkRun "r1" "codex" "/ws/a" "/cr/a" "w1" "w1" "running"
    "/ws/a/.runs/codex-ts.log" [] (mkStream [] false) true 1000.
Definition freshRun : Run :=
  mkRun "r2" "codex" "/ws/a" "/cr/a" "c2" "adz-codex-ts-r2" "running"
    "/ws/a/.runs/codex-ts.log" [] (mkStream [] false) false 1000.

(** A credentials pocket with a key for codex and a login of gemini. *)
Definition pocket : FS :=
  mkFS {[ "/cr/a/.env" := "OPENAI_API_KEY=sk-1" +:+ NL ]}
       {[ "/cr/a/gemini" := ["oauth.json"]; "/cr/a/codex" := [] ]}.

(** A follower, response 7, has attached to the warm run after the run
    wrote [hello]. *)
Definition followed : App :=
  run [startWarm; AData "r1" "hello" 1001; ALogs "r1" true 7].
Definition followedRun : Run :=
  mkRun "r1" "codex" "/ws/a" "/cr/a" "w1" "w1" "running"
    "/ws/a/.runs/codex-ts.log" [7] (mkStream [] false) true 1001.

(** The server process has restarted while the container of run [r2]
    lives on: the registry is empty, the labelled container is there. *)
Definition restarted : App :=
  emptyApp (docker (run [startFresh])) (fs (run [startFresh])).

(** The daemon has stopped answering; its containers are as they were. *)
Definition offline (s : App) : App :=
  withDocker (mkDocker false (containers (docker s)) (execLog (docker s))) s.

End Scenario.

(* ===================================================================== *)
(** * The rest of the HTTP surface *)
(* ===================================================================== *)

(** [tsForFile()], on the ISO string of the clock:
    [iso.replace(/[:.]/g, '-')]. *)
Fixpoint tsForFile (iso : string) : string :=
  match iso with
  | EmptyString => EmptyString
  | String c s =>
      String (if Ascii.eqb c ":" || Ascii.eqb c "." then "-"%char else c)
        (tsForFile s)
  end.

Inductive CredsReply : Type :=
| CBad (msg : string)                       (* 400 { error: msg } *)
| CReadiness (r : Creds.Readiness)          (* 200, the readiness *)
| CWritten (envKeys : list string).         (* 200 { ok: true, envKeys } *)

Section CredsRoutes.

Variable objectKeys : gmap string string -> list string.
Variable cfg : Config.

(** [GET /creds/check]; a parameter that is missing is the empty string.
    What [checkReadiness] throws reaches the error handler. *)
Definition getCredsCheck (f : FS) (eng credsParam : string) : CredsReply :=
  if negb (Str.truthy eng) || negb (Str.truthy credsParam)
  then CBad "engine and creds required"
  else
    match Creds.checkReadiness (cwd cfg) (ALLOW_CREDS_ROOTS cfg) f eng
            (Path.resolve (cwd cfg) credsParam) with
    | Ok (r, _) => CReadiness r
    | Throw msg => CBad msg
    end.

(** [POST /creds/write-env]; [updates] is [None] when the body has no
    object there. *)
Definition postWriteEnv (f : FS) (credsParam : string)
    (updates : option (gmap string string)) : FS * CredsReply :=
  match updates with
  | None => (f, CBad "creds and updates required")
  | Some u =>
      if negb (Str.truthy credsParam) then (f, CBad "creds and updates required")
      else
        let absCreds := Path.resolve (cwd cfg) credsParam in
        if negb (isAllowed (cwd cfg) absCreds (ALLOW_CREDS_ROOTS cfg))
        then (f, CBad "creds not under allowed roots")
        else
          let written := Creds.writeCredsEnv objectKeys (ensureDir absCreds f) absCreds u in
          (written.1, CWritten (objectKeys written.2))
  end.

End CredsRoutes.

(** An entry of the answer of [GET /warm]. *)
Record WarmInfo : Type := mkWarmInfo {
  w_id : string;
  w_state : string;
  w_engine : option string;
  w_workspace : option string;
  w_creds : option string
}.

Inductive WarmReply : Type :=
| WBad (msg : string)                       (* 400 { error: msg } *)
| WEnsured (warmId : string)                (* 200 { warmId, name } *)
| WDeleted.                                 (* 200 { ok: true } *)

(** [GET /warm] *)
Definition getWarm (d : Docker) : result (list WarmInfo) :=
  let* list := Driver.listContainers d [("adz.warm", "true")] in
  Ok (List.map (fun c => mkWarmInfo (Id c) (State c) (Labels c !! "adz.engine")
                           (Labels c !! "adz.workspace") (Labels c !! "adz.creds"))
        list).

(** [POST /warm/ensure]; [cid] is the id the daemon gives to a container it
    creates. *)
Definition postWarmEnsure (cfg : Config) (m : Mount) (cid : string) (d : Docker)
  : Docker * WarmReply :=
  if negb (isEngine (m_engine m)) then (d, WBad "invalid engine")
  else if negb (Path.isAbsolute (m_workspace m)) || negb (Path.isAbsolute (m_creds m))
  then (d, WBad "workspace and creds must be absolute")
  else if negb (isAllowed (cwd cfg) (m_workspace m) (ALLOW_WORKSPACE_ROOTS cfg))
          || negb (isAllowed (cwd cfg) (m_creds m) (ALLOW_CREDS_ROOTS cfg))
  then (d, WBad "paths not allowed")
  else
    match ensureWarmContainer cid d m with
    | Ok (d', warmId) => (d', WEnsured warmId)
    | Throw msg => (d, WBad msg)
    end.

(** [DELETE /warm/:id]: both driver calls swallow their rejection, so the
    [catch] that answers 404 is not reached. *)
Definition deleteWarm (id : string) (d : Docker) : Docker * WarmReply :=
  (Driver.remove id (Driver.halt id d), WDeleted).

(** An entry of the answer of [GET /runs]. *)
Record RunSummary : Type := mkRunSummary {
  s_runId : string;
  s_engine : string;
  s_workspace : string;
  s_status : string
}.

Inductive Answer : Type :=
| ANotFound                                 (* 404 { error: 'not found' } *)
| ABad (msg : string)                       (* 400 { error: msg } *)
| AOk                                       (* 200 { ok: true } *)
| AFile (content : string)                  (* 200, the file *)
| AUnreadable.                              (* [stat] succeeds on a directory,
                                               the read stream then fails *)

(** The status [GET /runs] shows: the stored one for a warm-exec run, the
    resolved one for a fresh run unless resolving throws. *)
Definition shownStatus (d : Docker) (run : Run) : string :=
  if isExec run then status run
  else
    match resolveStatus d (containerId run) with
    | Ok st => st
    | Throw _ => status run
    end.

(** [GET /runs] *)
Definition listRuns (s : App) : list RunSummary :=
  omap (fun id =>
          match heap s !! id with
          | Some run =>
              Some (mkRunSummary (runId run) (engine run) (workspace run)
                      (shownStatus (docker s) run))
          | None => None
          end)
    (runs s).

(** [POST /runs/:id/input]; [data] is [None] when the body has no string
    there. *)
Definition postInput (id : string) (data : option string) (now : Z) (s : App)
  : App * Answer :=
  match runsGet s id with
  | None => (s, ANotFound)
  | Some _ =>
      match data with
      | None => (s, ABad "data must be string")
      | Some text =>
          (updRun id (fun r => setActivity now
                                 (setStream (streamWrite text (attachStream r)) r)) s,
           AOk)
      end
  end.

(** [GET /runs/:id/file?path=] *)
Definition getFile (cfg : Config) (id p : string) (s : App) : Answer :=
  match runsGet s id with
  | None => ANotFound
  | Some run =>
      if negb (Str.truthy p) then ABad "path required"
      else
        let abs := Path.resolve (cwd cfg) p in
        if negb (isSubPath (cwd cfg) abs (workspace run))
           && negb (String.eqb abs (Path.join (workspace run) ".runs"))
        then ABad "path outside workspace"
        else
          match files (fs s) !! abs with
          | Some content => AFile content
          | None =>
              match dirents (fs s) !! abs with
              | Some _ => AUnreadable
              | None => ANotFound
              end
          end
  end.

(** Everything that reaches the server: the actions of the orchestrator,
    input, and the two warm-pool requests that change the daemon. *)
Inductive Call : Type :=
| CAction (a : Action)
| CInput (id : string) (data : option string) (now : Z)
| CWarmEnsure (m : Mount) (cid : string)
| CWarmDelete (id : string).

Definition serve (cfg : Config) (utf8 : string -> string)
    (detect : string -> list Artifact) (c : Call) (s : App) : App :=
  match c with
  | CAction a => step cfg utf8 detect a s
  | CInput id data now => (postInput id data now s).1
  | CWarmEnsure m cid => withDocker (postWarmEnsure cfg m cid (docker s)).1 s
  | CWarmDelete id => withDocker (deleteWarm id (docker s)).1 s
  end.

Definition serveAll (cfg : Config) (utf8 : string -> string)
    (detect : string -> list Artifact) (cs : list Call) (s : App) : App :=
  fold_left (fun s c => serve cfg utf8 detect c s) cs s.

(* ===================================================================== *)
(** * Artifacts of a workspace *)
(* ===================================================================== *)

(** What the artifact listing sees of the disk: a regular file with the
    result of [stat] ([None] when it fails), a directory with the result of
    [readdir], or an entry that is neither. *)
#[warnings="-register-all"]
Inductive Node : Type :=
| NFile (st : option (N * Z))
| NDir (entries : option (list (string * Node)))
| NOther.

Record FileInfo : Type := mkFileInfo {
  i_path : string;
  i_size : N;
  i_mtime : Z
}.

(** Insertion of [x] before the first entry that is not newer: with
    [byMtime] this is the stable [sort((a, b) => b.mtime - a.mtime)]. *)
Fixpoint insertNewer (x : FileInfo) (l : list FileInfo) : list FileInfo :=
  match l with
  | [] => [x]
  | y :: l' =>
      if Z.ltb (i_mtime x) (i_mtime y) then y :: insertNewer x l' else x :: l
  end.

Definition byMtime (l : list FileInfo) : list FileInfo :=
  fold_right insertNewer [] l.

(** The files of [listTranscripts]: the entries of [.runs] whose [stat]
    succeeds and says regular file. *)
Definition transcriptOf (dir : string) (e : string * Node) : option FileInfo :=
  match e.2 with
  | NFile (Some (size, mtime)) => Some (mkFileInfo (Path.join dir e.1) size mtime)
  | _ => None
  end.

(** [listTranscripts(workspace)]; [runsNode] is what the disk holds at
    [<workspace>/.runs]. *)
Definition listTranscripts (workspace : string) (runsNode : Node) : list FileInfo :=
  let dir := Path.join workspace ".runs" in
  match runsNode with
  | NDir (Some items) => List.firstn 50 (byMtime (omap (transcriptOf dir) items))
  | _ => []
  end.

Definition EXCLUDE : list string :=
  ["node_modules"; ".git"; ".runs"; ".venv"; "venv"; "dist"; "build"].

Definition excluded (name : string) : bool := existsb (String.eqb name) EXCLUDE.

(** The function [walk] inside [listRecentFiles], with [out] passed
    along. *)
Fixpoint walk (n : Node) (dir : string) (depth : nat) (out : list FileInfo)
  {struct n} : list FileInfo :=
  match n with
  | NDir (Some ents) =>
      if Nat.leb 500 (List.length out) then out
      else
        (fix each (es : list (string * Node)) (out : list FileInfo) {struct es}
           : list FileInfo :=
           match es with
           | [] => out
           | (name, e) :: es' =>
               each es'
                 (if Str.startsWith name ".DS_" then out
                  else
                    match e with
                    | NDir _ =>
                        if excluded name then out
                        else if Nat.ltb depth 3
                             then walk e (Path.join dir name) (S depth) out
                             else out
                    | NFile (Some (size, mtime)) =>
                        out ++ [mkFileInfo (Path.join dir name) size mtime]
                    | NFile None => out
                    | NOther => out
                    end)
           end) ents out
  | _ => out
  end.

(** [listRecentFiles(workspace, limit)] *)
Definition listRecentFiles (workspace : string) (root : Node) (limit : nat)
  : list FileInfo :=
  List.firstn limit (byMtime (walk root workspace 0 [])).

(* ===================================================================== *)
(** * Vocabulary of the specification *)
(* ===================================================================== *)


(** Key [k] is set in [env]: present, with a value that is not empty. *)
Definition keySet (env : gmap string string) (k : string) : Prop :=
  exists v, env !! k = Some v /\ v <> "".

(** The sub-directory [sub] of the credentials directory can be listed and
    has an entry. *)
Definition subdirNonEmpty (f : FS) (credsPath sub : string) : Prop :=
  exists ent, dirents f !! Path.join credsPath sub = Some ent /\ ent <> [].

(** A segment of a normalized path. *)
Definition cleanSeg (seg : string) : Prop :=
  seg <> "" /\ seg <> "." /\ seg <> ".." /\ Str.free Path.SLASH seg = true.

(** A key that a line [key=value] gives back when it is parsed: no [=] in
    it, no white space at either end, no [#] at its start. *)
Definition keyLine (k : string) : Prop :=
  Str.free "="%char k = true /\ Str.noLead k /\ Str.trimEnd k = k
  /\ Str.startsWith k "#" = false.

(** A key that survives the file: as above, on one line, and not the one
    name an object literal does not take as its own. *)
Definition keyOk (k : string) : Prop :=
  keyLine k /\ k <> "__proto__" /\ Str.free Str.LF k = true.

(** A value that survives the file: on one line, without white space at
    its end and not wrapped in a pair of quotes. *)
Definition valOk (v : string) : Prop :=
  Str.free Str.LF v = true /\ Str.trimEnd v = v
  /\ Creds.quotedBy Str.DQUOTE v = false /\ Creds.quotedBy Str.SQUOTE v = false.

(** Every entry of [env] has a key and a value that fit on a line. *)
Definition parsed (env : gmap string string) : Prop :=
  forall k v, env !! k = Some v -> keyOk k /\ Str.free Str.LF v = true.

(** [Object.keys] lists the own keys, each once. *)
Definition keysSpec (objectKeys : gmap string string -> list string) : Prop :=
  forall m, List.NoDup (objectKeys m) /\ forall k, In k (objectKeys m) <-> is_Some (m !! k).

(** Container [c] carries the label [adz.warm=true]. *)
Definition isWarm (c : Container) : bool :=
  String.eqb (default "" (Labels c !! "adz.warm")) "true".

(** Container [c] carries the label [adz.runId=id]. *)
Definition labelled (id : string) (c : Container) : bool :=
  Driver.hasLabel c ("adz.runId", id).

(** The call [c] takes the id [id] out of the registry: a stop, kill or
    close request for the id, or a bulk stop or kill. *)
Definition unregisters (id : string) (c : Call) : bool :=
  match c with
  | CAction (AStop i) | CAction (AKill i) | CAction (AClose i) => String.eqb i id
  | CAction (AStopAll _) | CAction (AKillAll _) => true
  | _ => false
  end.

(** The run object [r'] is [r] after assignments of the handlers: it has
    the id, the engine, the workspace and the kind of [r]. *)
Definition sameRun (r r' : Run) : Prop :=
  runId r' = runId r /\ engine r' = engine r /\ workspace r' = workspace r
  /\ isExec r' = isExec r.

(** The call [c] is a start that is given the run id [id]. *)
Definition registers (id : string) (c : Call) : bool :=
  match c with
  | CAction (AStart _ i _ _ _) => String.eqb i id
  | _ => false
  end.

(** Key [k] has a value in [env] that is not empty. *)
Definition isSet (env : gmap string string) (k : string) : bool :=
  Str.truthy (default "" (env !! k)).

(** The keys [checkReadiness] asks for, in the order it asks. *)
Definition keysTried (eng : string) : list string :=
  if String.eqb eng "codex" then ["OPENAI_API_KEY"]
  else if String.eqb eng "gemini" then ["GEMINI_API_KEY"]
  else ["OPENAI_API_KEY"; "ANTHROPIC_API_KEY"; "GEMINI_API_KEY"].

(** A run object as [startRun] makes it, whatever was assigned to its
    fields since. *)
Definition goodRun (cfg : Config) (run : Run) : Prop :=
  isEngine (engine run) = true
  /\ Path.isAbsolute (workspace run) = true
  /\ Path.isAbsolute (creds run) = true
  /\ isAllowed (cwd cfg) (workspace run) (ALLOW_WORKSPACE_ROOTS cfg) = true
  /\ isAllowed (cwd cfg) (creds run) (ALLOW_CREDS_ROOTS cfg) = true
  /\ (exists ts, transcriptPath run
                 = Path.join (Path.join (workspace run) ".runs")
                     (engine run +:+ "-" +:+ ts +:+ ".log"))
  /\ List.NoDup (listeners run).

(** The registry and the run objects fit together. *)
Definition consistent (cfg : Config) (s : App) : Prop :=
  List.NoDup (runs s)
  /\ (forall id, In id (runs s) -> is_Some (heap s !! id))
  /\ (forall id run, heap s !! id = Some run -> runId run = id /\ goodRun cfg run).

(** The run object the idle reaper leaves behind. *)
Definition reaped (run : Run) : Run :=
  setStatus "stopped"
    ((if isExec run
      then fun r => setStream
             (streamWrite ("exit" +:+ NL) (streamWrite CTRL_C (attachStream r))) r
      else fun r => r)
       (setListeners [] run)).

(** Every run object sits under its own id. *)
Definition keyed (h : gmap string Run) : Prop :=
  forall id r, h !! id = Some r -> runId r = id.

(** The loop of the reaper over the keys [ids]. *)
Definition sweepOver (cfg : Config) (now : Z) (ids : list string) (s : App) : App :=
  fold_left (fun s id =>
               match heap s !! id with
               | Some run => if idleExpired cfg now run then autoStopRun cfg run s else s
               | None => s
               end) ids s.

(** The event the reaper broadcasts for the key [id]. *)
Definition idleEvent (cfg : Config) (now : Z) (h : gmap string Run) (id : string)
  : option Event :=
  match h !! id with
  | Some run => if idleExpired cfg now run
                then Some (lifecycle "run-idle-stopped" run (isExec run)) else None
  | None => None
  end.

(** The broadcasts about run [id]. *)
Definition eventsOf (id : string) (es : list Event) : list Event :=
  List.filter (fun e => String.eqb (ev_runId e) id) es.

(** Every entry of [l] is at least as new as the entries after it. *)
Fixpoint newestFirst (l : list FileInfo) : Prop :=
  match l with
  | [] => True
  | x :: l' => Forall (fun y => (i_mtime y <= i_mtime x)%Z) l' /\ newestFirst l'
  end.

(** Below the node [n], the names [names] lead to the node [n']. *)
Inductive leadsTo : Node -> list string -> Node -> Prop :=
| leads_here n : leadsTo n [] n
| leads_down ents name e names n' :
    In (name, e) ents -> leadsTo e names n' ->
    leadsTo (NDir (Some ents)) (name :: names) n'.

(** The file [fi] was found below the node [n], the directory at [dir],
    along names that the walk follows: at most [4 - depth] of them, none
    beginning with [.DS_], and no directory among them excluded. *)
Definition foundBelow (n : Node) (dir : string) (depth : nat) (fi : FileInfo) : Prop :=
  exists names,
    leadsTo n names (NFile (Some (i_size fi, i_mtime fi)))
    /\ i_path fi = fold_left Path.join names dir
    /\ names <> [] /\ List.length names + depth <= 4
    /\ Forall (fun x => Str.startsWith x ".DS_" = false) names
    /\ Forall (fun x => excluded x = false) (List.removelast names).

(* ===================================================================== *)
(** * Properties *)
(* ===================================================================== *)

Example resolve_trailing : Path.resolve "/srv" "/a/b/" = "/a/b".
Proof. reflexivity. Qed.
Example resolve_dots : Path.resolve "/srv" "/a/./x/../b" = "/a/b".
Proof. reflexivity. Qed.
Example resolve_rel : Path.resolve "/srv" "x/y" = "/srv/x/y".
Proof. reflexivity. Qed.
Example relative_sibling : Path.relative "/srv" "/a/b" "/a/bc" = "../bc".
Proof. reflexivity. Qed.
Example relative_child : Path.relative "/srv" "/a/b" "/a/b/c/d" = "c/d".
Proof. reflexivity. Qed.
Example relative_root : Path.relative "/srv" "/" "/x/y" = "x/y".
Proof. reflexivity. Qed.
Example sibling_rejected : isAllowed "/srv" "/a/bc" ["/a/b"] = false.
Proof. reflexivity. Qed.
Example child_accepted : isAllowed "/srv" "/a/b/c" ["/a/b"] = true.
Proof. reflexivity. Qed.
Example dotdot_child : isAllowed "/srv" "/a/b/..c" ["/a/b"] = false.
Proof. reflexivity. Qed.
Example join_env : Path.join "/c/r" ".env" = "/c/r/.env".
Proof. reflexivity. Qed.
Example join_rel : Path.join "../x/" ".env" = "../x/.env".
Proof. reflexivity. Qed.
Example join_runs : Path.join "/w/s/" ".runs" = "/w/s/.runs".
Proof. reflexivity. Qed.

Example autoStopMsg_900 :
  autoStopMsg (mkConfig "/" 900 [] []) =
  NL +:+ "[[AUTO-STOP]] idle timeout exceeded (900s). Stopping run." +:+ NL.
Proof. reflexivity. Qed.
Example b64_hi : Base64.encode "hi" = "aGk=".
Proof. reflexivity. Qed.
Example b64_hello : Base64.encode "hello!" = "aGVsbG8h".
Proof. reflexivity. Qed.

(* --------------------------------------------------------------------- *)
(** ** The registry *)
(* --------------------------------------------------------------------- *)

Example warm_start : runsGet (Scenario.run [Scenario.startWarm]) "r1" = Some Scenario.warmRun.
Proof. vm_compute. reflexivity. Qed.
Example fresh_start : runsGet (Scenario.run [Scenario.startFresh]) "r2" = Some Scenario.freshRun.
Proof. vm_compute. reflexivity. Qed.

Lemma runsHas_delete id s : runsHas (runsDelete id s) id = false.
Proof.
  unfold runsHas, runsDelete. cbn. induction (runs s) as [|k ks IH]; cbn; [done|].
  destruct (String.eqb k id) eqn:E; cbn; [done|].
  rewrite String.eqb_sym, E. done.
Qed.

Lemma runsGet_delete id s : runsGet (runsDelete id s) id = None.
Proof. unfold runsGet. by rewrite runsHas_delete. Qed.

Lemma runsGet_heap s id run : runsGet s id = Some run -> heap s !! id = Some run.
Proof. unfold runsGet. by destruct (runsHas s id). Qed.

Lemma runsGet_has s id run : runsGet s id = Some run -> runsHas s id = true.
Proof. unfold runsGet. by destruct (runsHas s id). Qed.

Lemma autoStopRun_runs cfg run s : runs (autoStopRun cfg run s) = runs s.
Proof. unfold autoStopRun. by destruct (isExec run). Qed.

Lemma idleSweep_runs cfg now s : runs (idleSweep cfg now s) = runs s.
Proof.
  unfold idleSweep. destruct (Z.ltb 0 (IDLE_TIMEOUT_SEC cfg)); [|done].
  generalize (runs s) at 1. intros ids. revert s.
  induction ids as [|i ids IH]; intros s; cbn; [done|].
  rewrite IH. destruct (heap s !! i) as [r|]; [|done].
  destruct (idleExpired cfg now r); [apply autoStopRun_runs | done].
Qed.

Lemma onStreamEnd_runs id s : runs (onStreamEnd id s) = runs s.
Proof.
  unfold onStreamEnd. destruct (heap s !! id) as [r|]; [|done].
  by destruct (isExec r).
Qed.

Lemma onContainerWait_runs id s : runs (onContainerWait id s) = runs s.
Proof.
  unfold onContainerWait. destruct (heap s !! id) as [r|]; [|done].
  destruct (isExec r); [done|].
  by destruct (resolveStatus (docker s) (containerId r)).
Qed.

Lemma handle_removes r id s run :
  runsGet s id = Some run -> runsHas (handle r id s).1 id = false.
Proof.
  intros Hg. destruct r; cbn; unfold stopRun, killRun, closeRun; rewrite Hg; cbn;
    apply runsHas_delete.
Qed.

Lemma runsGet_same_runs s s' id :
  runs s' = runs s -> runsGet s' id = if runsHas s id then heap s' !! id else None.
Proof. unfold runsGet, runsHas. by intros ->. Qed.


Lemma broadcasts_runs (es : list Event) s :
  runs (fold_left (fun s e => eventsBroadcast e s) es s) = runs s.
Proof. revert s. induction es as [|e es IH]; intros s; cbn; [done|]. by rewrite IH. Qed.

Lemma onData_runs utf8 det id chunk now s :
  runs (onData utf8 det id chunk now s) = runs s.
Proof. unfold onData. destruct (heap s !! id); [|done]. by rewrite broadcasts_runs. Qed.

Lemma startRun_runs cfg q id fileTs cid now s :
  runs (startRun cfg q id fileTs cid now s).1 = runs s
  \/ runs (startRun cfg q id fileTs cid now s).1 = runs s ++ [id].
Proof.
  unfold startRun. destruct (startChecks cfg q); [|by left].
  destruct (if q_preferWarm q then _ else _) as [[w|]|]; [| |by left].
  - unfold runsSet, runsHas. cbn. destruct (existsb _ _); [by left | by right].
  - destruct (Driver.run _ _); [|by left]. unfold runsSet, runsHas. cbn.
    destruct (existsb _ _); [by left | by right].
Qed.

Lemma handle_runs r i s :
  runs (handle r i s).1
  = match runsGet s i with
    | Some _ => List.filter (fun k => negb (String.eqb k i)) (runs s)
    | None => runs s
    end.
Proof.
  destruct r; cbn [handle]; unfold stopRun, killRun, closeRun;
    (destruct (runsGet s i) as [run|]; [by destruct (isExec run)|]);
    unfold fallback; by destruct (Driver.listContainers _ _).
Qed.

Lemma stopAll_runs w s : runs (stopAll w s).1 = [] \/ runs (stopAll w s).1 = runs s.
Proof.
  unfold stopAll. destruct (listAdzContainers _); [|by right].
  destruct (bulk _ _ _). by left.
Qed.

Lemma getLogs_runs utf8 i follow res s : runs (getLogs utf8 i follow res s).1 = runs s.
Proof. unfold getLogs. destruct (runsGet s i); [|done]. by destruct follow. Qed.

Lemma postInput_runs i data now s : runs (postInput i data now s).1 = runs s.
Proof. unfold postInput. destruct (runsGet s i); [|done]. by destruct data. Qed.

(** The keys of the registry after a call: a key that is new is the id
    given to a start, and a key that is gone was taken out by a stop, kill
    or close for it or by a bulk request. *)
Lemma serve_keys cfg utf8 det c s k :
  (In k (runs (serve cfg utf8 det c s)) -> In k (runs s) \/ registers k c = true)
  /\ (In k (runs s) -> unregisters k c = false -> In k (runs (serve cfg utf8 det c s))).
Proof.
  destruct c as [a|i data now|m cid|i]; [destruct a|..];
    cbn [serve step registers unregisters].
  - destruct (startRun_runs cfg q id fileTs cid now s) as [-> | ->].
    + split; [by left | done].
    + split.
      * intros [H|[<-|[]]]%in_app_or; [by left|]. right. apply String.eqb_refl.
      * intros H _. apply in_or_app. by left.
  - rewrite onData_runs. split; [by left | done].
  - rewrite onStreamEnd_runs. split; [by left | done].
  - rewrite onContainerWait_runs. split; [by left | done].
  - rewrite (handle_runs RStop). destruct (runsGet s id); [|split; [by left | done]].
    split; [intros [H _]%filter_In; by left|].
    intros H Hne. apply filter_In. split; [done|]. by rewrite String.eqb_sym, Hne.
  - rewrite (handle_runs RKill). destruct (runsGet s id); [|split; [by left | done]].
    split; [intros [H _]%filter_In; by left|].
    intros H Hne. apply filter_In. split; [done|]. by rewrite String.eqb_sym, Hne.
  - rewrite (handle_runs RClose). destruct (runsGet s id); [|split; [by left | done]].
    split; [intros [H _]%filter_In; by left|].
    intros H Hne. apply filter_In. split; [done|]. by rewrite String.eqb_sym, Hne.
  - rewrite idleSweep_runs. split; [by left | done].
  - destruct (stopAll_runs includeWarm s) as [-> | ->]; split; done || by left.
  - change (killAll includeWarm s) with (stopAll includeWarm s).
    destruct (stopAll_runs includeWarm s) as [-> | ->]; split; done || by left.
  - rewrite getLogs_runs. split; [by left | done].
  - rewrite postInput_runs. split; [by left | done].
  - split; [by left | done].
  - split; [by left | done].
Qed.

Lemma In_runsHas s id : In id (runs s) <-> runsHas s id = true.
Proof.
  unfold runsHas. rewrite existsb_exists. split.
  - intros H. exists id. split; [done | apply String.eqb_refl].
  - intros (k & Hk & He). apply String.eqb_eq in He. by subst.
Qed.







(** The container of a fresh run is made with [AutoRemove]: once its
    process has ended it is gone, the continuation of [container.wait]
    changes nothing, and the run stays registered as [running]. *)
Example fresh_exit_unnoticed :
  let s := Scenario.run [Scenario.startFresh] in
  let exited := withDocker (Driver.halt "c2" (docker s)) s in
  containers (docker exited) = [Scenario.warm]
  /\ onContainerWait "r2" exited = exited
  /\ runsGet (onContainerWait "r2" exited) "r2" = Some Scenario.freshRun.
Proof. vm_compute. done. Qed.

(* --------------------------------------------------------------------- *)
(** ** Terminal events *)
(* --------------------------------------------------------------------- *)

Lemma halt_daemonUp cid d : daemonUp (Driver.halt cid d) = daemonUp d.
Proof. unfold Driver.halt. by destruct (daemonUp d) eqn:E. Qed.

Lemma remove_daemonUp cid d : daemonUp (Driver.remove cid d) = daemonUp d.
Proof. unfold Driver.remove. by destruct (daemonUp d) eqn:E. Qed.

Lemma exec_daemonUp cid cmd d : daemonUp (Driver.exec cid cmd d) = daemonUp d.
Proof. unfold Driver.exec. by destruct (daemonUp d) eqn:E. Qed.

Lemma handle_daemonUp r id s run :
  runsGet s id = Some run -> daemonUp (docker (handle r id s).1) = daemonUp (docker s).
Proof.
  intros Hg. destruct r; cbn; unfold stopRun, killRun, closeRun; rewrite Hg;
    destruct (isExec run); cbn;
    rewrite ?remove_daemonUp, ?halt_daemonUp, ?exec_daemonUp; reflexivity.
Qed.

Lemma handle_bus r id s run :
  runsGet s id = Some run ->
  bus (handle r id s).1 = bus s ++ [lifecycle (terminalName r) run (isExec run)].
Proof.
  intros Hg. destruct r; cbn; unfold stopRun, killRun, closeRun; rewrite Hg;
    destruct (isExec run); reflexivity.
Qed.

Lemma fallback_bus id s : bus (fallback id s).1 = bus s.
Proof.
  unfold fallback. by destruct (Driver.listContainers (docker s) [("adz.runId", id)]).
Qed.

Lemma fallback_reply id s :
  (fallback id s).2 = NotFound \/ exists b, (fallback id s).2 = Fallback b.
Proof.
  unfold fallback. destruct (Driver.listContainers (docker s) [("adz.runId", id)]);
    cbn; eauto.
Qed.

Lemma fallback_up id s :
  daemonUp (docker s) = true -> statusCode (fallback id s).2 = 200.
Proof. intros Hup. unfold fallback, Driver.listContainers. by rewrite Hup. Qed.

Lemma handle_absent r id s : runsGet s id = None -> handle r id s = fallback id s.
Proof. intros Hg. destruct r; cbn; unfold stopRun, killRun, closeRun; by rewrite Hg. Qed.

(** C2, as stated, fails: a warm-exec run whose stream has ended has had
    its [run-exited]; a stop request then broadcasts [run-stopped] as well,
    two terminal events for one run. *)
Lemma C2_counterexample :
  List.map event
    (terminalEvents "r1"
       (bus (Scenario.run [Scenario.startWarm; AStreamEnd "r1"; AStop "r1"])))
  = ["run-exited"; "run-stopped"]
  /\ List.length
       (terminalEvents "r1"
          (bus (Scenario.run [Scenario.startWarm; AStreamEnd "r1"; AStop "r1"])))
     <> 1.
Proof. split; [vm_compute; reflexivity | vm_compute; discriminate]. Qed.

Lemma alter_same (f : Run -> Run) k (h : gmap string Run) id run :
  (forall r, sameRun r (f r)) ->
  (exists r0, h !! id = Some r0 /\ sameRun run r0) ->
  exists r1, alter f k h !! id = Some r1 /\ sameRun run r1.
Proof.
  intros Hf (r0 & Hr0 & H1 & H2 & H3 & H4). destruct (decide (k = id)) as [->|Hne].
  - exists (f r0). rewrite lookup_alter_eq, Hr0. split; [done|].
    destruct (Hf r0) as (F1 & F2 & F3 & F4). unfold sameRun. by rewrite F1, F2, F3, F4.
  - exists r0. rewrite lookup_alter_ne by done. by split.
Qed.

Lemma handle_bus_same r id s run run' :
  runsGet s id = Some run' -> sameRun run run' ->
  bus (handle r id s).1 = bus s ++ [lifecycle (terminalName r) run (isExec run)].
Proof.
  intros Hg (H1 & H2 & H3 & H4). rewrite (handle_bus r id s run' Hg).
  unfold lifecycle. by rewrite H1, H2, H3, H4.
Qed.

Lemma unregistered_later cfg utf8 det id (later : list Call) : forall s,
  runsHas s id = false -> Forall (fun c => registers id c = false) later ->
  runsHas (serveAll cfg utf8 det later s) id = false.
Proof.
  unfold serveAll. induction later as [|c later IH]; intros s Hs Hl; [done|].
  apply Forall_cons in Hl as [Hc Hl]. cbn [fold_left]. apply IH; [|done].
  destruct (runsHas (serve cfg utf8 det c s) id) eqn:E; [|done].
  apply In_runsHas, serve_keys in E. destruct E as [E|E]; [|congruence].
  apply In_runsHas in E. congruence.
Qed.

(** C2, amended: a stop, kill or close request on a registered run
    broadcasts exactly one event, the terminal event of the request, and
    takes the run out of the registry.  From then on, whatever else is
    served, as long as no start is given the same id, every stop, kill or
    close request for the id broadcasts nothing, leaves the id
    unregistered and takes the fallback: it answers 200 with
    [fallback: true] while the daemon answers and 404 when it does not.
    A request on a run that is still registered after its stream has
    ended, or after the idle reaper has stopped it, broadcasts the
    terminal event of the request after the one the run has had. *)
Theorem C2_terminal_requests cfg utf8 det s id run r :
  runsGet s id = Some run ->
  let s1 := (handle r id s).1 in
  bus s1 = bus s ++ [lifecycle (terminalName r) run (isExec run)]
  /\ runsGet s1 id = None
  /\ (forall later : list Call,
        Forall (fun c => registers id c = false) later ->
        let s2 := serveAll cfg utf8 det later s1 in
        forall r',
          bus (handle r' id s2).1 = bus s2
          /\ runsGet (handle r' id s2).1 id = None
          /\ (daemonUp (docker s2) = true ->
              statusCode (handle r' id s2).2 = 200
              /\ exists b, (handle r' id s2).2 = Fallback b)
          /\ (daemonUp (docker s2) = false ->
              statusCode (handle r' id s2).2 = 404
              /\ handle r' id s2 = (s2, NotFound)))
  /\ (isExec run = true ->
      forall r',
        bus (handle r' id (onStreamEnd id s)).1
        = bus s ++ [lifecycle "run-exited" run true;
                    lifecycle (terminalName r') run true])
  /\ (forall r',
        bus (handle r' id (autoStopRun cfg run s)).1
        = bus s ++ [lifecycle "run-idle-stopped" run (isExec run);
                    lifecycle (terminalName r') run (isExec run)]).
Proof.
  intros Hg s1.
  pose proof (runsGet_heap _ _ _ Hg) as Hh.
  pose proof (runsGet_has _ _ _ Hg) as Hr.
  assert (Hself : exists r0, heap s !! id = Some r0 /\ sameRun run r0)
    by (exists run; by repeat split).
  split; [by apply handle_bus|].
  assert (Ha : runsHas s1 id = false) by apply (handle_removes r id s run Hg).
  split; [unfold runsGet; by rewrite Ha|]. split; [|split].
  - intros later Hl s2 r'.
    assert (Hhas : runsHas s2 id = false)
      by apply (unregistered_later _ _ _ _ _ _ Ha Hl).
    assert (Hn : runsGet s2 id = None) by (unfold runsGet; by rewrite Hhas).
    rewrite (handle_absent r' id s2 Hn). split; [apply fallback_bus|]. split.
    + rewrite <- (handle_absent r' id s2 Hn). unfold runsGet, runsHas.
      rewrite handle_runs, Hn. fold (runsHas s2 id). by rewrite Hhas.
    + unfold fallback, Driver.listContainers. split; intros Hup; rewrite Hup; cbn.
      * split; [done | by eexists].
      * done.
  - intros He r'.
    assert (Hg' : exists run', runsGet (onStreamEnd id s) id = Some run' /\ sameRun run run').
    { rewrite (runsGet_same_runs s) by apply onStreamEnd_runs. rewrite Hr.
      unfold onStreamEnd. rewrite Hh, He. cbn [heap eventsBroadcast farewell updRun withHeap].
      apply alter_same; [done|]. by apply alter_same. }
    destruct Hg' as (run' & Hg' & Hsame).
    rewrite (handle_bus_same r' id _ run run' Hg' Hsame). rewrite He.
    unfold onStreamEnd. rewrite Hh, He. cbn [bus eventsBroadcast farewell updRun withHeap
      forEachRes withConns]. by rewrite <- List.app_assoc.
  - intros r'.
    assert (Hg' : exists run', runsGet (autoStopRun cfg run s) id = Some run'
                               /\ sameRun run run').
    { rewrite (runsGet_same_runs s) by apply autoStopRun_runs. rewrite Hr.
      unfold autoStopRun. destruct (isExec run);
        cbn [heap eventsBroadcast farewell updRun withHeap withDocker withFs forEachRes
             withConns];
        repeat (apply alter_same; [done|]); exact Hself. }
    destruct Hg' as (run' & Hg' & Hsame).
    rewrite (handle_bus_same r' id _ run run' Hg' Hsame).
    unfold autoStopRun. destruct (isExec run); cbn [bus eventsBroadcast]; by rewrite <- List.app_assoc.
Qed.

Lemma C2_terminal_requests_witness :
  bus (stopRun "r2" (Scenario.run [Scenario.startFresh])).1
  = bus (Scenario.run [Scenario.startFresh])
    ++ [lifecycle "run-stopped" Scenario.freshRun false]
  /\ (killRun "r2"
        (serveAll Scenario.cfg Scenario.utf8 Scenario.noArtifacts
           [CAction (AClose "r2"); CAction (AData "r2" "bye" 1002)]
           (stopRun "r2" (Scenario.run [Scenario.startFresh])).1)).2
     = Fallback false.
Proof.
  destruct (C2_terminal_requests Scenario.cfg Scenario.utf8 Scenario.noArtifacts
              (Scenario.run [Scenario.startFresh]) "r2" Scenario.freshRun RStop)
    as (H1 & _ & H3 & _).
  - vm_compute. reflexivity.
  - split; [exact H1|].
    destruct (H3 [CAction (AClose "r2"); CAction (AData "r2" "bye" 1002)]) with (r' := RKill)
      as (_ & _ & Hup & _).
    + repeat constructor.
    + destruct Hup as [_ [b Hb]]; [vm_compute; reflexivity|].
      vm_compute. reflexivity.
Defined.

(* --------------------------------------------------------------------- *)
(** ** Containers after a teardown *)
(* --------------------------------------------------------------------- *)

Lemma exec_containers cid cmd d : containers (Driver.exec cid cmd d) = containers d.
Proof. unfold Driver.exec. by destruct (daemonUp d). Qed.

Lemma remove_gone cid d c :
  daemonUp d = true -> In c (containers (Driver.remove cid d)) -> Id c <> cid.
Proof.
  intros Hup Hin. unfold Driver.remove in Hin. rewrite Hup in Hin. cbn in Hin.
  apply filter_In in Hin as [_ Hne]. intros Heq.
  by rewrite Heq, String.eqb_refl in Hne.
Qed.

Lemma teardown_docker_warm cfg t run s :
  runsGet s (runId run) = Some run -> isExec run = true ->
  containers (docker (teardown cfg t run s)) = containers (docker s).
Proof.
  intros Hg He. destruct t as [[| |]|]; cbn;
    unfold stopRun, killRun, closeRun, autoStopRun; rewrite ?Hg, He; cbn;
    rewrite ?exec_containers; reflexivity.
Qed.

Lemma teardown_docker_fresh cfg t run s :
  runsGet s (runId run) = Some run -> isExec run = false ->
  docker (teardown cfg t run s)
  = Driver.remove (containerId run) (Driver.halt (containerId run) (docker s)).
Proof.
  intros Hg He. destruct t as [[| |]|]; cbn;
    unfold stopRun, killRun, closeRun, autoStopRun; rewrite ?Hg, He; reflexivity.
Qed.

Lemma halt_down cid d : daemonUp d = false -> Driver.halt cid d = d.
Proof. intros H. unfold Driver.halt. by rewrite H. Qed.

Lemma remove_down cid d : daemonUp d = false -> Driver.remove cid d = d.
Proof. intros H. unfold Driver.remove. by rewrite H. Qed.

(** C3, as stated, fails: when the daemon does not answer, a stop of the
    fresh run [r2] is answered 200, the run is taken out of the registry,
    and its container is still there, running. *)
Lemma C3_counterexample :
  let s := Scenario.offline (Scenario.run [Scenario.startFresh]) in
  runsGet s "r2" = Some Scenario.freshRun
  /\ (stopRun "r2" s).2 = Removed
  /\ runsGet (stopRun "r2" s).1 "r2" = None
  /\ List.map (fun c => (Id c, State c)) (containers (docker (stopRun "r2" s).1))
     = [("w1", "running"); ("c2", "running")]
  /\ ~ (forall c, In c (containers (docker (stopRun "r2" s).1)) ->
                  Id c <> containerId Scenario.freshRun).
Proof.
  cbv zeta. split; [vm_compute; reflexivity|]. split; [vm_compute; reflexivity|].
  split; [vm_compute; reflexivity|]. split; [vm_compute; reflexivity|].
  intros H.
  apply (H (mkContainer "c2" "running"
              (list_to_map [ ("adz.engine", "codex"); ("adz.workspace", "/ws/a");
                             ("adz.creds", "/cr/a"); ("adz.runId", "r2") ]) true));
    [|reflexivity].
  vm_compute. right. left. reflexivity.
Qed.

(** C3, amended: a terminal operation on a warm-exec run leaves the
    containers of the daemon as they were, so the warm container that was
    running still is; a terminal operation on a fresh run leaves no
    container with the id of the run's container, provided the daemon
    answers the driver; when the daemon does not answer, the operation
    leaves the daemon as it is, and a stop, kill or close request is still
    answered 200 and takes the run out of the registry. *)
Theorem C3_teardown_containers cfg t run s :
  runsGet s (runId run) = Some run ->
  (isExec run = true ->
     containers (docker (teardown cfg t run s)) = containers (docker s)
     /\ forall w, In w (containers (docker s)) -> Id w = containerId run ->
                  State w = "running" ->
                  In w (containers (docker (teardown cfg t run s))))
  /\ (isExec run = false -> daemonUp (docker s) = true ->
      forall c, In c (containers (docker (teardown cfg t run s))) ->
                Id c <> containerId run)
  /\ (isExec run = false -> daemonUp (docker s) = false ->
      docker (teardown cfg t run s) = docker s
      /\ forall r, (handle r (runId run) s).2 = Removed
                   /\ runsGet (handle r (runId run) s).1 (runId run) = None).
Proof.
  intros Hg. split; [|split].
  - intros He. pose proof (teardown_docker_warm cfg t run s Hg He) as Heq.
    split; [exact Heq|]. intros w Hin _ _. by rewrite Heq.
  - intros He Hup c Hin. rewrite (teardown_docker_fresh cfg t run s Hg He) in Hin.
    eapply remove_gone; [|exact Hin]. by rewrite halt_daemonUp.
  - intros He Hdown. split.
    + rewrite (teardown_docker_fresh cfg t run s Hg He).
      by rewrite (halt_down _ _ Hdown), (remove_down _ _ Hdown).
    + intros r. split.
      * destruct r; cbn [handle]; unfold stopRun, killRun, closeRun; by rewrite Hg.
      * unfold runsGet. by rewrite (handle_removes r (runId run) s run Hg).
Qed.

Lemma C3_teardown_containers_witness :
  containers (docker (teardown Scenario.cfg (TRequest RKill) Scenario.warmRun
                        (Scenario.run [Scenario.startWarm])))
  = containers (docker (Scenario.run [Scenario.startWarm]))
  /\ (forall c,
       In c (containers (docker (teardown Scenario.cfg TIdle Scenario.freshRun
                                   (Scenario.run [Scenario.startFresh])))) ->
       Id c <> containerId Scenario.freshRun)
  /\ docker (teardown Scenario.cfg (TRequest RStop) Scenario.freshRun
               (Scenario.offline (Scenario.run [Scenario.startFresh])))
     = docker (Scenario.offline (Scenario.run [Scenario.startFresh])).
Proof.
  split; [|split].
  - destruct (C3_teardown_containers Scenario.cfg (TRequest RKill) Scenario.warmRun
                (Scenario.run [Scenario.startWarm])) as [Hw _];
      [vm_compute; reflexivity|].
    destruct Hw as [Heq _]; [reflexivity | exact Heq].
  - destruct (C3_teardown_containers Scenario.cfg TIdle Scenario.freshRun
                (Scenario.run [Scenario.startFresh])) as (_ & Hf & _);
      [vm_compute; reflexivity|].
    apply Hf; [reflexivity | vm_compute; reflexivity].
  - destruct (C3_teardown_containers Scenario.cfg (TRequest RStop) Scenario.freshRun
                (Scenario.offline (Scenario.run [Scenario.startFresh]))) as (_ & _ & Hd);
      [vm_compute; reflexivity|].
    destruct Hd as [Hd _]; [reflexivity | reflexivity | exact Hd].
Defined.

(* --------------------------------------------------------------------- *)
(** ** Stop of an id the registry does not hold *)
(* --------------------------------------------------------------------- *)

Lemma ltb_length_filter {A} (f : A -> bool) (l : list A) :
  Nat.ltb 0 (List.length (List.filter f l)) = existsb f l.
Proof.
  induction l as [|x l IH]; cbn; [done|]. destruct (f x); cbn; [done | exact IH].
Qed.

Lemma halted_origin cid c c' :
  In c' (Driver.halted cid c) -> Id c' = Id c /\ Labels c' = Labels c.
Proof.
  unfold Driver.halted.
  destruct (String.eqb (Id c) cid && String.eqb (State c) "running");
    [destruct (AutoRemove c)|]; cbn; intros Hin; try done;
    destruct Hin as [<-|[]]; done.
Qed.

(** Halting and removing the containers of [todo] one after the other
    leaves only containers that stem from one of the store, with an id
    that is not of [todo]. *)
Lemma sweep_containers (todo : list Container) (d : Docker) c' :
  daemonUp d = true ->
  In c' (containers
           (fold_left (fun d c => Driver.remove (Id c) (Driver.halt (Id c) d)) todo d)) ->
  (exists c, In c (containers d) /\ Id c' = Id c /\ Labels c' = Labels c)
  /\ ~ In (Id c') (List.map Id todo).
Proof.
  revert d. induction todo as [|x todo IH]; intros d Hup Hin; cbn in *.
  - split; [exists c'; done | tauto].
  - apply IH in Hin; [|by rewrite remove_daemonUp, halt_daemonUp].
    destruct Hin as [(c & Hc & Hid & Hl) Hnot].
    unfold Driver.remove in Hc. rewrite halt_daemonUp, Hup in Hc. cbn in Hc.
    apply filter_In in Hc as [Hc Hne].
    unfold Driver.halt in Hc. rewrite Hup in Hc. cbn in Hc.
    apply in_flat_map in Hc as (c0 & Hc0 & Hh).
    apply halted_origin in Hh as [Hid0 Hl0].
    split.
    + exists c0. split; [done|]. split; congruence.
    + intros [Hx|Hx]; [|done].
      rewrite <- Hid, <- Hx, String.eqb_refl in Hne. done.
Qed.

Lemma sweep_daemonUp (todo : list Container) (d : Docker) :
  daemonUp (fold_left (fun d c => Driver.remove (Id c) (Driver.halt (Id c) d)) todo d)
  = daemonUp d.
Proof.
  revert d. induction todo as [|x todo IH]; intros d; cbn; [done|].
  by rewrite IH, remove_daemonUp, halt_daemonUp.
Qed.

Lemma hasLabel_origin c c' kv :
  Labels c' = Labels c -> Driver.hasLabel c' kv = Driver.hasLabel c kv.
Proof. unfold Driver.hasLabel. by intros ->. Qed.

Lemma fallback_clears id s c :
  daemonUp (docker s) = true ->
  In c (containers (docker (fallback id s).1)) -> labelled id c = false.
Proof.
  intros Hup Hin. unfold fallback, Driver.listContainers in Hin.
  rewrite Hup in Hin. cbn in Hin.
  apply sweep_containers in Hin as [(c0 & Hc0 & Hid & Hl) Hnot]; [|done].
  unfold labelled. rewrite (hasLabel_origin c0 c _ Hl).
  destruct (Driver.hasLabel c0 ("adz.runId", id)) eqn:E; [|done].
  exfalso. apply Hnot. rewrite Hid. apply in_map.
  apply filter_In. split; [done|]. cbn. by rewrite E.
Qed.

Lemma existsb_pointwise {A} (f g : A -> bool) (l : list A) :
  (forall x, f x = g x) -> existsb f l = existsb g l.
Proof. intros H. induction l as [|x l IH]; cbn; [done|]. by rewrite H, IH. Qed.

Lemma filter_none {A} (f : A -> bool) (l : list A) :
  (forall x, In x l -> f x = false) -> List.filter f l = [].
Proof.
  induction l as [|x l IH]; cbn; intros H; [done|].
  rewrite (H x) by auto. apply IH. auto.
Qed.

(** C5, as stated, fails: a stop for an id that is neither registered nor
    the label of any container is answered 200 with [removed: false] and
    [fallback: true], not 404. *)
Lemma C5_counterexample :
  stopRun "nobody" Scenario.boot = (Scenario.boot, Fallback false)
  /\ existsb (labelled "nobody") (containers (docker Scenario.boot)) = false
  /\ statusCode (stopRun "nobody" Scenario.boot).2 <> 404.
Proof. repeat split; vm_compute; congruence. Qed.

(** C5, amended: for an id the registry does not hold, while the daemon
    answers, stop replies 200 with [fallback: true] and [removed] telling
    whether a container carried the label; afterwards no container carries
    the label, and a second stop changes nothing and replies 200 with
    [removed: false]. The reply is 404 exactly when listing the containers
    fails, and then nothing changes. *)
Theorem C5_stop_absent s id :
  runsGet s id = None ->
  (daemonUp (docker s) = true ->
     (stopRun id s).2 = Fallback (existsb (labelled id) (containers (docker s)))
     /\ (forall c, In c (containers (docker (stopRun id s).1)) -> labelled id c = false)
     /\ stopRun id (stopRun id s).1 = ((stopRun id s).1, Fallback false))
  /\ (daemonUp (docker s) = false -> stopRun id s = (s, NotFound)).
Proof.
  intros Hg.
  assert (Hst : stopRun id s = fallback id s) by (unfold stopRun; by rewrite Hg).
  rewrite Hst. split.
  - intros Hup. split; [|split].
    + unfold fallback, Driver.listContainers. rewrite Hup.
      cbn [snd]. rewrite ltb_length_filter. f_equal. apply existsb_pointwise.
      intros c. unfold labelled. cbn. by rewrite andb_true_r.
    + intros c. by apply fallback_clears.
    + assert (Hg' : runsGet (fallback id s).1 id = None).
      { unfold fallback. destruct (Driver.listContainers _ _); exact Hg. }
      unfold stopRun. rewrite Hg'.
      pose proof (fun c => fallback_clears id s c Hup) as Hcl.
      clear Hst Hg'.
      unfold fallback, Driver.listContainers in Hcl |- *.
      rewrite Hup in Hcl |- *.
      cbn [fst snd docker withDocker] in Hcl |- *.
      rewrite sweep_daemonUp, Hup.
      rewrite filter_none.
      * cbn. destruct s; reflexivity.
      * intros c Hc. specialize (Hcl c Hc). unfold labelled in Hcl.
        cbn. by rewrite Hcl.
  - intros Hdn. unfold fallback, Driver.listContainers. by rewrite Hdn.
Qed.

Lemma C5_stop_absent_witness :
  (stopRun "r2" Scenario.restarted).2 = Fallback true
  /\ stopRun "r2" (stopRun "r2" Scenario.restarted).1
     = ((stopRun "r2" Scenario.restarted).1, Fallback false).
Proof.
  destruct (C5_stop_absent Scenario.restarted "r2") as [Hup _];
    [vm_compute; reflexivity|].
  destruct Hup as (H1 & _ & H3); [vm_compute; reflexivity|].
  split; [exact H1 | exact H3].
Defined.

(* --------------------------------------------------------------------- *)
(** ** Bulk stop and kill *)
(* --------------------------------------------------------------------- *)

Lemma halted_other cid c : Id c <> cid -> Driver.halted cid c = [c].
Proof.
  intros Hne. unfold Driver.halted.
  destruct (String.eqb_spec (Id c) cid); [done | reflexivity].
Qed.

Lemma halt_remove_keeps cid d c :
  Id c <> cid -> In c (containers d) ->
  In c (containers (Driver.remove cid (Driver.halt cid d))).
Proof.
  intros Hne Hin. unfold Driver.remove, Driver.halt.
  destruct (daemonUp d) eqn:Hup; cbn; [|by rewrite Hup].
  apply filter_In. split.
  - apply in_flat_map. exists c. split; [done|]. rewrite halted_other by done.
    by left.
  - by destruct (String.eqb_spec (Id c) cid).
Qed.

Lemma bulk_keeps w (all : list Container) d n c :
  In c (containers d) ->
  (forall x, In x all -> (isWarm x && negb w = false) -> Id x <> Id c) ->
  In c (containers (fold_left (fun '(d, count) c =>
          let warm := String.eqb (default "" (Labels c !! "adz.warm")) "true" in
          if warm && negb w then (d, count)
          else (Driver.remove (Id c) (Driver.halt (Id c) d), S count))
        all (d, n)).1).
Proof.
  revert d n. induction all as [|x all IH]; intros d n Hin Hne; cbn; [done|].
  destruct (String.eqb (default "" (Labels x !! "adz.warm")) "true" && negb w) eqn:E.
  - apply IH; [done|]. intros y Hy. apply Hne. by right.
  - apply IH.
    + apply halt_remove_keeps; [|done]. intros Heq. eapply (Hne x); [by left| |done].
      exact E.
    + intros y Hy. apply Hne. by right.
Qed.

Lemma NoDup_map_inj {A B} (f : A -> B) (l : list A) x y :
  List.NoDup (List.map f l) -> In x l -> In y l -> f x = f y -> x = y.
Proof.
  induction l as [|a l IH]; cbn; intros Hnd Hx Hy Hf; [done|].
  apply List.NoDup_cons_iff in Hnd as [Hna Hnd].
  destruct Hx as [->|Hx], Hy as [->|Hy]; [done| | |by apply IH].
  - exfalso. apply Hna. rewrite Hf. by apply in_map.
  - exfalso. apply Hna. rewrite <- Hf. by apply in_map.
Qed.

Lemma stopAll_keeps_warm s c :
  daemonUp (docker s) = true ->
  List.NoDup (List.map Id (containers (docker s))) ->
  In c (containers (docker s)) -> isWarm c = true ->
  In c (containers (docker (stopAll false s).1)).
Proof.
  intros Hup Hnd Hin Hw. unfold stopAll, listAdzContainers, Driver.listContainers.
  rewrite Hup. cbn [bind].
  match goal with |- context [bulk false ?l ?d] =>
    pose proof (bulk_keeps false l d 0 c Hin) as Hk;
    unfold bulk; destruct (fold_left _ l (d, 0)) as [d' k] eqn:E end.
  cbn in *. apply Hk. intros x Hx Hxw Heq.
  apply filter_In in Hx as [Hx _]. apply filter_In in Hx as [Hx _].
  assert (x = c) by (eapply NoDup_map_inj; eauto). subst x.
  unfold isWarm in *. rewrite Hw in Hxw. done.
Qed.

Lemma stopAll_done s w :
  statusCode (stopAll w s).2 = 200 ->
  runs (stopAll w s).1 = [] /\ bus (stopAll w s).1 = bus s
  /\ conns (stopAll w s).1 = conns s /\ heap (stopAll w s).1 = heap s.
Proof.
  unfold stopAll. destruct (listAdzContainers (docker s)) as [all|msg]; [|done].
  intros _. destruct (bulk w all (docker s)) as [d k]. cbn. done.
Qed.

Lemma stopAll_up s w :
  daemonUp (docker s) = true -> statusCode (stopAll w s).2 = 200.
Proof.
  intros Hup. unfold stopAll, listAdzContainers, Driver.listContainers.
  rewrite Hup. cbn [bind]. by destruct (bulk w _ (docker s)).
Qed.

Lemma stopAll_down s w :
  daemonUp (docker s) = false -> stopAll w s = (s, Failed "connect ECONNREFUSED").
Proof.
  intros Hdown. unfold stopAll, listAdzContainers, Driver.listContainers.
  by rewrite Hdown.
Qed.

(** C10, as stated, fails: the registry is not emptied unconditionally.
    When the daemon does not answer the listing, stop-all and kill-all
    are answered 400 and the two runs are still registered. *)
Lemma C10_counterexample :
  let s := Scenario.offline (Scenario.run [Scenario.startWarm; Scenario.startFresh]) in
  runs s = ["r1"; "r2"]
  /\ statusCode (stopAll false s).2 = 400 /\ runs (stopAll false s).1 = ["r1"; "r2"]
  /\ statusCode (killAll true s).2 = 400 /\ runs (killAll true s).1 = ["r1"; "r2"]
  /\ runs (stopAll false s).1 <> [].
Proof. vm_compute. repeat split; discriminate. Qed.

(** C10, amended: whenever stop-all or kill-all completes, the registry
    is empty whatever [includeWarm] is, nothing was broadcast, and neither
    a response object nor a run object was touched, so no listener was
    ended.  They complete whenever the daemon answers the listing, and
    without [includeWarm] the warm containers stay in the store.  When
    the daemon does not answer the listing, the request is answered 400
    and nothing changes: the registry keeps its runs. *)
Theorem C10_bulk_clears_registry s w :
  (statusCode (stopAll w s).2 = 200 ->
     runs (stopAll w s).1 = [] /\ bus (stopAll w s).1 = bus s
     /\ conns (stopAll w s).1 = conns s /\ heap (stopAll w s).1 = heap s
     /\ forall id, runsGet (stopAll w s).1 id = None)
  /\ (statusCode (killAll w s).2 = 200 ->
      runs (killAll w s).1 = [] /\ bus (killAll w s).1 = bus s
      /\ conns (killAll w s).1 = conns s /\ heap (killAll w s).1 = heap s
      /\ forall id, runsGet (killAll w s).1 id = None)
  /\ (daemonUp (docker s) = true ->
      statusCode (stopAll w s).2 = 200 /\ statusCode (killAll w s).2 = 200)
  /\ (daemonUp (docker s) = true ->
      List.NoDup (List.map Id (containers (docker s))) ->
      forall c, In c (containers (docker s)) -> isWarm c = true ->
                In c (containers (docker (stopAll false s).1))
                /\ In c (containers (docker (killAll false s).1)))
  /\ (daemonUp (docker s) = false ->
      statusCode (stopAll w s).2 = 400 /\ (stopAll w s).1 = s
      /\ statusCode (killAll w s).2 = 400 /\ (killAll w s).1 = s).
Proof.
  assert (H : statusCode (stopAll w s).2 = 200 ->
     runs (stopAll w s).1 = [] /\ bus (stopAll w s).1 = bus s
     /\ conns (stopAll w s).1 = conns s /\ heap (stopAll w s).1 = heap s
     /\ forall id, runsGet (stopAll w s).1 id = None).
  { intros Hok. destruct (stopAll_done s w Hok) as (Hr & Hb & Hc & Hh).
    repeat split; try done. intros id. unfold runsGet, runsHas. by rewrite Hr. }
  split; [exact H|]. split; [exact H|]. split; [|split].
  - intros Hup. split; by apply stopAll_up.
  - intros Hup Hnd c Hin Hw. change (killAll false s) with (stopAll false s).
    split; by apply stopAll_keeps_warm.
  - intros Hdown. change (killAll w s) with (stopAll w s).
    rewrite (stopAll_down s w Hdown). done.
Qed.

Lemma C10_bulk_clears_registry_witness :
  runs (stopAll false (Scenario.run [Scenario.startWarm; Scenario.startFresh])).1 = []
  /\ bus (stopAll false (Scenario.run [Scenario.startWarm; Scenario.startFresh])).1
     = bus (Scenario.run [Scenario.startWarm; Scenario.startFresh])
  /\ In Scenario.warm
       (containers
          (docker (stopAll false
                     (Scenario.run [Scenario.startWarm; Scenario.startFresh])).1))
  /\ (stopAll true
        (Scenario.offline (Scenario.run [Scenario.startWarm; Scenario.startFresh]))).1
     = Scenario.offline (Scenario.run [Scenario.startWarm; Scenario.startFresh]).
Proof.
  destruct (C10_bulk_clears_registry
              (Scenario.run [Scenario.startWarm; Scenario.startFresh]) false)
    as (H & _ & _ & Hw & _).
  destruct H as (H1 & H2 & _); [vm_compute; reflexivity|].
  split; [exact H1|]. split; [exact H2|]. split.
  - refine (proj1 (Hw _ _ Scenario.warm _ _)).
    + vm_compute. reflexivity.
    + vm_compute. apply List.NoDup_cons; [intros [H|[]]; discriminate H|].
      apply List.NoDup_cons; [intros []|]. apply List.NoDup_nil.
    + vm_compute. tauto.
    + vm_compute. reflexivity.
  - destruct (C10_bulk_clears_registry
                (Scenario.offline (Scenario.run [Scenario.startWarm; Scenario.startFresh]))
                true) as (_ & _ & _ & _ & Hd).
    destruct Hd as (_ & Hd & _); [reflexivity | exact Hd].
Defined.

(* --------------------------------------------------------------------- *)
(** ** Warm-pool lookup *)
(* --------------------------------------------------------------------- *)

Lemma hasLabel_lookup c k v : Driver.hasLabel c (k, v) = true -> Labels c !! k = Some v.
Proof.
  unfold Driver.hasLabel. cbn. destruct (Labels c !! k) as [v'|]; [|done].
  intros H. apply String.eqb_eq in H. by subst.
Qed.

Lemma findWarm_found d m c :
  findWarmContainer d m = Ok (Some c) ->
  In c (containers d) /\ State c = "running"
  /\ Forall (fun kv => Labels c !! kv.1 = Some kv.2) (labelsForWarm m).
Proof.
  unfold findWarmContainer, Driver.listContainers.
  destruct (daemonUp d); [|done]. cbn [bind]. intros H.
  injection H as H. apply List.find_some in H as [Hin Hst].
  apply filter_In in Hin as [Hin Hl].
  split; [done|]. split; [by apply String.eqb_eq|].
  rewrite !andb_true_iff in Hl. destruct Hl as (? & ? & ? & ? & ? & ? & _).
  unfold labelsForWarm. repeat constructor; by apply hasLabel_lookup.
Qed.

(** C8, as stated, fails: the labels are compared as the strings the
    requests carry. A warm container made for [/ws/a] is found by a request
    for [/ws/a] and not by one for [/ws/a/], which names the same
    directory. *)
Lemma C8_counterexample :
  Path.resolve "/srv" "/ws/a/" = Path.resolve "/srv" "/ws/a"
  /\ findWarmContainer Scenario.daemon (mkMount "codex" "/ws/a" "/cr/a" true None)
     = Ok (Some Scenario.warm)
  /\ findWarmContainer Scenario.daemon (mkMount "codex" "/ws/a/" "/cr/a" true None)
     = Ok None.
Proof. repeat split; vm_compute; reflexivity. Qed.

(** C8, amended: the lookup compares the fields as they are given, without
    normalizing a path: [readOnly] by its truth value and a missing
    [uidgid] as the empty string. Requests equal in this sense get the same
    answer; a container that is found runs and carries the six labels of
    the request; and two requests that find the same container are equal
    in this sense. *)
Theorem C8_find_compares_given_fields d m1 m2 :
  (m_engine m1 = m_engine m2 -> m_workspace m1 = m_workspace m2 ->
   m_creds m1 = m_creds m2 -> m_readOnly m1 = m_readOnly m2 ->
   default "" (m_uidgid m1) = default "" (m_uidgid m2) ->
   findWarmContainer d m1 = findWarmContainer d m2)
  /\ (forall c, findWarmContainer d m1 = Ok (Some c) ->
        In c (containers d) /\ State c = "running"
        /\ Labels c !! "adz.warm" = Some "true"
        /\ Labels c !! "adz.engine" = Some (m_engine m1)
        /\ Labels c !! "adz.workspace" = Some (m_workspace m1)
        /\ Labels c !! "adz.creds" = Some (m_creds m1)
        /\ Labels c !! "adz.readonly" = Some (if m_readOnly m1 then "1" else "0")
        /\ Labels c !! "adz.uidgid" = Some (default "" (m_uidgid m1)))
  /\ (forall c, findWarmContainer d m1 = Ok (Some c) ->
        findWarmContainer d m2 = Ok (Some c) ->
        m_engine m1 = m_engine m2 /\ m_workspace m1 = m_workspace m2
        /\ m_creds m1 = m_creds m2 /\ m_readOnly m1 = m_readOnly m2
        /\ default "" (m_uidgid m1) = default "" (m_uidgid m2)).
Proof.
  assert (Hlab : forall m c, findWarmContainer d m = Ok (Some c) ->
        In c (containers d) /\ State c = "running"
        /\ Labels c !! "adz.warm" = Some "true"
        /\ Labels c !! "adz.engine" = Some (m_engine m)
        /\ Labels c !! "adz.workspace" = Some (m_workspace m)
        /\ Labels c !! "adz.creds" = Some (m_creds m)
        /\ Labels c !! "adz.readonly" = Some (if m_readOnly m then "1" else "0")
        /\ Labels c !! "adz.uidgid" = Some (default "" (m_uidgid m))).
  { intros m c H. apply findWarm_found in H as (Hin & Hst & Hl).
    unfold labelsForWarm in Hl.
    repeat (apply Forall_cons in Hl as [? Hl]). cbn in *. done. }
  split; [|split].
  - intros He Hw Hc Hr Hu. unfold findWarmContainer, labelsForWarm.
    by rewrite He, Hw, Hc, Hr, Hu.
  - apply Hlab.
  - intros c H1 H2.
    apply Hlab in H1 as (_ & _ & _ & E1 & W1 & C1 & R1 & U1).
    apply Hlab in H2 as (_ & _ & _ & E2 & W2 & C2 & R2 & U2).
    repeat split; try congruence.
    rewrite R1 in R2. destruct (m_readOnly m1), (m_readOnly m2); done.
Qed.

Lemma C8_find_compares_given_fields_witness :
  findWarmContainer Scenario.daemon (mkMount "codex" "/ws/a" "/cr/a" true None)
  = findWarmContainer Scenario.daemon (mkMount "codex" "/ws/a" "/cr/a" true (Some "")).
Proof.
  apply (C8_find_compares_given_fields Scenario.daemon
           (mkMount "codex" "/ws/a" "/cr/a" true None)
           (mkMount "codex" "/ws/a" "/cr/a" true (Some ""))); reflexivity.
Defined.

(* --------------------------------------------------------------------- *)
(** ** Readiness *)
(* --------------------------------------------------------------------- *)

Lemma truthy_spec v : Str.truthy v = true <-> v <> "".
Proof.
  unfold Str.truthy. destruct (String.eqb_spec v ""); cbn; split; congruence.
Qed.

Lemma has_spec env found k : (Creds.has env found k).2 = true <-> keySet env k.
Proof.
  unfold Creds.has, keySet. cbn. rewrite truthy_spec. split.
  - destruct (env !! k) as [v|]; cbn; [eauto | done].
  - intros (v & -> & Hv). done.
Qed.

Lemma dirNonEmpty_spec f credsPath sub :
  Creds.dirNonEmpty f (Path.join credsPath sub) = true <-> subdirNonEmpty f credsPath sub.
Proof.
  unfold Creds.dirNonEmpty, subdirNonEmpty.
  destruct (dirents f !! Path.join credsPath sub) as [ent|]; split.
  - intros H. exists ent. split; [done|]. intros ->. done.
  - intros (e & [= <-] & Hne). by destruct ent.
  - done.
  - intros (e & ? & _). done.
Qed.

Lemma isEngine_cases e :
  isEngine e = true -> e = "codex" \/ e = "gemini" \/ e = "opencode".
Proof.
  unfold isEngine, ENGINES. cbn. rewrite !orb_true_iff, !String.eqb_eq.
  intuition discriminate.
Qed.

(** C7: for a valid engine and an allowed credentials directory
    [checkReadiness] returns, and its [ready] follows the rule of the
    engine, where a key is set when its value in the [.env] file is not
    empty. *)
Theorem C7_readiness_rules cwd roots f eng credsPath :
  isEngine eng = true -> isAllowed cwd credsPath roots = true ->
  let env := Creds.readCredsEnv f credsPath in
  exists r, Creds.checkReadiness cwd roots f eng credsPath = Ok (r, env)
    /\ Creds.r_engine r = eng
    /\ (eng = "codex" ->
        (Creds.ready r = true <->
         keySet env "OPENAI_API_KEY" \/ subdirNonEmpty f credsPath "codex"))
    /\ (eng = "gemini" ->
        (Creds.ready r = true <->
         keySet env "GEMINI_API_KEY" \/ subdirNonEmpty f credsPath "gemini"
         \/ subdirNonEmpty f credsPath "gcloud"))
    /\ (eng = "opencode" ->
        (Creds.ready r = true <->
         (keySet env "OPENAI_API_KEY" \/ keySet env "ANTHROPIC_API_KEY"
          \/ keySet env "GEMINI_API_KEY")
         \/ subdirNonEmpty f credsPath "opencode")).
Proof.
  intros He Ha env. unfold Creds.checkReadiness. rewrite He, Ha. cbn [guard bind].
  fold env.
  pose proof (has_spec env [] "OPENAI_API_KEY") as Hopen.
  pose proof (has_spec env [] "GEMINI_API_KEY") as Hgem.
  pose proof (fun fnd => has_spec env fnd "ANTHROPIC_API_KEY") as Hanth.
  pose proof (fun fnd => has_spec env fnd "GEMINI_API_KEY") as Hgem'.
  pose proof (dirNonEmpty_spec f credsPath) as Hdir.
  apply isEngine_cases in He as [-> | [-> | ->]]; cbn [String.eqb Ascii.eqb Bool.eqb].
  - eexists. split; [reflexivity|]. cbn. split; [done|].
    split; [intros _ | split; intros [=]].
    rewrite orb_true_iff, <- Hopen, <- Hdir. done.
  - eexists. split; [reflexivity|]. cbn. split; [done|].
    split; [intros [=] | split; [intros _ | intros [=]]].
    rewrite !orb_true_iff, <- Hgem, <- !Hdir. cbn. tauto.
  - destruct (Creds.has env [] "OPENAI_API_KEY") as [ks a] eqn:E1. cbn in Hopen.
    destruct a.
    + eexists. split; [reflexivity|]. cbn. split; [done|].
      split; [intros [=] | split; [intros [=] | intros _]].
      split; [|done]. intros _. left. left. by apply Hopen.
    + destruct (Creds.has env ks "ANTHROPIC_API_KEY") as [ks' b] eqn:E2.
      specialize (Hanth ks). rewrite E2 in Hanth. cbn in Hanth.
      destruct b.
      * eexists. split; [reflexivity|]. cbn. split; [done|].
        split; [intros [=] | split; [intros [=] | intros _]].
        split; [|done]. intros _. left. right. left. by apply Hanth.
      * destruct (Creds.has env ks' "GEMINI_API_KEY") as [ks'' c] eqn:E3.
        specialize (Hgem' ks'). rewrite E3 in Hgem'. cbn in Hgem'.
        eexists. split; [reflexivity|]. cbn. split; [done|].
        split; [intros [=] | split; [intros [=] | intros _]].
        rewrite orb_true_iff, <- Hdir, Hgem'.
        destruct Hopen as [_ Ho], Hanth as [_ Han].
        split; [tauto|]. intros [[?|[?|?]]|?]; auto.
        -- by specialize (Ho ltac:(done)).
        -- by specialize (Han ltac:(done)).
Qed.

Lemma C7_readiness_rules_witness :
  exists r,
    Creds.checkReadiness "/srv" ["/cr"] Scenario.pocket "codex" "/cr/a"
    = Ok (r, Creds.readCredsEnv Scenario.pocket "/cr/a")
    /\ Creds.ready r = true.
Proof.
  destruct (C7_readiness_rules "/srv" ["/cr"] Scenario.pocket "codex" "/cr/a")
    as (r & Hr & _ & Hcodex & _); [reflexivity | reflexivity |].
  exists r. split; [exact Hr|].
  apply Hcodex; [reflexivity|]. left. exists "sk-1". split; [|discriminate].
  vm_compute. reflexivity.
Defined.

Example readiness_gemini :
  (fun r => (Creds.ready r, Creds.envKeys r, Creds.dirs r, Creds.vertexPossible r))
    <$> (match Creds.checkReadiness "/srv" ["/cr"] Scenario.pocket "gemini" "/cr/a" with
         | Ok (r, _) => Some r
         | Throw _ => None
         end)
  = Some (true, [], [("gemini", true); ("gcloud", false)], Some false).
Proof. vm_compute. reflexivity. Qed.

Example readiness_empty_key :
  (fun r => (Creds.ready r, Creds.envKeys r))
    <$> (match Creds.checkReadiness "/srv" ["/cr"]
                 (mkFS {[ "/cr/a/.env" := "OPENAI_API_KEY=" +:+ NL ]} ∅)
                 "codex" "/cr/a" with
         | Ok (r, _) => Some r
         | Throw _ => None
         end)
  = Some (false, []).
Proof. vm_compute. reflexivity. Qed.

(* --------------------------------------------------------------------- *)
(** ** Path guard *)
(* --------------------------------------------------------------------- *)

Lemma stripCommon_spec f t f' t' :
  Path.stripCommon f t = (f', t') -> exists c, f = c ++ f' /\ t = c ++ t'.
Proof.
  revert t. induction f as [|x f IH]; intros t H; cbn in H.
  - injection H as <- <-. by exists [].
  - destruct t as [|y t]; [injection H as <- <-; by exists []|].
    destruct (String.eqb_spec x y) as [->|Hne].
    + apply IH in H as (c & -> & ->). by exists (y :: c).
    + injection H as <- <-. by exists [].
Qed.

Lemma join_dotdot_prefix (l : list string) :
  Str.startsWith (Str.join "/" (".." :: l)) ".." = true.
Proof. destruct l; reflexivity. Qed.

(** What the guard accepts is a root, or lies strictly below one. *)
Lemma isAllowed_sound cwd p roots :
  isAllowed cwd p roots = true ->
  exists root, In root roots
    /\ (Path.resolve cwd p = root \/ strictDescendant cwd (Path.resolve cwd p) root).
Proof.
  unfold isAllowed. intros H. apply existsb_exists in H as (root & Hin & H).
  exists root. split; [done|].
  apply orb_true_iff in H as [H|H]; [left; by apply String.eqb_eq|right].
  unfold isSubPath, Path.relative in H.
  destruct (Path.stripCommon _ _) as [f t] eqn:E.
  apply stripCommon_spec in E as (c & Hf & Ht).
  apply andb_true_iff in H as [H _]. apply andb_true_iff in H as [Htr Hdd].
  destruct f as [|x f].
  - exists t. split.
    + intros ->. cbn in Htr. done.
    + rewrite Hf, Ht. by rewrite app_nil_r.
  - cbn [List.map app] in Hdd. by rewrite join_dotdot_prefix in Hdd.
Qed.

(** C4, the failing input: [/a/b/..c] is absolute, normalized, and a strict
    descendant of the root [/a/b]; the guard rejects it, because the
    relative path [..c] begins with two dots. The sibling [/a/bc] is
    rejected as the claim says. *)
Theorem C4_descendant_rejected :
  isAllowed "/srv" "/a/b/..c" ["/a/b"] = false
  /\ Path.resolve "/srv" "/a/b/..c" = "/a/b/..c"
  /\ Path.isAbsolute (Path.resolve "/srv" "/a/b/..c") = true
  /\ strictDescendant "/srv" "/a/b/..c" "/a/b"
  /\ Path.relative "/srv" "/a/b" "/a/b/..c" = "..c"
  /\ isAllowed "/srv" "/a/bc" ["/a/b"] = false.
Proof.
  repeat split; try reflexivity.
  exists ["..c"]. split; [discriminate | reflexivity].
Qed.

(* --------------------------------------------------------------------- *)
(** ** Facts on strings *)
(* --------------------------------------------------------------------- *)

Module StrFacts.

Import Str.

#[local] Arguments String.append !_ _ / : simpl nomatch.

Lemma app_nil_r s : s +:+ "" = s.
Proof. induction s as [|c s IH]; simpl; [done | by rewrite IH]. Qed.

Lemma app_assoc a b c : (a +:+ b) +:+ c = a +:+ (b +:+ c).
Proof. induction a as [|x a IH]; simpl; [done | by rewrite IH]. Qed.

Lemma length_app a b : String.length (a +:+ b) = String.length a + String.length b.
Proof. induction a as [|x a IH]; simpl; [done | by rewrite IH]. Qed.

Lemma rev_acc_spec s acc : rev_acc s acc = rev s +:+ acc.
Proof.
  unfold rev. revert acc. induction s as [|c s IH]; intros acc; cbn; [done|].
  rewrite (IH (String c "")), (IH (String c acc)), app_assoc. done.
Qed.

Lemma rev_cons c s : rev (String c s) = rev s +:+ String c "".
Proof. unfold rev at 1. cbn. apply rev_acc_spec. Qed.

Lemma rev_app a b : rev (a +:+ b) = rev b +:+ rev a.
Proof.
  induction a as [|x a IH].
  - change (rev b = rev b +:+ ""). by rewrite app_nil_r.
  - change (String x a +:+ b) with (String x (a +:+ b)).
    by rewrite !rev_cons, IH, app_assoc.
Qed.

Lemma rev_involutive s : rev (rev s) = s.
Proof.
  induction s as [|c s IH]; [done|]. by rewrite rev_cons, rev_app, IH.
Qed.

Lemma length_rev s : String.length (rev s) = String.length s.
Proof.
  induction s as [|c s IH]; [done|]. rewrite rev_cons, length_app, IH. cbn. lia.
Qed.

Lemma all_app P a b : all P (a +:+ b) = all P a && all P b.
Proof. induction a as [|x a IH]; cbn; [done | by rewrite IH, andb_assoc]. Qed.

Lemma all_rev P s : all P (rev s) = all P s.
Proof.
  induction s as [|c s IH]; [done|].
  rewrite rev_cons, all_app, IH. cbn. by rewrite andb_true_r, andb_comm.
Qed.

Lemma all_take P n s : all P s = true -> all P (take n s) = true.
Proof.
  revert n. induction s as [|c s IH]; intros [|n]; cbn; try done.
  intros [-> H]%andb_true_iff. by apply IH.
Qed.

Lemma all_drop P n s : all P s = true -> all P (drop n s) = true.
Proof.
  revert n. induction s as [|c s IH]; intros [|n]; cbn; try done.
  intros [_ H]%andb_true_iff. by apply IH.
Qed.

Lemma all_trimStart P s : all P s = true -> all P (trimStart s) = true.
Proof.
  induction s as [|c s IH]; cbn; [done|]. intros H.
  destruct (is_ws c); [|done]. apply andb_true_iff in H as [_ H]. by apply IH.
Qed.

Lemma all_trimEnd P s : all P s = true -> all P (trimEnd s) = true.
Proof.
  intros H. unfold trimEnd. rewrite all_rev. apply all_trimStart.
  by rewrite all_rev.
Qed.

Lemma all_trim P s : all P s = true -> all P (trim s) = true.
Proof. intros H. by apply all_trimEnd, all_trimStart. Qed.

Lemma take_drop n s : take n s +:+ drop n s = s.
Proof.
  revert n. induction s as [|c s IH]; intros [|n]; cbn; try done.
  by rewrite IH.
Qed.

Lemma take_app a b : take (String.length a) (a +:+ b) = a.
Proof. induction a as [|x a IH]; cbn; [by destruct b | by rewrite IH]. Qed.

Lemma drop_app a b : drop (String.length a) (a +:+ b) = b.
Proof. induction a as [|x a IH]; cbn; done. Qed.

Lemma take_all n s : String.length s <= n -> take n s = s.
Proof.
  revert n. induction s as [|c s IH]; intros [|n]; cbn; try done; try lia.
  intros H. rewrite IH; [done | lia].
Qed.

Lemma length_drop n s : String.length (drop n s) = String.length s - n.
Proof. revert n. induction s as [|c s IH]; intros [|n]; cbn; done. Qed.

Lemma indexOf_free c s : indexOf c s = None <-> free c s = true.
Proof.
  unfold free. induction s as [|d s IH]; cbn; [done|].
  destruct (Ascii.eqb d c); cbn; [done|].
  rewrite <- IH. by destruct (indexOf c s).
Qed.

Lemma indexOf_app c a b :
  free c a = true -> indexOf c (a +:+ String c b) = Some (String.length a).
Proof.
  unfold free. induction a as [|d a IH]; cbn.
  - by rewrite Ascii.eqb_refl.
  - intros [Hd Ha]%andb_true_iff. apply negb_true_iff in Hd. rewrite Hd.
    by rewrite IH.
Qed.

Lemma indexOf_take c s n :
  indexOf c s = Some n -> free c (take n s) = true.
Proof.
  unfold free. revert n. induction s as [|d s IH]; intros n; cbn; [done|].
  destruct (Ascii.eqb d c) eqn:E; [by intros [= <-]|].
  destruct (indexOf c s) as [m|]; [|done]. intros [= <-]. cbn.
  rewrite E. cbn. by apply IH.
Qed.

Lemma trimStart_idem s : trimStart (trimStart s) = trimStart s.
Proof.
  induction s as [|c s IH]; cbn; [done|].
  destruct (is_ws c) eqn:E; [done|]. cbn. by rewrite E.
Qed.

Lemma trimStart_app c a b :
  is_ws c = false -> trimStart (a +:+ String c b) = trimStart a +:+ String c b.
Proof.
  intros Hc. induction a as [|d a IH]; cbn; [by rewrite Hc|].
  by destruct (is_ws d).
Qed.

Lemma trimEnd_idem s : trimEnd (trimEnd s) = trimEnd s.
Proof. unfold trimEnd. by rewrite rev_involutive, trimStart_idem. Qed.

(** The string cut by [trimStart] is a suffix. *)
Lemma trimStart_suffix s : exists w, s = w +:+ trimStart s.
Proof.
  induction s as [|c s [w IH]]; cbn; [by exists ""|].
  destruct (is_ws c); [|by exists ""].
  exists (String c w). cbn. by rewrite <- IH.
Qed.

(** The string cut by [trimEnd] is a prefix. *)
Lemma trimEnd_prefix s : exists w, s = trimEnd s +:+ w.
Proof.
  destruct (trimStart_suffix (rev s)) as [w Hw].
  exists (rev w). unfold trimEnd.
  rewrite <- rev_app, <- Hw. by rewrite rev_involutive.
Qed.

Lemma noLead_prefix a b : noLead (a +:+ b) -> a <> "" -> noLead a.
Proof.
  unfold noLead. destruct a as [|c a]; [done|]. cbn.
  destruct (is_ws c) eqn:E; [|done]. intros H _. exfalso.
  pose proof (trimStart_suffix (a +:+ b)) as [w Hw].
  assert (Hl : String.length (trimStart (a +:+ b)) = S (String.length (a +:+ b)))
    by (rewrite H; done).
  rewrite Hw in Hl at 2. rewrite length_app in Hl. lia.
Qed.

Lemma noLead_nil : noLead "".
Proof. done. Qed.

Lemma noLead_trimEnd s : noLead s -> noLead (trimEnd s).
Proof.
  intros H. destruct (trimEnd_prefix s) as [w Hw].
  destruct (trimEnd s) as [|c t] eqn:E; [apply noLead_nil|].
  rewrite Hw in H. eapply noLead_prefix; [exact H | done].
Qed.

Lemma noLead_trimStart s : noLead (trimStart s).
Proof. apply trimStart_idem. Qed.

Lemma trimEnd_app c a b :
  is_ws c = false -> trimEnd (a +:+ String c b) = a +:+ String c (trimEnd b).
Proof.
  intros Hc. unfold trimEnd.
  rewrite rev_app, rev_cons, app_assoc.
  change (String c "" +:+ rev a) with (String c (rev a)).
  rewrite trimStart_app by done.
  rewrite rev_app, rev_cons, rev_involutive, app_assoc. reflexivity.
Qed.

Lemma startsWith_prefix a b p :
  startsWith a p = true -> startsWith (a +:+ b) p = true.
Proof.
  unfold startsWith. revert a. induction p as [|c p IH]; intros a; cbn.
  - by destruct (a +:+ b).
  - destruct a as [|d a]; [done|]. cbn.
    destruct (ascii_dec c d); [apply IH | done].
Qed.

End StrFacts.

(* --------------------------------------------------------------------- *)
(** ** Log frames *)
(* --------------------------------------------------------------------- *)

Module SSEFacts.

Import Str StrFacts SSE.

#[local] Arguments String.append !_ _ / : simpl nomatch.

Lemma rev_rev_acc s cur : rev (rev_acc s cur) = rev cur +:+ s.
Proof. by rewrite rev_acc_spec, rev_app, rev_involutive. Qed.

Lemma lines_plain s cur rest :
  plain s = true ->
  SSE.lines (s +:+ String LF rest) cur = (rev cur +:+ s) :: SSE.lines rest "".
Proof.
  revert cur. induction s as [|c s IH]; intros cur Hp.
  - simpl. rewrite ?Ascii.eqb_refl. by rewrite ?app_nil_r.
  - simpl in Hp. apply andb_true_iff in Hp as [Hc Hs].
    unfold plainChar in Hc. apply andb_true_iff in Hc as [Hlf Hcr].
    apply negb_true_iff in Hlf, Hcr.
    simpl. rewrite Hlf, Hcr, IH by done.
    by rewrite rev_cons, app_assoc.
Qed.

Lemma digit_plain n : plainChar (Base64.digit n) = true.
Proof.
  unfold Base64.digit, Base64.alphabet.
  do 65 (destruct n as [|n]; [reflexivity|]). reflexivity.
Qed.

Lemma encode_plain_le n : forall s, String.length s <= n -> plain (Base64.encode s) = true.
Proof.
  induction n as [|n IH]; intros s Hl.
  - destruct s; [reflexivity | simpl in Hl; lia].
  - destruct s as [|a [|b [|c rest]]]; try reflexivity.
    + cbn [Base64.encode plain all]. by rewrite !digit_plain.
    + cbn [Base64.encode plain all]. by rewrite !digit_plain.
    + cbn [Base64.encode plain all]. rewrite !digit_plain. cbn [andb].
      apply IH. simpl in Hl. lia.
Qed.

Lemma encode_plain s : plain (Base64.encode s) = true.
Proof. by apply (encode_plain_le (String.length s)). Qed.

Lemma prefix_nil s : String.prefix "" s = true.
Proof. by destruct s. Qed.

(** The three writes of a chunk are two frames. *)
Lemma chunk_frames b64 :
  plain b64 = true ->
  SSE.frames [ "event: chunk" +:+ NL;
               "data: " +:+ b64 +:+ NL +:+ NL;
               "data: b64:" +:+ b64 +:+ NL +:+ NL ]
  = [ SSE.mkFrame "chunk" [b64]; SSE.mkFrame "message" ["b64:" +:+ b64] ].
Proof.
  intros Hp. unfold SSE.frames, NL. simpl.
  rewrite app_assoc. simpl. rewrite lines_plain by done. simpl.
  unfold startsWith. simpl.
  rewrite app_nil_r, lines_plain by done. simpl.
  by rewrite prefix_nil.
Qed.

Lemma resWrite_open chunk r :
  ended r = false -> resWrite chunk r = mkRes (written r ++ [chunk]) false.
Proof. unfold resWrite. by intros ->. Qed.

Lemma writes_open (f : string -> string) (l : list string) r :
  ended r = false ->
  fold_left (fun r ln => resWrite (f ln) r) l r
  = mkRes (written r ++ List.map f l) false.
Proof.
  revert r. induction l as [|x l IH]; intros r Hr; simpl.
  - rewrite List.app_nil_r. destruct r; simpl in *. by subst.
  - rewrite IH by (by rewrite resWrite_open). rewrite resWrite_open by done.
    simpl. by rewrite <- List.app_assoc.
Qed.

Lemma sseSend_open data r :
  ended r = false ->
  sseSend data r
  = mkRes (written r ++ List.map (fun ln => "data: " +:+ ln +:+ NL) (split LF data)
             ++ [NL]) false.
Proof.
  intros Hr. unfold sseSend. rewrite writes_open by done.
  rewrite resWrite_open by done. simpl. by rewrite <- List.app_assoc.
Qed.

Lemma sendChunk_open chunk r :
  ended r = false ->
  sendChunk chunk r
  = mkRes (written r ++ [ "event: chunk" +:+ NL;
                          "data: " +:+ Base64.encode chunk +:+ NL +:+ NL;
                          "data: b64:" +:+ Base64.encode chunk +:+ NL +:+ NL ])
      false.
Proof.
  intros Hr. unfold sendChunk. rewrite (resWrite_open _ r) by done.
  rewrite resWrite_open by done. rewrite resWrite_open by done.
  cbn [written]. by rewrite <- !List.app_assoc.
Qed.

Lemma alter_each_other (f : Res -> Res) (ls : list nat) (c : gmap nat Res) l :
  ~ In l ls -> fold_left (fun c l => alter f l c) ls c !! l = c !! l.
Proof.
  revert c. induction ls as [|x ls IH]; intros c Hn; simpl; [done|].
  rewrite IH by (intros ?; apply Hn; by right).
  apply lookup_alter_ne. intros ->. apply Hn. by left.
Qed.

Lemma alter_each_once (f : Res -> Res) (ls : list nat) (c : gmap nat Res) l :
  List.NoDup ls -> In l ls ->
  fold_left (fun c l => alter f l c) ls c !! l = f <$> c !! l.
Proof.
  revert c. induction ls as [|x ls IH]; intros c Hnd Hin; [done|].
  apply List.NoDup_cons_iff in Hnd as [Hx Hnd]. simpl.
  destruct Hin as [->|Hin].
  - rewrite alter_each_other by done. apply lookup_alter_eq.
  - rewrite IH by done. rewrite lookup_alter_ne; [done|].
    intros ->. done.
Qed.

Lemma broadcast_all_conns (es : list Event) s :
  conns (fold_left (fun s e => eventsBroadcast e s) es s) = conns s.
Proof. revert s. induction es as [|e es IH]; intros s; simpl; [done|]. by rewrite IH. Qed.

Lemma tail_spec content :
  String.length (tail content) = Nat.min (String.length content) TAIL_MAX
  /\ content = take (String.length content - String.length (tail content)) content
               +:+ tail content.
Proof.
  unfold tail. generalize TAIL_MAX. intros m.
  set (size := Nat.min (String.length content) m).
  assert (Hd : String.length (drop (String.length content - size) content) = size)
    by (rewrite length_drop; lia).
  rewrite take_all by lia. rewrite Hd. split; [done|].
  by rewrite take_drop.
Qed.

Lemma concat_cons (w : string) (ws : list string) :
  fold_right String.append "" (w :: ws) = w +:+ fold_right String.append "" ws.
Proof. reflexivity. Qed.

Lemma data_lines (ls : list string) rest :
  Forall (fun l => plain l = true) ls ->
  lines (fold_right String.append ""
           (List.map (fun ln => "data: " +:+ ln +:+ NL) ls) +:+ rest) ""
  = List.map (fun ln => "data: " +:+ ln) ls ++ lines rest "".
Proof.
induction ls as [|l ls IH]; intros Hf; [done|].
apply Forall_cons in Hf as [Hl Hf]. cbn [List.map]. rewrite concat_cons.
rewrite !app_assoc. unfold NL at 1.
change (String LF "" +:+ ?x) with (String LF x).
rewrite <- (app_assoc "data: " l). 
rewrite lines_plain.
- rewrite IH by done. reflexivity.
- unfold plain in *. rewrite all_app, Hl. reflexivity.
Qed.

Lemma dispatch_data (ls : list string) ev data :
  dispatch (List.map (fun ln => "data: " +:+ ln) ls ++ [""]) ev data
  = match List.rev data ++ ls with
    | [] => []
    | d => [mkFrame (default "message" ev) d]
    end.
Proof.
revert data. induction ls as [|l ls IH]; intros data.
- simpl. rewrite List.app_nil_r. destruct data as [|d data]; [done|].
  simpl. by destruct (List.rev data ++ [d]) eqn:E; [destruct (List.rev data)|].
- cbn [List.map app]. 
  assert (Hstep : forall r, dispatch (("data: " +:+ l) :: r) ev data
                             = dispatch r ev (l :: data)).
  { intros r. simpl. unfold startsWith. simpl. by rewrite prefix_nil. }
  rewrite Hstep, IH. simpl. by rewrite <- List.app_assoc.
Qed.
Lemma concat_app (a b : list string) :
  fold_right String.append "" (a ++ b)
  = fold_right String.append "" a +:+ fold_right String.append "" b.
Proof.
induction a as [|x a IH]; [done|]. cbn [app fold_right]. by rewrite IH, app_assoc.
Qed.

Lemma split_plain s :
  free CR s = true -> Forall (fun l => plain l = true) (split LF s).
Proof.
unfold free, plain. induction s as [|d s IH]; simpl; [by repeat constructor|].
intros [Hd Hs]%andb_true_iff. specialize (IH Hs).
destruct (Ascii.eqb d LF) eqn:E; [by constructor|].
assert (Hp : plainChar d = true) by (unfold plainChar; by rewrite E, Hd).
destruct (split LF s) as [|x xs]; [by repeat constructor; simpl; rewrite Hp|].
apply Forall_cons in IH as [Hx Hxs]. constructor; [|done]. simpl. by rewrite Hp.
Qed.

Lemma split_nonempty c s : split c s <> [].
Proof.
destruct s as [|d s]; simpl; [done|].
destruct (Ascii.eqb d c); [done|]. by destruct (split c s).
Qed.

(** What [sseSend] writes for a text without carriage returns is one
    unnamed frame, with the lines of the text as its data. *)
Lemma sseSend_frames text :
  free CR text = true ->
  frames (List.map (fun ln => "data: " +:+ ln +:+ NL) (split LF text) ++ [NL])
  = [mkFrame "message" (split LF text)].
Proof.
intros Hcr. unfold frames. rewrite concat_app.
change (fold_right String.append "" [NL]) with NL.
rewrite data_lines by (by apply split_plain).
change (lines NL "") with [""]. rewrite dispatch_data. simpl.
pose proof (split_nonempty LF text). by destruct (split LF text).
Qed.

(** A carriage return directly before a line feed ends the line with it. *)
Lemma lines_crlf s cur rest :
  plain s = true ->
  SSE.lines (s +:+ String CR (String LF rest)) cur = (rev cur +:+ s) :: SSE.lines rest "".
Proof.
  revert cur. induction s as [|c s IH]; intros cur Hp.
  - simpl. by rewrite ?app_nil_r.
  - simpl in Hp. apply andb_true_iff in Hp as [Hc Hs].
    unfold plainChar in Hc. apply andb_true_iff in Hc as [Hlf Hcr].
    apply negb_true_iff in Hlf, Hcr.
    simpl. rewrite Hlf, Hcr, IH by done.
    by rewrite rev_cons, app_assoc.
Qed.

Lemma chopCR_tail s : chopCR s = s \/ s = chopCR s +:+ String CR "".
Proof.
unfold chopCR. destruct (rev s) as [|c r] eqn:E; [by left|].
destruct (Ascii.eqb_spec c CR) as [->|]; [|by left].
right. rewrite <- (rev_involutive s), E. by rewrite rev_cons.
Qed.

Lemma data_lines_cr (ls : list string) rest :
  Forall (fun l => plain (chopCR l) = true) ls ->
  lines (fold_right String.append ""
           (List.map (fun ln => "data: " +:+ ln +:+ NL) ls) +:+ rest) ""
  = List.map (fun ln => "data: " +:+ chopCR ln) ls ++ lines rest "".
Proof.
induction ls as [|l ls IH]; intros Hf; [done|].
apply Forall_cons in Hf as [Hl Hf]. cbn [List.map]. rewrite concat_cons.
specialize (IH Hf).
assert (Hd : plain ("data: " +:+ chopCR l) = true)
  by (unfold plain in *; by rewrite all_app, Hl).
destruct (chopCR_tail l) as [E|E]; set (p := chopCR l) in *.
- rewrite <- E. rewrite !app_assoc. unfold NL at 1.
  change (String LF "" +:+ ?x) with (String LF x).
  rewrite <- (app_assoc "data: " p). rewrite lines_plain by done.
  by rewrite IH.
- rewrite E. rewrite !app_assoc. unfold NL at 1.
  change (String CR "" +:+ (String LF "" +:+ ?x)) with (String CR (String LF x)).
  rewrite <- (app_assoc "data: " p). rewrite lines_crlf by done.
  by rewrite IH.
Qed.

(** What [sseSend] writes for a text whose carriage returns all stand
    directly before a line feed, or at its end, is one unnamed frame: the
    lines of the text, without these carriage returns. *)
Lemma sseSend_frames_crlf text :
  Forall (fun l => plain (chopCR l) = true) (split LF text) ->
  frames (List.map (fun ln => "data: " +:+ ln +:+ NL) (split LF text) ++ [NL])
  = [mkFrame "message" (List.map chopCR (split LF text))].
Proof.
intros Hcr. unfold frames. rewrite concat_app.
change (fold_right String.append "" [NL]) with NL.
rewrite data_lines_cr by done.
change (lines NL "") with [""].
replace (List.map (fun ln => "data: " +:+ chopCR ln) (split LF text))
  with (List.map (fun ln => "data: " +:+ ln) (List.map chopCR (split LF text)))
  by (by rewrite List.map_map).
rewrite dispatch_data. cbn [List.rev app default].
pose proof (split_nonempty LF text). by destruct (split LF text).
Qed.

End SSEFacts.

Example TAIL_MAX_value : N.of_nat TAIL_MAX = 65536%N.
Proof. vm_compute. reflexivity. Qed.

(** C9, as stated, fails: a follower that attaches after the run has
    written [hello], and then sees the chunk [hi], receives three frames.
    The tail is an unnamed frame with the text itself, and the chunk makes
    two frames, the second unnamed with the payload prefixed by [b64:]. *)
Lemma C9_counterexample :
  SSE.frames <$>
    (written <$>
       conns (Scenario.run [Scenario.startWarm; AData "r1" "hello" 1001;
                            ALogs "r1" true 7; AData "r1" "hi" 1002]) !! 7)
  = Some [ SSE.mkFrame "message" ["hello"];
           SSE.mkFrame "chunk" ["aGk="];
           SSE.mkFrame "message" ["b64:aGk="] ]
  /\ Base64.encode "hello" = "aGVsbG8="
  /\ SSE.frames <$>
       (written <$>
          conns (Scenario.run [Scenario.startWarm; AData "r1" "hello" 1001;
                               ALogs "r1" true 7; AData "r1" "hi" 1002]) !! 7)
     <> Some [ SSE.mkFrame "chunk" ["aGVsbG8="]; SSE.mkFrame "chunk" ["aGk="] ].
Proof. repeat split; vm_compute; congruence. Qed.

(** C9, amended: the tail is the last [min(size, 64 KiB)] bytes of the
    transcript. It is sent by [sseSend]: one [data:] line for each line of
    its text and an empty line, with no [event:] line and no base-64. A
    client reads this as one unnamed frame, with the lines of the text as
    its data, when the text has no carriage return, and also when every
    carriage return of the text stands directly before a line feed or at
    the end of the text, the data then being the lines without these
    carriage returns. A carriage return elsewhere is written as it is and
    ends a line for the client: what follows it is lost, or is read as a
    field of its own, so that a text can make a second frame and a frame
    named [chunk]. A chunk causes three writes on each listener, which
    are two frames: one named [chunk] with the base-64 payload, and one
    unnamed with [b64:] before the same payload. *)
Theorem C9_log_frames (utf8 : string -> string) (detect : string -> list Artifact)
    s id run :
  runsGet s id = Some run ->
  (forall content,
      String.length (tail content) = Nat.min (String.length content) TAIL_MAX
      /\ exists pre, content = pre +:+ tail content)
  /\ (forall content follow res,
        files (fs s) !! transcriptPath run = Some content ->
        exists r, conns (getLogs utf8 id follow res s).1 !! res = Some r
          /\ written r
             = List.map (fun ln => "data: " +:+ ln +:+ NL)
                 (Str.split Str.LF (utf8 (tail content))) ++ [NL]
          /\ ended r = negb follow)
  /\ (forall chunk now l r,
        List.NoDup (listeners run) -> In l (listeners run) ->
        conns s !! l = Some r -> ended r = false ->
        let writes := [ "event: chunk" +:+ NL;
                        "data: " +:+ Base64.encode chunk +:+ NL +:+ NL;
                        "data: b64:" +:+ Base64.encode chunk +:+ NL +:+ NL ] in
        exists r', conns (onData utf8 detect id chunk now s) !! l = Some r'
          /\ written r' = written r ++ writes
          /\ SSE.frames writes
             = [ SSE.mkFrame "chunk" [Base64.encode chunk];
                 SSE.mkFrame "message" ["b64:" +:+ Base64.encode chunk] ])
  /\ (forall text,
        Str.free Str.CR text = true ->
        SSE.frames (List.map (fun ln => "data: " +:+ ln +:+ NL)
                      (Str.split Str.LF text) ++ [NL])
        = [ SSE.mkFrame "message" (Str.split Str.LF text) ])
  /\ (forall text,
        Forall (fun ln => SSE.plain (Str.chopCR ln) = true) (Str.split Str.LF text) ->
        SSE.frames (List.map (fun ln => "data: " +:+ ln +:+ NL)
                      (Str.split Str.LF text) ++ [NL])
        = [ SSE.mkFrame "message" (List.map Str.chopCR (Str.split Str.LF text)) ])
  /\ (let sent text :=
        SSE.frames (List.map (fun ln => "data: " +:+ ln +:+ NL)
                      (Str.split Str.LF text) ++ [NL]) in
      let cr := String Str.CR "" in
      sent ("a" +:+ cr +:+ "b") = [ SSE.mkFrame "message" ["a"] ]
      /\ sent ("a" +:+ cr +:+ cr +:+ "b") = [ SSE.mkFrame "message" ["a"] ]
      /\ sent ("a" +:+ cr +:+ cr +:+ "data: b")
         = [ SSE.mkFrame "message" ["a"]; SSE.mkFrame "message" ["b"] ]
      /\ sent ("a" +:+ cr +:+ cr +:+ "event: chunk" +:+ cr +:+ "data: aGk=")
         = [ SSE.mkFrame "message" ["a"]; SSE.mkFrame "chunk" ["aGk="] ]).
Proof.
  intros Hg. pose proof (runsGet_heap _ _ _ Hg) as Hh.
  split; [|split; [|split; [|split; [apply SSEFacts.sseSend_frames|
    split; [apply SSEFacts.sseSend_frames_crlf | by vm_compute]]]]].
  - intros content. destruct (SSEFacts.tail_spec content) as [Hl Hc].
    split; [exact Hl | eexists; exact Hc].
  - intros content follow res Hf. unfold getLogs. rewrite Hg, Hf.
    rewrite SSEFacts.sseSend_open by done. cbn [written app].
    destruct follow; cbn; rewrite lookup_insert_eq; eexists; done.
  - intros chunk now l r Hnd Hin Hl Hr writes. unfold onData. rewrite Hh.
    rewrite SSEFacts.broadcast_all_conns. cbn [conns forEachRes withConns].
    cbn [conns withFs updRun withHeap].
    rewrite SSEFacts.alter_each_once by done. rewrite Hl. cbn [fmap option_fmap option_map].
    rewrite SSEFacts.sendChunk_open by done.
    eexists. split; [reflexivity|]. split; [reflexivity|].
    apply SSEFacts.chunk_frames, SSEFacts.encode_plain.
Qed.

Lemma C9_log_frames_witness :
  (exists r',
    conns (onData Scenario.utf8 Scenario.noArtifacts "r1" "hi" 1002 Scenario.followed) !! 7
    = Some r'
    /\ written r'
       = [ "data: hello" +:+ NL; NL ]
         ++ [ "event: chunk" +:+ NL;
              "data: " +:+ Base64.encode "hi" +:+ NL +:+ NL;
              "data: b64:" +:+ Base64.encode "hi" +:+ NL +:+ NL ])
  /\ SSE.frames [ "data: ok" +:+ String Str.CR NL; "data: $ " +:+ NL; NL ]
     = [ SSE.mkFrame "message" ["ok"; "$ "] ].
Proof.
  destruct (C9_log_frames Scenario.utf8 Scenario.noArtifacts Scenario.followed "r1"
              Scenario.followedRun) as (_ & _ & H & _ & Hcr & _); [vm_compute; reflexivity|].
  split.
  - destruct (H "hi" 1002%Z 7 (mkRes [ "data: hello" +:+ NL; NL ] false))
      as (r' & H1 & H2 & _).
    + repeat constructor. intros [].
    + by left.
    + vm_compute. reflexivity.
    + reflexivity.
    + exists r'. split; [exact H1 | exact H2].
  - apply (Hcr ("ok" +:+ String Str.CR (String Str.LF "$ "))).
    repeat constructor.
Defined.

(* --------------------------------------------------------------------- *)
(** ** The credentials file *)
(* --------------------------------------------------------------------- *)

Module EnvFacts.

Import Str StrFacts.

#[local] Arguments String.append !_ _ / : simpl nomatch.
#[local] Arguments ascii_dec : simpl never.

Lemma noLead_head c s : noLead (String c s) -> is_ws c = false.
Proof.
unfold noLead. simpl. destruct (is_ws c); [|done]. intros H.
destruct (trimStart_suffix s) as [w Hw].
assert (Hl : String.length (trimStart s) = S (String.length s)) by (by rewrite H).
rewrite Hw in Hl at 2. rewrite length_app in Hl. lia.
Qed.

Lemma noLead_app k c w : noLead k -> is_ws c = false -> noLead (k +:+ String c w).
Proof.
intros Hk Hc. unfold noLead. destruct k as [|d k]; simpl.
- by rewrite Hc.
- by rewrite (noLead_head d k Hk).
Qed.

Lemma truthy_app a c b : truthy (a +:+ String c b) = true.
Proof. by destruct a. Qed.

Lemma drop_S_app a c b : drop (S (String.length a)) (a +:+ String c b) = b.
Proof. induction a as [|x a IH]; simpl; [by destruct b | exact IH]. Qed.

Lemma startsWith_hash_app k w :
  startsWith k "#" = false -> startsWith (k +:+ String "="%char w) "#" = false.
Proof.
unfold startsWith. destruct k as [|c k]; simpl.
- intros _. destruct (ascii_dec "#" "=") as [e|]; [discriminate e | done].
- destruct (ascii_dec "#" c); [|done]. by rewrite SSEFacts.prefix_nil.
Qed.

Lemma parseLine_entry env k v :
  keyLine k ->
  Creds.parseLine env (k +:+ "=" +:+ v)
  = Creds.setProp env k (Creds.stripQuotes (trimEnd v)).
Proof.
intros (Heq & Hl & Ht & Hh). unfold Creds.parseLine.
change (k +:+ "=" +:+ v) with (k +:+ String "="%char v).
assert (Htrim : trim (k +:+ String "="%char v) = k +:+ String "="%char (trimEnd v)).
{ unfold trim. rewrite (noLead_app k _ v Hl) by done. by apply trimEnd_app. }
rewrite Htrim, truthy_app, startsWith_hash_app by done. cbn [negb orb].
rewrite indexOf_app by done. cbv beta iota zeta.
rewrite take_app, drop_S_app.
unfold trim. rewrite Hl, Ht. done.
Qed.

Lemma split_app c a b :
  free c a = true -> split c (a +:+ String c b) = a :: split c b.
Proof.
unfold free. induction a as [|d a IH]; simpl.
- by rewrite Ascii.eqb_refl.
- intros [Hd Ha]%andb_true_iff. apply negb_true_iff in Hd.
  by rewrite Hd, IH.
Qed.

Lemma split_text (ls : list string) :
  Forall (fun l => free LF l = true) ls -> ls <> [] ->
  split LF (join NL ls +:+ NL) = ls ++ [""].
Proof.
induction ls as [|x ls IH]; [done|]. intros Hf _.
apply Forall_cons in Hf as [Hx Hf]. destruct ls as [|y ls].
- simpl. unfold NL. by rewrite split_app.
- change (join NL (x :: y :: ls)) with (x +:+ NL +:+ join NL (y :: ls)).
  rewrite !app_assoc. unfold NL at 1.
  change (String LF "" +:+ join NL (y :: ls) +:+ NL)
    with (String LF (join NL (y :: ls) +:+ NL)).
  rewrite split_app by done. by rewrite IH.
Qed.

Lemma map_init_snoc {A} (f : A -> A) (ls : list A) x :
  map_init f (ls ++ [x]) = List.map f ls ++ [x].
Proof.
induction ls as [|y ls IH]; [done|]. simpl. rewrite <- IH.
by destruct ls.
Qed.

Lemma trimEnd_snoc c y : is_ws c = true -> trimEnd (y +:+ String c "") = trimEnd y.
Proof.
intros Hc. unfold trimEnd. rewrite rev_app.
change (rev (String c "")) with (String c ""). simpl. by rewrite Hc.
Qed.

Lemma trim_snoc c x : is_ws c = true -> trim (x +:+ String c "") = trim x.
Proof.
intros Hc. unfold trim. induction x as [|d x IH]; simpl.
- by rewrite Hc.
- destruct (is_ws d); [exact IH|].
  change (String d (x +:+ String c "")) with (String d x +:+ String c "").
  by apply trimEnd_snoc.
Qed.

Lemma chopCR_cases l : chopCR l = l \/ l = chopCR l +:+ String CR "".
Proof.
unfold chopCR. destruct (rev l) as [|c r] eqn:E; [by left|].
destruct (Ascii.eqb_spec c CR) as [->|]; [right | by left].
by rewrite <- rev_cons, <- E, rev_involutive.
Qed.

Lemma trim_chopCR l : trim (chopCR l) = trim l.
Proof.
destruct (chopCR_cases l) as [->|Hl]; [done|].
rewrite Hl at 2. by rewrite trim_snoc.
Qed.

Lemma parseLine_chopCR env l : Creds.parseLine env (chopCR l) = Creds.parseLine env l.
Proof. unfold Creds.parseLine. by rewrite trim_chopCR. Qed.

Lemma parseLines_chopCR ls env :
  fold_left Creds.parseLine (List.map chopCR ls) env = fold_left Creds.parseLine ls env.
Proof.
revert env. induction ls as [|l ls IH]; intros env; simpl; [done|].
by rewrite parseLine_chopCR, IH.
Qed.

Lemma parseLine_nil env : Creds.parseLine env "" = env.
Proof. reflexivity. Qed.

(** Parsing a text made of lines without line feeds, each one ended. *)
Lemma parse_text (ls : list string) :
  Forall (fun l => free LF l = true) ls ->
  Creds.parseDotEnv (join NL ls +:+ (if Nat.eqb (List.length ls) 0 then "" else NL))
  = fold_left Creds.parseLine ls ∅.
Proof.
intros Hf. unfold Creds.parseDotEnv, splitLines. destruct ls as [|x ls]; [done|].
cbn [List.length Nat.eqb]. rewrite split_text by done.
rewrite map_init_snoc, fold_left_app, parseLines_chopCR. simpl. apply parseLine_nil.
Qed.

Lemma setProp_other env k v j : j <> k -> Creds.setProp env k v !! j = env !! j.
Proof.
intros Hne. unfold Creds.setProp. destruct (String.eqb k "__proto__"); [done|].
by rewrite lookup_insert_ne.
Qed.

Lemma setProp_same env k v : k <> "__proto__" -> Creds.setProp env k v !! k = Some v.
Proof.
intros Hne. unfold Creds.setProp. destruct (String.eqb_spec k "__proto__"); [done|].
by rewrite lookup_insert_eq.
Qed.

Section Assign.

Variable f : string -> string.

Lemma assign_other (ks : list string) env j :
  ~ In j ks ->
  fold_left (fun env k => Creds.setProp env k (f k)) ks env !! j = env !! j.
Proof.
revert env. induction ks as [|k ks IH]; intros env Hn; simpl; [done|].
rewrite IH by (intros ?; apply Hn; by right).
apply setProp_other. intros ->. apply Hn. by left.
Qed.

Lemma assign_same (ks : list string) env j :
  List.NoDup ks -> In j ks -> j <> "__proto__" ->
  fold_left (fun env k => Creds.setProp env k (f k)) ks env !! j = Some (f j).
Proof.
revert env. induction ks as [|k ks IH]; intros env Hnd Hin Hj; [done|].
apply List.NoDup_cons_iff in Hnd as [Hk Hnd]. simpl. destruct Hin as [->|Hin].
- rewrite assign_other by done. by apply setProp_same.
- by apply IH.
Qed.

End Assign.

Lemma parse_entries obj (ks : list string) env :
  Forall keyLine ks ->
  fold_left Creds.parseLine (List.map (Creds.entryLine obj) ks) env
  = fold_left (fun env k =>
       Creds.setProp env k (Creds.stripQuotes (trimEnd (default "" (obj !! k)))))
      ks env.
Proof.
revert env. induction ks as [|k ks IH]; intros env Hf; [done|].
apply Forall_cons in Hf as [Hk Hf]. cbn [List.map fold_left].
unfold Creds.entryLine at 2.
rewrite parseLine_entry by done. by apply IH.
Qed.

Lemma split_free c s : Forall (fun l => free c l = true) (split c s).
Proof.
unfold free. induction s as [|d s IH]; simpl; [by repeat constructor|].
destruct (Ascii.eqb d c) eqn:E; [by constructor|].
destruct (split c s) as [|x xs]; [by repeat constructor; simpl; rewrite E|].
apply Forall_cons in IH as [Hx Hxs]. constructor; [|done]. simpl. by rewrite E.
Qed.

Lemma chopCR_free c l : free c l = true -> free c (chopCR l) = true.
Proof.
intros H. destruct (chopCR_cases l) as [->|Hl]; [done|].
unfold free in *. rewrite Hl, all_app in H. by apply andb_true_iff in H as [H _].
Qed.

Lemma map_init_Forall {A} (P : A -> Prop) (g : A -> A) (ls : list A) :
  (forall x, P x -> P (g x)) -> Forall P ls -> Forall P (map_init g ls).
Proof.
intros Hg. induction ls as [|x ls IH]; intros Hf; [done|].
apply Forall_cons in Hf as [Hx Hf]. simpl. destruct ls as [|y ls]; [by constructor|].
constructor; [by apply Hg | by apply IH].
Qed.

Lemma splitLines_free s : Forall (fun l => free LF l = true) (splitLines s).
Proof.
unfold splitLines. apply map_init_Forall; [apply chopCR_free | apply split_free].
Qed.

Lemma stripQuotes_free c v : free c v = true -> free c (Creds.stripQuotes v) = true.
Proof.
intros H. unfold Creds.stripQuotes. destruct (_ || _); [|done].
unfold slice_1_m1, free. by apply all_take, all_drop.
Qed.

Lemma take_prefix n s : exists w, s = take n s +:+ w.
Proof. exists (drop n s). by rewrite take_drop. Qed.

Lemma parseLine_parsed env line :
  free LF line = true -> parsed env -> parsed (Creds.parseLine env line).
Proof.
intros Hlf Henv. unfold Creds.parseLine.
set (trimmed := trim line).
assert (Hfree : free LF trimmed = true) by (by apply all_trim).
assert (Hlead : noLead trimmed) by (apply noLead_trimEnd, noLead_trimStart).
destruct (negb (truthy trimmed) || startsWith trimmed "#") eqn:Hskip; [done|].
apply orb_false_iff in Hskip as [_ Hhash].
destruct (indexOf "="%char trimmed) as [idx|] eqn:Hidx; [|done].
set (t := take idx trimmed).
unfold Creds.setProp.
destruct (String.eqb_spec (trim t) "__proto__") as [|Hproto]; [done|].
intros k v Hkv. destruct (decide (k = trim t)) as [->|Hne].
- rewrite lookup_insert_eq in Hkv. injection Hkv as <-.
  assert (Ht : noLead t).
  { destruct (take_prefix idx trimmed) as [w Hw]. fold t in Hw.
    destruct t as [|c t'] eqn:Et; [apply noLead_nil|].
    rewrite Hw in Hlead. eapply noLead_prefix; [exact Hlead | done]. }
  split; [split; [|split; [done|]]|].
  + split; [|split; [|split]].
    * by apply all_trim, indexOf_take.
    * apply noLead_trimEnd, noLead_trimStart.
    * apply trimEnd_idem.
    * destruct (startsWith (trim t) "#") eqn:Hs; [|done].
      exfalso. unfold trim in Hs. rewrite Ht in Hs.
      destruct (trimEnd_prefix t) as [w Hw].
      destruct (take_prefix idx trimmed) as [w' Hw']. fold t in Hw'.
      rewrite Hw', Hw, app_assoc in Hhash.
      by rewrite (startsWith_prefix _ _ _ Hs) in Hhash.
  + by apply all_trim, all_take.
  + apply stripQuotes_free. change (free LF (drop (S idx) trimmed) = true).
    by apply all_drop.
- rewrite lookup_insert_ne in Hkv by done. by apply Henv.
Qed.

Lemma parseDotEnv_parsed txt : parsed (Creds.parseDotEnv txt).
Proof.
unfold Creds.parseDotEnv.
assert (H : forall ls env, Forall (fun l => free LF l = true) ls -> parsed env ->
            parsed (fold_left Creds.parseLine ls env)).
{ induction ls as [|l ls IH]; intros env Hf Henv; [done|].
  apply Forall_cons in Hf as [Hl Hf]. simpl. apply IH; [done|].
  by apply parseLine_parsed. }
apply H; [apply splitLines_free|]. intros k v Hkv. by rewrite lookup_empty in Hkv.
Qed.

Lemma keysOf_spec : keysSpec Creds.keysOf.
Proof.
intros m. unfold Creds.keysOf. split.
- apply NoDup_ListNoDup, NoDup_fst_map_to_list.
- intros k. rewrite <- list_elem_of_In, list_elem_of_fmap. split.
  + intros ([k' v] & -> & Hin). apply elem_of_map_to_list in Hin. by exists v.
  + intros [v Hv]. exists (k, v). split; [done|]. by apply elem_of_map_to_list.
Qed.

Lemma entry_free obj k v :
  obj !! k = Some v -> free LF k = true -> free LF v = true ->
  free LF (Creds.entryLine obj k) = true.
Proof.
intros Hk Hfk Hfv. unfold Creds.entryLine, free in *. rewrite Hk.
rewrite !all_app, Hfk. simpl. exact Hfv.
Qed.

(** Reading back what [serializeDotEnv] wrote. *)
Lemma parse_serialize objectKeys obj :
  keysSpec objectKeys -> parsed obj ->
  forall k v, obj !! k = Some v ->
    Creds.parseDotEnv (Creds.serializeDotEnv objectKeys obj) !! k
    = Some (Creds.stripQuotes (trimEnd v)).
Proof.
intros Hkeys Hobj k v Hkv. destruct (Hkeys obj) as [Hnd Hin].
unfold Creds.serializeDotEnv.
rewrite <- (length_map (Creds.entryLine obj) (objectKeys obj)).
change (String LF "") with NL. rewrite parse_text.
- rewrite parse_entries.
  + rewrite (assign_same (fun k => Creds.stripQuotes (trimEnd (default "" (obj !! k))))).
    * by rewrite Hkv.
    * done.
    * apply Hin. by exists v.
    * by destruct (Hobj k v Hkv) as ((_ & ? & _) & _).
  + apply Forall_forall. intros j Hj. apply list_elem_of_In, Hin in Hj as [w Hw].
    by destruct (Hobj j w Hw) as ((? & _) & _).
- apply Forall_forall. intros l Hl. apply list_elem_of_In, in_map_iff in Hl as (j & <- & Hj).
  apply Hin in Hj as [w Hw]. destruct (Hobj j w Hw) as ((_ & _ & ?) & ?).
  by apply (entry_free obj j w).
Qed.

Lemma stripQuotes_ok v : valOk v -> Creds.stripQuotes (trimEnd v) = v.
Proof.
intros (_ & Ht & Hd & Hs). rewrite Ht. unfold Creds.stripQuotes. by rewrite Hd, Hs.
Qed.

Lemma readCredsEnv_parsed f credsPath : parsed (Creds.readCredsEnv f credsPath).
Proof.
unfold Creds.readCredsEnv. destruct (readFile _ _); [apply parseDotEnv_parsed|].
intros k v Hkv. by rewrite lookup_empty in Hkv.
Qed.

Lemma read_after_write objectKeys f credsPath updates :
  Creds.readCredsEnv (Creds.writeCredsEnv objectKeys f credsPath updates).1 credsPath
  = Creds.parseDotEnv
      (Creds.serializeDotEnv objectKeys (updates ∪ Creds.readCredsEnv f credsPath)).
Proof.
unfold Creds.writeCredsEnv, Creds.readCredsEnv at 1, readFile, writeFile.
cbn [fst files]. by rewrite lookup_insert_eq.
Qed.

End EnvFacts.

(** C6, as stated, fails: a value wrapped in quotes loses them when it is
    read back, and a value's trailing blank is trimmed. *)
Lemma C6_counterexample :
  Creds.readCredsEnv
    (Creds.writeCredsEnv Creds.keysOf (mkFS ∅ ∅) "/cr/a" {[ "A" := "'x'" ]}).1 "/cr/a"
    !! "A" = Some "x"
  /\ Creds.readCredsEnv
       (Creds.writeCredsEnv Creds.keysOf (mkFS ∅ ∅) "/cr/a" {[ "B" := "y " ]}).1 "/cr/a"
       !! "B" = Some "y"
  /\ Creds.readCredsEnv
       (Creds.writeCredsEnv Creds.keysOf (mkFS ∅ ∅) "/cr/a" {[ "A" := "'x'" ]}).1 "/cr/a"
       !! "A" <> ({[ "A" := "'x'" ]} : gmap string string) !! "A".
Proof. repeat split; vm_compute; congruence. Qed.

(** C6, amended: [writeCredsEnv] never drops a key of the map it read.
    When every key of the updates fits a line of the file (no [=], no line
    feed, no white space at its ends, no leading [#], not [__proto__]) and
    every value does (no line feed, no white space at its end, not wrapped
    in quotes), reading after writing gives every written key with the
    value written, the empty string included, and every key that was
    there before. *)
Theorem C6_write_then_read objectKeys f credsPath (updates : gmap string string) :
  keysSpec objectKeys ->
  let cur := Creds.readCredsEnv f credsPath in
  let next := (Creds.writeCredsEnv objectKeys f credsPath updates).2 in
  let back :=
    Creds.readCredsEnv (Creds.writeCredsEnv objectKeys f credsPath updates).1 credsPath in
  (forall k, is_Some (cur !! k) -> is_Some (next !! k))
  /\ ((forall k v, updates !! k = Some v -> keyOk k /\ valOk v) ->
      (forall k v, updates !! k = Some v -> back !! k = Some v)
      /\ (forall k, updates !! k = Some "" -> back !! k = Some "")
      /\ (forall k, is_Some (cur !! k) -> is_Some (back !! k))).
Proof.
  intros Hkeys cur next back.
  assert (Hnext : next = updates ∪ cur) by reflexivity.
  split.
  { intros k Hk. rewrite Hnext, lookup_union_is_Some. by right. }
  intros Hok.
  assert (Hparsed : parsed next).
  { intros k v Hkv. rewrite Hnext in Hkv. apply lookup_union_Some_raw in Hkv.
    destruct Hkv as [Hu | [_ Hc]].
    - destruct (Hok k v Hu) as [Hk (Hv & _)]. done.
    - by apply (EnvFacts.readCredsEnv_parsed f credsPath). }
  assert (Hback : forall k v, next !! k = Some v ->
            back !! k = Some (Creds.stripQuotes (Str.trimEnd v))).
  { intros k v Hkv. unfold back. rewrite EnvFacts.read_after_write.
    by apply EnvFacts.parse_serialize. }
  assert (Hwritten : forall k v, updates !! k = Some v -> back !! k = Some v).
  { intros k v Hu. rewrite (Hback k v).
    - f_equal. apply EnvFacts.stripQuotes_ok. by destruct (Hok k v Hu).
    - rewrite Hnext. by apply lookup_union_Some_l. }
  split; [exact Hwritten|]. split; [intros k; apply Hwritten|].
  intros k Hk.
  assert (Hn : is_Some (next !! k)) by (rewrite Hnext, lookup_union_is_Some; by right).
  destruct Hn as [v Hv]. rewrite (Hback k v Hv). done.
Qed.

Lemma C6_write_then_read_witness :
  Creds.readCredsEnv
    (Creds.writeCredsEnv Creds.keysOf Scenario.pocket "/cr/a"
       {[ "GEMINI_API_KEY" := "g-1"; "OPENAI_API_KEY" := "" ]}).1 "/cr/a"
    !! "OPENAI_API_KEY" = Some "".
Proof.
  destruct (C6_write_then_read Creds.keysOf Scenario.pocket "/cr/a"
              {[ "GEMINI_API_KEY" := "g-1"; "OPENAI_API_KEY" := "" ]}
              EnvFacts.keysOf_spec) as [_ H].
  destruct H as (_ & H & _).
  - intros k v Hkv.
    apply lookup_insert_Some in Hkv as [[<- <-] | [_ Hkv]].
    + repeat split; vm_compute; congruence.
    + apply lookup_singleton_Some in Hkv as [<- <-].
      repeat split; vm_compute; congruence.
  - apply H. vm_compute. reflexivity.
Defined.

(* --------------------------------------------------------------------- *)
(** ** What the path guard accepts *)
(* --------------------------------------------------------------------- *)

Module PathFacts.

Import Str StrFacts Path.

#[local] Arguments String.append !_ _ / : simpl nomatch.
#[local] Arguments ascii_dec : simpl never.

Lemma pushSeg_clean stack seg :
  Forall cleanSeg stack -> free SLASH seg = true ->
  Forall cleanSeg (pushSeg false stack seg).
Proof.
intros Hs Hf. unfold pushSeg.
destruct (String.eqb_spec seg ""); [done|].
destruct (String.eqb_spec seg "."); [done|].
destruct (String.eqb_spec seg "..").
- destruct stack as [|top rest]; [done|]. apply Forall_cons in Hs as [Ht Hr].
  destruct (String.eqb_spec top ".."); [|done]. by destruct Ht as (_ & _ & ? & _).
- by constructor.
Qed.

Lemma normalize_stack_clean segs stack :
  Forall cleanSeg stack -> Forall (fun s => free SLASH s = true) segs ->
  Forall cleanSeg (fold_left (pushSeg false) segs stack).
Proof.
revert stack. induction segs as [|x segs IH]; intros stack Hs Hf; [done|].
apply Forall_cons in Hf as [Hx Hf]. simpl. apply IH; [|done]. by apply pushSeg_clean.
Qed.

Lemma resolveSegs_clean cwd p : Forall cleanSeg (resolveSegs cwd p).
Proof.
unfold resolveSegs, normalizeSegs. apply Forall_rev.
apply normalize_stack_clean; [done|]. apply EnvFacts.split_free.
Qed.

Lemma pushSeg_keep stack seg : cleanSeg seg -> pushSeg false stack seg = seg :: stack.
Proof.
intros (H1 & H2 & H3 & _). unfold pushSeg.
destruct (String.eqb_spec seg ""); [done|].
destruct (String.eqb_spec seg "."); [done|].
by destruct (String.eqb_spec seg "..").
Qed.

Lemma normalize_stack_id segs stack :
  Forall cleanSeg segs -> fold_left (pushSeg false) segs stack = List.rev segs ++ stack.
Proof.
revert stack. induction segs as [|x segs IH]; intros stack Hf; [done|].
apply Forall_cons in Hf as [Hx Hf]. simpl. rewrite pushSeg_keep by done.
rewrite IH by done. by rewrite <- List.app_assoc.
Qed.

Lemma split_join (segs : list string) :
  Forall cleanSeg segs -> segs <> [] -> split SLASH (Str.join "/" segs) = segs.
Proof.
induction segs as [|x segs IH]; [done|]. intros Hf _.
apply Forall_cons in Hf as [Hx Hf]. destruct Hx as (_ & _ & _ & Hx).
destruct segs as [|y segs].
- simpl. clear IH Hf. unfold free in Hx. induction x as [|c x IHx]; [done|].
  simpl in *. apply andb_true_iff in Hx as [Hc Hx]. apply negb_true_iff in Hc.
  rewrite Hc. by rewrite (IHx Hx).
- change (Str.join "/" (x :: y :: segs)) with (x +:+ String SLASH (Str.join "/" (y :: segs))).
  rewrite EnvFacts.split_app by done. by rewrite IH.
Qed.

Lemma resolveSegs_ofSegs cwd segs :
  Forall cleanSeg segs -> resolveSegs cwd (ofSegs segs) = segs.
Proof.
intros Hf. unfold resolveSegs, ofSegs. cbn [isAbsolute]. rewrite Ascii.eqb_refl.
unfold normalizeSegs. destruct segs as [|x segs]; [reflexivity|].
cbn [split]. rewrite Ascii.eqb_refl, split_join by done.
change (fold_left (pushSeg false) ("" :: ?l) []) with (fold_left (pushSeg false) l []).
rewrite normalize_stack_id by done. by rewrite List.app_nil_r, List.rev_involutive.
Qed.

Lemma resolveSegs_idem cwd p : resolveSegs cwd (resolve cwd p) = resolveSegs cwd p.
Proof. unfold resolve. apply resolveSegs_ofSegs, resolveSegs_clean. Qed.

Lemma stripCommon_app a b : stripCommon a (a ++ b) = ([], b).
Proof.
induction a as [|x a IH]; simpl; [by destruct b|]. by rewrite String.eqb_refl.
Qed.

Lemma join_cons (x : string) (l : list string) :
  exists w, Str.join "/" (x :: l) = x +:+ w.
Proof.
destruct l as [|y l]; [exists ""; by rewrite app_nil_r|].
by exists ("/" +:+ Str.join "/" (y :: l)).
Qed.

Lemma startsWith_dots_app seg w :
  cleanSeg seg -> startsWith (seg +:+ w) ".." = startsWith seg "..".
Proof.
intros (H1 & H2 & _). unfold startsWith.
destruct seg as [|c [|d s]]; [done| |].
- simpl. destruct (ascii_dec "." c) as [<-|]; [done|]. reflexivity.
- simpl. destruct (ascii_dec "." c); [|done]. destruct (ascii_dec "." d); [|done].
  by rewrite !SSEFacts.prefix_nil.
Qed.

Lemma truthy_clean_app seg w : cleanSeg seg -> truthy (seg +:+ w) = true.
Proof. intros (H & _). by destruct seg. Qed.

Lemma isAbsolute_clean_app seg w : cleanSeg seg -> isAbsolute (seg +:+ w) = false.
Proof.
intros (H & _ & _ & Hf). destruct seg as [|c s]; [done|]. simpl.
unfold free in Hf. simpl in Hf. apply andb_true_iff in Hf as [Hc _].
by apply negb_true_iff in Hc.
Qed.

(** [isSubPath] holds exactly of the strict descendants whose first
    segment below the parent does not begin with two dots. *)
Lemma isSubPath_spec cwd child parent :
  isSubPath cwd child parent = true <->
  exists seg rest,
    resolveSegs cwd child = resolveSegs cwd parent ++ seg :: rest
    /\ startsWith seg ".." = false.
Proof.
unfold isSubPath, relative. split.
- destruct (stripCommon _ _) as [f t] eqn:E.
  pose proof (resolveSegs_clean cwd child) as Hclean.
  apply stripCommon_spec in E as (c & Hf & Ht).
  intros H. apply andb_true_iff in H as [H _]. apply andb_true_iff in H as [Htr Hdd].
  destruct f as [|x f].
  + destruct t as [|seg rest]; [done|]. exists seg, rest.
    rewrite Hf, Ht, List.app_nil_r. split; [done|].
    rewrite Ht in Hclean. apply Forall_app in Hclean as [_ Hclean].
    apply Forall_cons in Hclean as [Hseg _].
    destruct (join_cons seg rest) as [w Hw]. cbn [List.map app] in Hdd.
    rewrite Hw, startsWith_dots_app in Hdd by done. by apply negb_true_iff in Hdd.
  + cbn [List.map app] in Hdd. by rewrite join_dotdot_prefix in Hdd.
- intros (seg & rest & Heq & Hdd).
  pose proof (resolveSegs_clean cwd child) as Hclean.
  rewrite Heq in Hclean. apply Forall_app in Hclean as [_ Hclean].
  apply Forall_cons in Hclean as [Hseg _].
  rewrite Heq, stripCommon_app. cbn [List.map app].
  destruct (join_cons seg rest) as [w ->].
  by rewrite truthy_clean_app, startsWith_dots_app, isAbsolute_clean_app, Hdd.
Qed.

(** What the guard accepts, for allow-list roots as the server holds them
    (resolved at start-up): the paths that resolve to a root, and the
    strict descendants of a root whose first segment below the root does
    not begin with two dots. *)
Lemma isAllowed_spec cwd p roots :
  (forall root, In root roots -> resolve cwd root = root) ->
  isAllowed cwd p roots = true <->
  exists root, In root roots
    /\ (resolveSegs cwd p = resolveSegs cwd root
        \/ exists seg rest,
             resolveSegs cwd p = resolveSegs cwd root ++ seg :: rest
             /\ startsWith seg ".." = false).
Proof.
intros Hroots. unfold isAllowed. rewrite existsb_exists. split.
- intros (root & Hin & H). exists root. split; [done|].
  apply orb_true_iff in H as [H|H].
  + left. apply String.eqb_eq in H. by rewrite <- H, resolveSegs_idem.
  + right. apply isSubPath_spec in H. by rewrite resolveSegs_idem in H.
- intros (root & Hin & H). exists root. split; [done|].
  apply orb_true_iff. destruct H as [H|H].
  + left. apply String.eqb_eq. rewrite <- (Hroots root Hin). unfold resolve.
    by rewrite H.
  + right. apply isSubPath_spec. by rewrite resolveSegs_idem.
Qed.

End PathFacts.

Module InvFacts.

Lemma goodRun_fields cfg r r' :
  engine r' = engine r -> workspace r' = workspace r -> creds r' = creds r ->
  transcriptPath r' = transcriptPath r ->
  List.NoDup (listeners r') ->
  goodRun cfg r -> goodRun cfg r'.
Proof.
intros He Hw Hc Ht Hl (H1 & H2 & H3 & H4 & H5 & H6 & _).
unfold goodRun. rewrite He, Hw, Hc, Ht. done.
Qed.

Lemma cons_updRun cfg id (f : Run -> Run) s :
  (forall r, runId (f r) = runId r) ->
  (forall r, goodRun cfg r -> goodRun cfg (f r)) ->
  consistent cfg s -> consistent cfg (updRun id f s).
Proof.
intros Hid Hgood (Hnd & Hreg & Hobj). split; [exact Hnd|]. split.
- intros i Hi. cbn. apply lookup_alter_is_Some. by apply Hreg.
- intros i r Hr. cbn in Hr. apply lookup_alter_Some in Hr.
  destruct Hr as [(-> & r0 & Hr0 & ->) | (_ & Hr)].
  + destruct (Hobj _ _ Hr0) as [Hi Hg]. split; [by rewrite Hid | by apply Hgood].
  + by apply Hobj.
Qed.

Lemma NoDup_snoc {A} (l : list A) x :
  ~ In x l -> List.NoDup l -> List.NoDup (l ++ [x]).
Proof.
induction l as [|y l IH]; intros Hx Hnd; cbn.
- apply List.NoDup_cons; [by intros [] | apply List.NoDup_nil].
- apply List.NoDup_cons_iff in Hnd as [Hy Hnd]. apply List.NoDup_cons.
  + intros [H|[<-|[]]]%in_app_or; [done|]. apply Hx. by left.
  + apply IH; [|done]. intros H. apply Hx. by right.
Qed.

Lemma runsHas_In s id : runsHas s id = true <-> In id (runs s).
Proof.
unfold runsHas. rewrite existsb_exists. split.
- intros (k & Hk & He). apply String.eqb_eq in He. by subst.
- intros H. exists id. split; [done | apply String.eqb_refl].
Qed.

Lemma cons_runsSet cfg r s :
  goodRun cfg r -> consistent cfg s -> consistent cfg (runsSet r s).
Proof.
intros Hg (Hnd & Hreg & Hobj). unfold runsSet. split; [|split].
- cbn. destruct (runsHas s (runId r)) eqn:E; [done|].
  apply NoDup_snoc; [|done]. intros Hin%runsHas_In. congruence.
- intros i Hi. cbn in *. destruct (decide (i = runId r)) as [->|Hne].
  + rewrite lookup_insert_eq. by eexists.
  + rewrite lookup_insert_ne by done. apply Hreg.
    destruct (runsHas s (runId r)); [done|].
    apply in_app_or in Hi as [Hi|[Hi|[]]]; [done | congruence].
- intros i r' Hr. cbn in Hr. destruct (decide (i = runId r)) as [->|Hne].
  + rewrite lookup_insert_eq in Hr. by injection Hr as <-.
  + rewrite lookup_insert_ne in Hr by done. by apply Hobj.
Qed.

Lemma cons_runsDelete cfg id s : consistent cfg s -> consistent cfg (runsDelete id s).
Proof.
intros (Hnd & Hreg & Hobj). split; [|split].
- cbn. by apply List.NoDup_filter.
- intros i Hi. cbn in *. apply filter_In in Hi as [Hi _]. by apply Hreg.
- exact Hobj.
Qed.

Lemma cons_runsClear cfg s : consistent cfg s -> consistent cfg (runsClear s).
Proof.
intros (Hnd & Hreg & Hobj). split; [|split]; [apply List.NoDup_nil | by intros ? [] | exact Hobj].
Qed.

Lemma cons_same cfg s s' :
  runs s' = runs s -> heap s' = heap s -> consistent cfg s -> consistent cfg s'.
Proof. unfold consistent. by intros -> ->. Qed.

Lemma cons_withDocker cfg d s : consistent cfg s -> consistent cfg (withDocker d s).
Proof. by apply cons_same. Qed.
Lemma cons_withFs cfg f s : consistent cfg s -> consistent cfg (withFs f s).
Proof. by apply cons_same. Qed.
Lemma cons_withConns cfg c s : consistent cfg s -> consistent cfg (withConns c s).
Proof. by apply cons_same. Qed.
Lemma cons_broadcast cfg e s : consistent cfg s -> consistent cfg (eventsBroadcast e s).
Proof. by apply cons_same. Qed.
Lemma cons_forEachRes cfg f ls s : consistent cfg s -> consistent cfg (forEachRes f ls s).
Proof. by apply cons_same. Qed.

Ltac good_fields :=
  let Hg := fresh "Hg" in
  let r := fresh "r" in
  intros r Hg; apply (goodRun_fields _ r);
  [reflexivity | reflexivity | reflexivity | reflexivity | | exact Hg];
  cbn; first [apply List.NoDup_nil
             | exact (proj2 (proj2 (proj2 (proj2 (proj2 (proj2 Hg))))))].

Ltac cons_tac :=
  repeat first
    [ assumption
    | apply cons_runsDelete | apply cons_runsClear
    | apply cons_withDocker | apply cons_withFs | apply cons_withConns
    | apply cons_broadcast | apply cons_forEachRes
    | apply cons_updRun; [intros; reflexivity | good_fields | ] ].

Lemma cons_fallback cfg id s : consistent cfg s -> consistent cfg (fallback id s).1.
Proof.
intros H. unfold fallback. destruct (Driver.listContainers _ _); cbn; cons_tac.
Qed.

Lemma cons_handle cfg r id s : consistent cfg s -> consistent cfg (handle r id s).1.
Proof.
intros H. destruct r; cbn; unfold stopRun, killRun, closeRun;
  (destruct (runsGet s id) as [run|]; [|by apply cons_fallback]);
  destruct (isExec run); cbn [fst]; cons_tac.
Qed.

Lemma cons_autoStopRun cfg run s : consistent cfg s -> consistent cfg (autoStopRun cfg run s).
Proof.
intros H. unfold autoStopRun. destruct (isExec run); cons_tac.
Qed.

Lemma cons_idleSweep cfg now s : consistent cfg s -> consistent cfg (idleSweep cfg now s).
Proof.
unfold idleSweep. destruct (Z.ltb 0 (IDLE_TIMEOUT_SEC cfg)); [|done].
generalize (runs s) at 1. intros ids. revert s.
induction ids as [|i ids IH]; intros s H; cbn; [done|].
apply IH. destruct (heap s !! i) as [r|]; [|done].
destruct (idleExpired cfg now r); [by apply cons_autoStopRun | done].
Qed.

Lemma cons_broadcasts cfg (es : list Event) s :
  consistent cfg s -> consistent cfg (fold_left (fun s e => eventsBroadcast e s) es s).
Proof.
revert s. induction es as [|e es IH]; intros s H; cbn; [done|]. apply IH. cons_tac.
Qed.

Lemma cons_onData cfg utf8 det id chunk now s :
  consistent cfg s -> consistent cfg (onData utf8 det id chunk now s).
Proof.
intros H. unfold onData. destruct (heap s !! id) as [run|]; [|done].
apply cons_broadcasts. cons_tac.
Qed.

Lemma cons_onStreamEnd cfg id s : consistent cfg s -> consistent cfg (onStreamEnd id s).
Proof.
intros H. unfold onStreamEnd. destruct (heap s !! id) as [run|]; [|done].
destruct (isExec run); [|done]. cons_tac.
Qed.

Lemma cons_onContainerWait cfg id s :
  consistent cfg s -> consistent cfg (onContainerWait id s).
Proof.
intros H. unfold onContainerWait. destruct (heap s !! id) as [run|]; [|done].
destruct (isExec run); [done|]. destruct (resolveStatus _ _); [|done].
cons_tac.
Qed.

Lemma cons_stopAll cfg w s : consistent cfg s -> consistent cfg (stopAll w s).1.
Proof.
intros H. unfold stopAll. destruct (listAdzContainers _); [|done].
destruct (bulk _ _ _). cbn. cons_tac.
Qed.

Lemma NoDup_add (res : nat) (l : list nat) :
  List.NoDup l ->
  List.NoDup (if existsb (Nat.eqb res) l then l else l ++ [res]).
Proof.
intros Hnd. destruct (existsb (Nat.eqb res) l) eqn:E; [done|].
apply NoDup_snoc; [|done]. intros Hin.
assert (existsb (Nat.eqb res) l = true); [|congruence].
apply existsb_exists. exists res. split; [done | apply Nat.eqb_refl].
Qed.

Lemma cons_getLogs cfg utf8 id follow res s :
  consistent cfg s -> consistent cfg (getLogs utf8 id follow res s).1.
Proof.
intros H. unfold getLogs. destruct (runsGet s id) as [run|]; [|done].
destruct follow; cbn [fst]; cons_tac.
apply cons_updRun; [intros; reflexivity | | cons_tac].
intros r Hg. apply (goodRun_fields _ r); [reflexivity..| | exact Hg].
cbn. apply NoDup_add, Hg.
Qed.

Lemma startChecks_ok cfg q :
  startChecks cfg q = Ok tt ->
  isEngine (q_engine q) = true
  /\ Path.isAbsolute (q_workspace q) = true
  /\ Path.isAbsolute (q_creds q) = true
  /\ isAllowed (cwd cfg) (q_workspace q) (ALLOW_WORKSPACE_ROOTS cfg) = true
  /\ isAllowed (cwd cfg) (q_creds q) (ALLOW_CREDS_ROOTS cfg) = true.
Proof.
unfold startChecks, guard.
destruct (isEngine _); [|done]. destruct (Path.isAbsolute (q_workspace q)); [|done].
destruct (Path.isAbsolute (q_creds q)); [|done]. cbn [bind].
destruct (isAllowed _ (q_workspace q) _); [|done]. cbn [bind].
destruct (isAllowed _ (q_creds q) _); done.
Qed.

Lemma cons_startRun cfg q id ts cid now s :
  consistent cfg s -> consistent cfg (startRun cfg q id ts cid now s).1.
Proof.
intros H. unfold startRun. destruct (startChecks cfg q) as [[]|] eqn:Hc; [|done].
apply startChecks_ok in Hc as (H1 & H2 & H3 & H4 & H5).
destruct (if q_preferWarm q then _ else _) as [[w|]|]; cbn [fst].
- apply cons_broadcast, cons_runsSet; [|cons_tac].
  repeat split; try done; [by eexists | apply List.NoDup_nil].
- destruct (Driver.run _ _); cbn [fst]; [|cons_tac].
  apply cons_broadcast, cons_runsSet; [|cons_tac].
  repeat split; try done; [by eexists | apply List.NoDup_nil].
- cons_tac.
Qed.

Lemma cons_step cfg utf8 det a s :
  consistent cfg s -> consistent cfg (step cfg utf8 det a s).
Proof.
intros H. destruct a; cbn [step].
- by apply cons_startRun.
- by apply cons_onData.
- by apply cons_onStreamEnd.
- by apply cons_onContainerWait.
- by apply (cons_handle cfg RStop).
- by apply (cons_handle cfg RKill).
- by apply (cons_handle cfg RClose).
- by apply cons_idleSweep.
- by apply cons_stopAll.
- by apply cons_stopAll.
- by apply cons_getLogs.
Qed.

Lemma cons_postInput cfg id data now s :
  consistent cfg s -> consistent cfg (postInput id data now s).1.
Proof.
intros H. unfold postInput. destruct (runsGet s id); [|done].
destruct data; cbn [fst]; cons_tac.
Qed.

Lemma cons_serve cfg utf8 det c s :
  consistent cfg s -> consistent cfg (serve cfg utf8 det c s).
Proof.
intros H. destruct c; cbn [serve];
  [by apply cons_step | by apply cons_postInput | cons_tac | cons_tac].
Qed.

Lemma cons_empty cfg d f : consistent cfg (emptyApp d f).
Proof.
split; [apply List.NoDup_nil|]. split; [by intros ? []|].
intros id run H. cbn in H. by rewrite lookup_empty in H.
Qed.

Lemma cons_serveAll cfg utf8 det (cs : list Call) s :
  consistent cfg s -> consistent cfg (serveAll cfg utf8 det cs s).
Proof.
unfold serveAll. revert s. induction cs as [|c cs IH]; intros s Hs; cbn; [done|].
by apply IH, cons_serve.
Qed.

Lemma reachable cfg utf8 det (cs : list Call) d f :
  consistent cfg (serveAll cfg utf8 det cs (emptyApp d f)).
Proof. apply cons_serveAll, cons_empty. Qed.

Lemma cons_keyed cfg s : consistent cfg s -> keyed (heap s).
Proof. intros (_ & _ & H) id r Hr. by apply H. Qed.

Lemma runsGet_Some s id run :
  runsGet s id = Some run <-> In id (runs s) /\ heap s !! id = Some run.
Proof.
unfold runsGet. destruct (runsHas s id) eqn:E.
- apply runsHas_In in E. tauto.
- split; [done|]. intros [Hin _]. apply runsHas_In in Hin. congruence.
Qed.

End InvFacts.

Module SweepFacts.

Lemma keyed_alter (f : Run -> Run) id h :
  (forall r, runId (f r) = runId r) -> keyed h -> keyed (alter f id h).
Proof.
intros Hf Hk i r Hr. apply lookup_alter_Some in Hr.
destruct Hr as [(-> & r0 & Hr0 & ->) | (_ & Hr)]; [|by apply Hk].
rewrite Hf. by apply Hk.
Qed.

Lemma autoStop_runs cfg run s : runs (autoStopRun cfg run s) = runs s.
Proof. unfold autoStopRun. by destruct (isExec run). Qed.

Lemma autoStop_bus cfg run s :
  bus (autoStopRun cfg run s)
  = bus s ++ [lifecycle "run-idle-stopped" run (isExec run)].
Proof. unfold autoStopRun. by destruct (isExec run). Qed.

Lemma autoStop_lookup cfg run s :
  heap s !! runId run = Some run ->
  heap (autoStopRun cfg run s) !! runId run = Some (reaped run).
Proof.
intros H. unfold autoStopRun, reaped, farewell.
destruct (isExec run); cbn; rewrite !lookup_alter_eq, H; reflexivity.
Qed.

Lemma autoStop_other cfg run s id :
  id <> runId run -> heap (autoStopRun cfg run s) !! id = heap s !! id.
Proof.
intros H. unfold autoStopRun, farewell.
destruct (isExec run); cbn; by rewrite !lookup_alter_ne.
Qed.

Lemma autoStop_keyed cfg run s : keyed (heap s) -> keyed (heap (autoStopRun cfg run s)).
Proof.
intros Hk. unfold autoStopRun, farewell.
destruct (isExec run); cbn; repeat (apply keyed_alter; [done|]); done.
Qed.

Lemma reaped_not_expired cfg now run : idleExpired cfg now (reaped run) = false.
Proof. unfold idleExpired, reaped. by destruct (isExec run). Qed.

Lemma omap_ext_in {A B} (f g : A -> option B) l :
  (forall x, In x l -> f x = g x) -> omap f l = omap g l.
Proof.
induction l as [|x l IH]; intros H; cbn; [done|].
rewrite (H x) by by left. rewrite IH; [done|]. intros y Hy. apply H. by right.
Qed.

Lemma sweepOver_spec cfg now ids : forall s,
  List.NoDup ids -> keyed (heap s) ->
  runs (sweepOver cfg now ids s) = runs s
  /\ keyed (heap (sweepOver cfg now ids s))
  /\ bus (sweepOver cfg now ids s) = bus s ++ omap (idleEvent cfg now (heap s)) ids
  /\ (forall id, ~ In id ids -> heap (sweepOver cfg now ids s) !! id = heap s !! id)
  /\ (forall id run, In id ids -> heap s !! id = Some run ->
        heap (sweepOver cfg now ids s) !! id
        = Some (if idleExpired cfg now run then reaped run else run)).
Proof.
induction ids as [|i ids IH]; intros s Hnd Hk.
- cbn. split; [done|]. split; [done|]. split; [by rewrite app_nil_r|]. split; [done|].
  by intros ? ? [].
- apply List.NoDup_cons_iff in Hnd as [Hi Hnd].
  change (sweepOver cfg now (i :: ids) s)
    with (sweepOver cfg now ids
            (match heap s !! i with
             | Some run => if idleExpired cfg now run then autoStopRun cfg run s else s
             | None => s end)).
  set (s1 := match heap s !! i with
             | Some run => if idleExpired cfg now run then autoStopRun cfg run s else s
             | None => s end).
  assert (Hk1 : keyed (heap s1)).
  { subst s1. destruct (heap s !! i) as [r|]; [|done].
    destruct (idleExpired cfg now r); [by apply autoStop_keyed | done]. }
  assert (Hr1 : runs s1 = runs s).
  { subst s1. destruct (heap s !! i) as [r|]; [|done].
    destruct (idleExpired cfg now r); [apply autoStop_runs | done]. }
  assert (Ho : forall id, id <> i -> heap s1 !! id = heap s !! id).
  { intros id Hne. subst s1. destruct (heap s !! i) as [r|] eqn:E; [|done].
    destruct (idleExpired cfg now r); [|done]. apply autoStop_other.
    by rewrite (Hk _ _ E). }
  assert (Hb : bus s1 = bus s ++ from_option (fun e => [e]) [] (idleEvent cfg now (heap s) i)).
  { subst s1. unfold idleEvent. destruct (heap s !! i) as [r|]; [|by rewrite app_nil_r].
    destruct (idleExpired cfg now r); [apply autoStop_bus | by rewrite app_nil_r]. }
  assert (Hh : forall run, heap s !! i = Some run ->
             heap s1 !! i = Some (if idleExpired cfg now run then reaped run else run)).
  { intros run E. subst s1. rewrite E. destruct (idleExpired cfg now run); [|done].
    pose proof (Hk _ _ E) as Hid. rewrite <- Hid in E |- *.
    by apply autoStop_lookup. }
  destruct (IH s1 Hnd Hk1) as (H1 & H2 & H3 & H4 & H5).
  split; [congruence|]. split; [done|]. split; [|split].
  + rewrite H3, Hb, <- app_assoc. f_equal.
    rewrite (omap_ext_in (idleEvent cfg now (heap s1)) (idleEvent cfg now (heap s))).
    * cbn [omap list_omap]. by destruct (idleEvent cfg now (heap s) i).
    * intros x Hx. unfold idleEvent. rewrite Ho; [done|]. by intros ->.
  + intros id Hn. rewrite H4; [|intros ?; apply Hn; by right].
    apply Ho. intros ->. apply Hn. by left.
  + intros id run [<-|Hin] E.
    * rewrite H4 by done. by apply Hh.
    * apply H5; [done|]. rewrite Ho; [done|]. by intros ->.
Qed.

Lemma idleSweep_sweepOver cfg now s :
  (0 < IDLE_TIMEOUT_SEC cfg)%Z -> idleSweep cfg now s = sweepOver cfg now (runs s) s.
Proof. intros H. unfold idleSweep. apply Z.ltb_lt in H. by rewrite H. Qed.

Lemma idleSweep_off cfg now s :
  (IDLE_TIMEOUT_SEC cfg <= 0)%Z -> idleSweep cfg now s = s.
Proof. intros H. unfold idleSweep. apply Z.ltb_ge in H. by rewrite H. Qed.

Lemma eventsOf_app id es es' : eventsOf id (es ++ es') = eventsOf id es ++ eventsOf id es'.
Proof. apply List.filter_app. Qed.

Lemma idleEvent_runId cfg now h i e :
  keyed h -> idleEvent cfg now h i = Some e -> ev_runId e = i.
Proof.
intros Hk. unfold idleEvent. destruct (h !! i) as [r|] eqn:E; [|done].
destruct (idleExpired cfg now r); [|done]. intros [= <-]. by apply Hk.
Qed.

Lemma existsb_In id ids : existsb (String.eqb id) ids = true <-> In id ids.
Proof.
rewrite existsb_exists. split.
- intros (k & Hk & He). apply String.eqb_eq in He. by subst.
- intros H. exists id. split; [done | apply String.eqb_refl].
Qed.

Lemma eventsOf_idle cfg now h id ids :
  List.NoDup ids -> keyed h ->
  eventsOf id (omap (idleEvent cfg now h) ids)
  = if existsb (String.eqb id) ids
    then from_option (fun e => [e]) [] (idleEvent cfg now h id) else [].
Proof.
intros Hnd Hk. induction ids as [|i ids IH]; [done|].
apply List.NoDup_cons_iff in Hnd as [Hi Hnd]. specialize (IH Hnd).
cbn [omap list_omap existsb]. fold (omap (idleEvent cfg now h) ids).
destruct (String.eqb_spec id i) as [->|Hne]; cbn [orb].
- assert (Hex : existsb (String.eqb i) ids = false).
  { destruct (existsb (String.eqb i) ids) eqn:E; [|done]. by apply existsb_In in E. }
  rewrite Hex in IH. destruct (idleEvent cfg now h i) as [e|] eqn:E; [|done].
  cbn. rewrite (idleEvent_runId _ _ _ _ _ Hk E), String.eqb_refl. f_equal. exact IH.
- destruct (idleEvent cfg now h i) as [e|] eqn:E; [|done].
  cbn. rewrite (idleEvent_runId _ _ _ _ _ Hk E).
  assert (Hf : String.eqb i id = false) by (apply String.eqb_neq; congruence).
  rewrite Hf. exact IH.
Qed.

(** One tick of the reaper on a consistent state. *)
Lemma sweep_run cfg now s id run :
  consistent cfg s -> (0 < IDLE_TIMEOUT_SEC cfg)%Z ->
  runsGet s id = Some run ->
  runs (idleSweep cfg now s) = runs s
  /\ runsGet (idleSweep cfg now s) id
     = Some (if idleExpired cfg now run then reaped run else run)
  /\ eventsOf id (bus (idleSweep cfg now s))
     = eventsOf id (bus s)
       ++ (if idleExpired cfg now run
           then [lifecycle "run-idle-stopped" run (isExec run)] else []).
Proof.
intros Hc HT Hrun. rewrite idleSweep_sweepOver by done.
apply InvFacts.runsGet_Some in Hrun as [Hin Hh].
destruct (sweepOver_spec cfg now (runs s) s (proj1 Hc) (InvFacts.cons_keyed _ _ Hc))
  as (H1 & _ & H3 & _ & H5).
split; [done|]. split.
- apply InvFacts.runsGet_Some. rewrite H1. split; [done|]. by apply H5.
- rewrite H3, eventsOf_app. f_equal.
  rewrite (eventsOf_idle _ _ _ _ _ (proj1 Hc) (InvFacts.cons_keyed _ _ Hc)).
  apply existsb_In in Hin. rewrite Hin. unfold idleEvent. rewrite Hh.
  by destruct (idleExpired cfg now run).
Qed.

End SweepFacts.

(* --------------------------------------------------------------------- *)
(** ** The registry in every reachable state *)
(* --------------------------------------------------------------------- *)

(** X1: in every state the server reaches from an empty registry, the
    registry has no id twice, every registered id has its run object, and
    every run object sits under its own id, has one of the three engines,
    absolute workspace and credentials paths that the guard accepts, its
    transcript at [<workspace>/.runs/<engine>-<ts>.log], and no listener
    twice. *)
Theorem X1_reachable_consistent cfg utf8 det (cs : list Call) d f :
  consistent cfg (serveAll cfg utf8 det cs (emptyApp d f)).
Proof.
unfold serveAll.
assert (H : forall s, consistent cfg s ->
            consistent cfg (fold_left (fun s c => serve cfg utf8 det c s) cs s)).
{ induction cs as [|c cs IH]; intros s Hs; cbn [fold_left]; [done|].
  apply IH. destruct c; cbn [serve].
  - by apply InvFacts.cons_step.
  - by apply InvFacts.cons_postInput.
  - by apply InvFacts.cons_withDocker.
  - by apply InvFacts.cons_withDocker. }
apply H, InvFacts.cons_empty.
Qed.

(** X2: in every reachable state [GET /runs] lists each registered run
    once, in the order of the registry, and each entry shows the engine and
    the workspace of its run: one of the three engines and a workspace the
    guard accepts. *)
Theorem X2_listRuns_registry cfg utf8 det (cs : list Call) d f :
  let s := serveAll cfg utf8 det cs (emptyApp d f) in
  List.map s_runId (listRuns s) = runs s
  /\ forall e, In e (listRuns s) ->
       exists run, runsGet s (s_runId e) = Some run
         /\ s_engine e = engine run /\ s_workspace e = workspace run
         /\ isEngine (s_engine e) = true
         /\ isAllowed (cwd cfg) (s_workspace e) (ALLOW_WORKSPACE_ROOTS cfg) = true.
Proof.
intros s. destruct (InvFacts.reachable cfg utf8 det cs d f) as (Hnd & Hreg & Hobj).
fold s in Hnd, Hreg, Hobj. split.
- unfold listRuns. generalize (docker s). intros dk.
  assert (H : forall l, (forall id, In id l -> is_Some (heap s !! id)) ->
            List.map s_runId
              (omap (fun id => match heap s !! id with
                               | Some run => Some (mkRunSummary (runId run) (engine run)
                                                     (workspace run) (shownStatus dk run))
                               | None => None end) l) = l).
  { induction l as [|i l IH]; intros Hl; [done|]. cbn [omap list_omap].
    destruct (Hl i (or_introl eq_refl)) as [r Hr]. rewrite Hr. cbn.
    rewrite (proj1 (Hobj _ _ Hr)). f_equal. apply IH. intros id Hid. apply Hl. by right. }
  by apply H.
- intros e He. unfold listRuns in He. apply list_elem_of_In, list_elem_of_omap in He.
  destruct He as (id & Hid & He). apply list_elem_of_In in Hid.
  destruct (heap s !! id) as [run|] eqn:Hr; [|done]. injection He as <-.
  destruct (Hobj _ _ Hr) as [Hk (Hg1 & _ & _ & Hg4 & _)]. exists run. cbn.
  rewrite Hk. split; [by apply InvFacts.runsGet_Some|]. done.
Qed.

(* --------------------------------------------------------------------- *)
(** ** The idle reaper *)
(* --------------------------------------------------------------------- *)

(** X3: one tick of the idle reaper, in a reachable state, leaves the
    registry as it is; a registered run that is running and has been idle
    for the time-out is left stopped, without listeners, and exactly one
    [run-idle-stopped] is broadcast about it; for every other registered
    run the tick changes nothing and broadcasts nothing. *)
Theorem X3_idle_sweep cfg utf8 det (cs : list Call) d f now id run :
  let s := serveAll cfg utf8 det cs (emptyApp d f) in
  (0 < IDLE_TIMEOUT_SEC cfg)%Z ->
  runsGet s id = Some run ->
  runs (idleSweep cfg now s) = runs s
  /\ (idleExpired cfg now run = true ->
      runsGet (idleSweep cfg now s) id = Some (reaped run)
      /\ status (reaped run) = "stopped" /\ listeners (reaped run) = []
      /\ eventsOf id (bus (idleSweep cfg now s))
         = eventsOf id (bus s) ++ [lifecycle "run-idle-stopped" run (isExec run)])
  /\ (idleExpired cfg now run = false ->
      runsGet (idleSweep cfg now s) id = Some run
      /\ eventsOf id (bus (idleSweep cfg now s)) = eventsOf id (bus s)).
Proof.
intros s HT Hrun.
destruct (SweepFacts.sweep_run cfg now s id run (InvFacts.reachable _ _ _ _ _ _) HT Hrun)
  as (H1 & H2 & H3).
split; [exact H1|]. split; intros He; rewrite He in H2, H3.
- split; [exact H2|]. split; [reflexivity|]. split; [|exact H3].
  unfold reaped. by destruct (isExec run).
- split; [exact H2|]. by rewrite app_nil_r in H3.
Qed.

Lemma X3_idle_sweep_witness :
  runsGet (idleSweep Scenario.cfg 901000
             (serveAll Scenario.cfg Scenario.utf8 Scenario.noArtifacts
                [CAction Scenario.startWarm] Scenario.boot)) "r1"
  = Some (reaped Scenario.warmRun).
Proof.
destruct (X3_idle_sweep Scenario.cfg Scenario.utf8 Scenario.noArtifacts
            [CAction Scenario.startWarm] Scenario.daemon (mkFS ∅ ∅) 901000%Z "r1"
            Scenario.warmRun) as (_ & H & _).
- reflexivity.
- vm_compute. reflexivity.
- destruct H as [H _]; [reflexivity | exact H].
Defined.

(** X4: the reaper stops a run once.  After the tick that stopped a
    registered run, a further tick, at whatever time, broadcasts nothing
    about the run and leaves it as it is. *)
Theorem X4_reaper_once cfg utf8 det (cs : list Call) d f now now' id run :
  let s := serveAll cfg utf8 det cs (emptyApp d f) in
  (0 < IDLE_TIMEOUT_SEC cfg)%Z ->
  runsGet s id = Some run ->
  idleExpired cfg now run = true ->
  let s1 := idleSweep cfg now s in
  runsGet (idleSweep cfg now' s1) id = runsGet s1 id
  /\ eventsOf id (bus (idleSweep cfg now' s1)) = eventsOf id (bus s1).
Proof.
intros s HT Hrun He s1.
pose proof (InvFacts.reachable cfg utf8 det cs d f) as Hc. fold s in Hc.
destruct (SweepFacts.sweep_run cfg now s id run Hc HT Hrun) as (_ & H2 & _).
rewrite He in H2. fold s1 in H2.
assert (Hc1 : consistent cfg s1) by by apply InvFacts.cons_idleSweep.
destruct (SweepFacts.sweep_run cfg now' s1 id (reaped run) Hc1 HT H2) as (_ & H4 & H5).
rewrite SweepFacts.reaped_not_expired in H4, H5. rewrite app_nil_r in H5.
split; [congruence | exact H5].
Qed.

Lemma X4_reaper_once_witness :
  eventsOf "r1"
    (bus (idleSweep Scenario.cfg 2000000
            (idleSweep Scenario.cfg 901000
               (serveAll Scenario.cfg Scenario.utf8 Scenario.noArtifacts
                  [CAction Scenario.startWarm] Scenario.boot))))
  = eventsOf "r1"
      (bus (idleSweep Scenario.cfg 901000
              (serveAll Scenario.cfg Scenario.utf8 Scenario.noArtifacts
                 [CAction Scenario.startWarm] Scenario.boot))).
Proof.
destruct (X4_reaper_once Scenario.cfg Scenario.utf8 Scenario.noArtifacts
            [CAction Scenario.startWarm] Scenario.daemon (mkFS ∅ ∅) 901000%Z 2000000%Z
            "r1" Scenario.warmRun) as [_ H].
- reflexivity.
- vm_compute. reflexivity.
- reflexivity.
- exact H.
Defined.

(** X5: input for a registered run is written to the standard input of
    its terminal after what was written before, and it restarts the idle
    clock: a tick of the reaper earlier than the time-out after the input
    leaves the run as it is and broadcasts nothing about it. *)
Theorem X5_input_defers_reaper cfg utf8 det (cs : list Call) d f id text now now' :
  let s := serveAll cfg utf8 det cs (emptyApp d f) in
  (postInput id (Some text) now s).2 = AOk ->
  (now' - now < IDLE_TIMEOUT_SEC cfg * 1000)%Z ->
  let s1 := (postInput id (Some text) now s).1 in
  exists run run',
    runsGet s id = Some run /\ runsGet s1 id = Some run'
    /\ stdin (attachStream run') = stdin (attachStream run) ++ [text]
    /\ lastActivityAt run' = now
    /\ runsGet (idleSweep cfg now' s1) id = Some run'
    /\ eventsOf id (bus (idleSweep cfg now' s1)) = eventsOf id (bus s).
Proof.
intros s Hok Hlt s1.
pose proof (InvFacts.reachable cfg utf8 det cs d f) as Hc. fold s in Hc.
assert (Hc1 : consistent cfg s1) by by apply InvFacts.cons_postInput.
subst s1. unfold postInput in *. destruct (runsGet s id) as [run|] eqn:Hrun; [|done].
cbn [fst snd] in *.
set (run' := setActivity now (setStream (streamWrite text (attachStream run)) run)).
set (s1 := updRun id _ s) in *.
assert (H1 : runsGet s1 id = Some run').
{ apply InvFacts.runsGet_Some in Hrun as [Hin Hh]. apply InvFacts.runsGet_Some.
  split; [done|]. subst s1. cbn. by rewrite lookup_alter_eq, Hh. }
assert (Hne : idleExpired cfg now' run' = false).
{ unfold idleExpired. cbn. apply andb_false_intro2. apply Z.leb_gt. lia. }
exists run, run'. split; [done|]. split; [done|]. split; [done|]. split; [done|].
destruct (Z.ltb_spec 0 (IDLE_TIMEOUT_SEC cfg)) as [HT|HT].
- destruct (SweepFacts.sweep_run cfg now' s1 id run' Hc1 HT H1) as (_ & H2 & H3).
  rewrite Hne in H2, H3. rewrite app_nil_r in H3. split; [done|]. by rewrite H3.
- rewrite SweepFacts.idleSweep_off by done. done.
Qed.

Lemma X5_input_defers_reaper_witness :
  exists run run',
    runsGet (serveAll Scenario.cfg Scenario.utf8 Scenario.noArtifacts
               [CAction Scenario.startWarm] Scenario.boot) "r1" = Some run
    /\ runsGet (postInput "r1" (Some "ls") 500000
                  (serveAll Scenario.cfg Scenario.utf8 Scenario.noArtifacts
                     [CAction Scenario.startWarm] Scenario.boot)).1 "r1" = Some run'
    /\ stdin (attachStream run') = stdin (attachStream run) ++ ["ls"].
Proof.
destruct (X5_input_defers_reaper Scenario.cfg Scenario.utf8 Scenario.noArtifacts
            [CAction Scenario.startWarm] Scenario.daemon (mkFS ∅ ∅) "r1" "ls"
            500000%Z 901000%Z) as (run & run' & H1 & H2 & H3 & _).
- reflexivity.
- reflexivity.
- exists run, run'. split; [exact H1|]. split; [exact H2 | exact H3].
Defined.

(* --------------------------------------------------------------------- *)
(** ** Starting a run *)
(* --------------------------------------------------------------------- *)

Module StartFacts.

Lemma runsSet_get r s : runsGet (runsSet r s) (runId r) = Some r.
Proof.
apply InvFacts.runsGet_Some. split.
- cbn. destruct (runsHas s (runId r)) eqn:E.
  + by apply InvFacts.runsHas_In.
  + apply in_or_app. right. by left.
- cbn. by rewrite lookup_insert_eq.
Qed.

Lemma get_broadcast e s id : runsGet (eventsBroadcast e s) id = runsGet s id.
Proof. reflexivity. Qed.

End StartFacts.

(** X6: a start that fails registers nothing, touches no run object and
    no response, and broadcasts nothing.  When it fails one of the five
    checks on the request, the engine, the two absolute paths and the two
    allow-lists, nothing at all has changed: no directory or transcript
    was made and the daemon was not called.  The engine is checked first,
    and an engine that is not one of the three is reported by its name. *)
Theorem X6_start_failure cfg q id fileTs cid now s msg :
  (startRun cfg q id fileTs cid now s).2 = Failed msg ->
  let s' := (startRun cfg q id fileTs cid now s).1 in
  runs s' = runs s /\ heap s' = heap s /\ bus s' = bus s /\ conns s' = conns s
  /\ (startChecks cfg q = Throw msg -> s' = s)
  /\ (isEngine (q_engine q) = false -> msg = "Invalid engine: " +:+ q_engine q)
  /\ (isEngine (q_engine q) = false
      \/ Path.isAbsolute (q_workspace q) = false \/ Path.isAbsolute (q_creds q) = false
      \/ isAllowed (cwd cfg) (q_workspace q) (ALLOW_WORKSPACE_ROOTS cfg) = false
      \/ isAllowed (cwd cfg) (q_creds q) (ALLOW_CREDS_ROOTS cfg) = false ->
      s' = s).
Proof.
assert (Hbad : isEngine (q_engine q) = false
      \/ Path.isAbsolute (q_workspace q) = false \/ Path.isAbsolute (q_creds q) = false
      \/ isAllowed (cwd cfg) (q_workspace q) (ALLOW_WORKSPACE_ROOTS cfg) = false
      \/ isAllowed (cwd cfg) (q_creds q) (ALLOW_CREDS_ROOTS cfg) = false ->
      exists m, startChecks cfg q = Throw m).
{ unfold startChecks, guard. intros H.
  destruct (isEngine _); [|by eexists].
  destruct (Path.isAbsolute (q_workspace q)); [|by eexists].
  destruct (Path.isAbsolute (q_creds q)); [|by eexists]. cbn [bind].
  destruct (isAllowed _ (q_workspace q) _); [|by eexists]. cbn [bind].
  destruct (isAllowed _ (q_creds q) _); [|by eexists].
  destruct H as [H|[H|[H|[H|H]]]]; discriminate H. }
unfold startRun. destruct (startChecks cfg q) as [[]|m] eqn:Hc.
- assert (Hgood : isEngine (q_engine q) = true)
    by (by apply InvFacts.startChecks_ok in Hc as [? _]).
  destruct (if q_preferWarm q then _ else _) as [[w|]|]; [done| |].
  + destruct (Driver.run _ _); [done|]. intros [= <-].
    repeat split; try done; [congruence|].
    intros H. apply Hbad in H as [m H]. congruence.
  + intros [= <-]. repeat split; try done; [congruence|].
    intros H. apply Hbad in H as [m' H]. congruence.
- intros [= <-]. repeat split; try done.
  intros He. unfold startChecks in Hc. rewrite He in Hc. cbn [guard bind] in Hc. congruence.
Qed.

Lemma X6_start_failure_witness :
  (startRun Scenario.cfg (mkStartReq "codex" "/etc" "/cr/a" true None true)
     "r9" "ts" "c9" 1 Scenario.boot).1 = Scenario.boot.
Proof.
destruct (X6_start_failure Scenario.cfg (mkStartReq "codex" "/etc" "/cr/a" true None true)
            "r9" "ts" "c9" 1%Z Scenario.boot "workspace not under allowed roots")
  as (_ & _ & _ & _ & H & _).
- reflexivity.
- apply H. reflexivity.
Defined.

(** X7: a start that succeeds answers with the run id it was given and
    registers under it a run with the fields of the request, status
    [running], no listener, the idle clock at the time of the start and the
    transcript at [<workspace>/.runs/<engine>-<ts>.log], a file that now
    exists; one [run-started] is broadcast.  With a warm container found
    the run is an exec in that container and no container is made;
    otherwise one container is made, labelled with the run id and removed
    by the daemon when it exits. *)
Theorem X7_start_success cfg q id fileTs cid now s id' name :
  (startRun cfg q id fileTs cid now s).2 = Started id' name ->
  let s' := (startRun cfg q id fileTs cid now s).1 in
  id' = id
  /\ exists run,
       runsGet s' id = Some run
       /\ run = mkRun id (q_engine q) (q_workspace q) (q_creds q) (containerId run)
                  name "running"
                  (Path.join (Path.join (q_workspace q) ".runs")
                     (q_engine q +:+ "-" +:+ fileTs +:+ ".log"))
                  [] (mkStream [] false) (isExec run) now
       /\ is_Some (files (fs s') !! transcriptPath run)
       /\ bus s' = bus s ++ [lifecycle "run-started" run (isExec run)]
       /\ (isExec run = true ->
           q_preferWarm q = true
           /\ containers (docker s') = containers (docker s)
           /\ exists c, findWarmContainer (docker s) (mountOf q) = Ok (Some c)
                        /\ containerId run = Id c /\ name = Str.take 12 (Id c)
                        /\ execLog (docker s')
                           = execLog (docker s) ++ [(Id c, "/entrypoint.sh")])
       /\ (isExec run = false ->
           containerId run = cid
           /\ name = "adz-" +:+ q_engine q +:+ "-" +:+ fileTs +:+ "-" +:+ Str.take 8 id
           /\ execLog (docker s') = execLog (docker s)
           /\ exists c, containers (docker s') = containers (docker s) ++ [c]
                        /\ Id c = cid /\ State c = "running" /\ AutoRemove c = true
                        /\ labelled id c = true /\ isWarm c = false).
Proof.
unfold startRun. destruct (startChecks cfg q) as [[]|m] eqn:Hc; [|done].
set (tp := Path.join (Path.join (q_workspace q) ".runs")
             (q_engine q +:+ "-" +:+ fileTs +:+ ".log")).
set (s1 := withFs _ s).
assert (Hfile : is_Some (files (fs s1) !! tp)).
{ subst s1. cbn. rewrite lookup_insert_eq. by eexists. }
assert (Hfresh : forall d,
  Driver.run (mkContainer cid "created"
                (list_to_map [("adz.engine", q_engine q); ("adz.workspace", q_workspace q);
                              ("adz.creds", q_creds q); ("adz.runId", id)]) true)
             (docker s1) = Ok d ->
  execLog d = execLog (docker s)
  /\ exists c, containers d = containers (docker s) ++ [c]
               /\ Id c = cid /\ State c = "running" /\ AutoRemove c = true
               /\ labelled id c = true /\ isWarm c = false).
{ intros d. unfold Driver.run. subst s1. cbn [docker withFs].
  destruct (daemonUp (docker s)); [|done]. intros [= <-]. cbn [execLog containers].
  split; [done|]. eexists. split; [reflexivity|]. cbn [Id State AutoRemove].
  split; [done|]. split; [done|]. split; [done|]. split.
  - unfold labelled, Driver.hasLabel. cbn [Labels fst snd].
    rewrite !lookup_insert_ne by done. rewrite lookup_insert_eq. apply String.eqb_refl.
  - unfold isWarm. cbn [Labels]. rewrite !lookup_insert_ne by done. done. }
destruct (q_preferWarm q) eqn:Hp.
- destruct (findWarmContainer (docker s1) (mountOf q)) as [[w|]|] eqn:Hf; [| |done].
  + intros [= <- <-]. cbn [fst]. split; [done|]. match goal with |- context [runsSet ?r ?x] =>
      exists r; split;
      [rewrite StartFacts.get_broadcast; exact (StartFacts.runsSet_get r x)|] end.
    cbn [containerId isExec transcriptPath]. split; [done|]. split; [done|].
    split; [done|]. split; [|done]. intros _. split; [done|]. split.
    { unfold Driver.exec. cbn. by destruct (daemonUp (docker s)). }
    exists w. split; [exact Hf|]. split; [done|]. split; [done|].
    unfold findWarmContainer, Driver.listContainers in Hf. subst s1. cbn [docker withFs] in *.
    unfold Driver.exec. destruct (daemonUp (docker s)); [done | done].
  + destruct (Driver.run _ (docker s1)) as [d|] eqn:Hr; [|done].
    intros [= <- <-]. cbn [fst]. split; [done|]. match goal with |- context [runsSet ?r ?x] =>
      exists r; split;
      [rewrite StartFacts.get_broadcast; exact (StartFacts.runsSet_get r x)|] end.
    cbn [containerId isExec transcriptPath]. split; [done|]. split; [done|].
    split; [done|]. split; [done|]. intros _. split; [done|]. split; [done|].
    cbn [docker eventsBroadcast runsSet withRuns withHeap withDocker]. by apply Hfresh.
- destruct (Driver.run _ (docker s1)) as [d|] eqn:Hr; [|done].
  intros [= <- <-]. cbn [fst]. split; [done|]. match goal with |- context [runsSet ?r ?x] =>
    exists r; split;
    [rewrite StartFacts.get_broadcast; exact (StartFacts.runsSet_get r x)|] end.
  cbn [containerId isExec transcriptPath]. split; [done|]. split; [done|].
  split; [done|]. split; [done|]. intros _. split; [done|]. split; [done|].
  cbn [docker eventsBroadcast runsSet withRuns withHeap withDocker]. by apply Hfresh.
Qed.

Lemma X7_start_success_witness :
  exists run,
    runsGet (startRun Scenario.cfg Scenario.askWarm "r1" "ts" "c1" 1000 Scenario.boot).1 "r1"
    = Some run
    /\ bus (startRun Scenario.cfg Scenario.askWarm "r1" "ts" "c1" 1000 Scenario.boot).1
       = bus Scenario.boot ++ [lifecycle "run-started" run (isExec run)].
Proof.
destruct (X7_start_success Scenario.cfg Scenario.askWarm "r1" "ts" "c1" 1000%Z
            Scenario.boot "r1" "w1") as (_ & run & H1 & _ & _ & H2 & _).
- vm_compute. reflexivity.
- exists run. split; [exact H1 | exact H2].
Defined.

(* --------------------------------------------------------------------- *)
(** ** Output of a run *)
(* --------------------------------------------------------------------- *)

Module DataFacts.

Import StrFacts.

Lemma broadcasts_keep (es : list Event) s :
  runs (fold_left (fun s e => eventsBroadcast e s) es s) = runs s
  /\ heap (fold_left (fun s e => eventsBroadcast e s) es s) = heap s
  /\ fs (fold_left (fun s e => eventsBroadcast e s) es s) = fs s
  /\ docker (fold_left (fun s e => eventsBroadcast e s) es s) = docker s.
Proof.
revert s. induction es as [|e es IH]; intros s; cbn; [done|].
destruct (IH (eventsBroadcast e s)) as (H1 & H2 & H3 & H4). by rewrite H1, H2, H3, H4.
Qed.

Lemma onData_run utf8 det id chunk now s run :
  heap s !! id = Some run ->
  runs (onData utf8 det id chunk now s) = runs s
  /\ docker (onData utf8 det id chunk now s) = docker s
  /\ heap (onData utf8 det id chunk now s) !! id = Some (setActivity now run)
  /\ (forall i, i <> id -> heap (onData utf8 det id chunk now s) !! i = heap s !! i)
  /\ fs (onData utf8 det id chunk now s)
     = appendFile (fs s) (transcriptPath run) chunk.
Proof.
intros H. unfold onData. rewrite H.
destruct (broadcasts_keep
            (artifactEvents det run (utf8 chunk))
            (forEachRes (sendChunk chunk) (listeners run)
               (withFs (appendFile (fs (updRun id (setActivity now) s))
                          (transcriptPath run) chunk)
                  (updRun id (setActivity now) s)))) as (H1 & H2 & H3 & H4).
rewrite H1, H2, H3, H4. cbn. split; [done|]. split; [done|].
split; [by rewrite lookup_alter_eq, H|]. split; [|done].
intros i Hi. by rewrite lookup_alter_ne.
Qed.

Lemma last_cons_any {A} (x : A) l d d' : List.last (x :: l) d = List.last (x :: l) d'.
Proof.
revert x. induction l as [|y l IH]; intros x; [done|].
change (List.last (y :: l) d = List.last (y :: l) d'). apply IH.
Qed.

End DataFacts.

(** X8: the output of a run goes to its transcript in the order it
    arrives: after the chunks of a running run its transcript holds what
    it held before followed by the chunks, one after the other; the
    registry and the daemon are as before, the run is still running, and
    its idle clock shows the time of the last chunk. *)
Theorem X8_transcript_chunks cfg utf8 det id run (chunks : list (string * Z)) s :
  heap s !! id = Some run -> status run = "running" ->
  let s' := replay cfg utf8 det (List.map (fun ct => AData id ct.1 ct.2) chunks) s in
  default "" (files (fs s') !! transcriptPath run)
  = default "" (files (fs s) !! transcriptPath run)
    +:+ String.concat "" (List.map fst chunks)
  /\ runs s' = runs s /\ docker s' = docker s
  /\ heap s' !! id
     = Some (setActivity (List.last (List.map snd chunks) (lastActivityAt run)) run).
Proof.
intros H _. revert s run H. induction chunks as [|[c t] chunks IH]; intros s run H.
- cbn. rewrite H. split; [by rewrite StrFacts.app_nil_r|]. by destruct run.
- cbn [List.map replay fold_left step fst snd].
  destruct (DataFacts.onData_run utf8 det id c t s run H) as (H1 & H2 & H3 & _ & H5).
  specialize (IH (onData utf8 det id c t s) (setActivity t run) H3).
  cbn [transcriptPath setActivity] in IH. unfold replay in IH.
  destruct IH as (I1 & I2 & I3 & I4). rewrite I1, I2, I3, I4, H1, H2, H5.
  split; [|split; [done|split; [done|]]].
  + cbn [files appendFile]. rewrite lookup_insert_eq. cbn [default].
    destruct chunks as [|[c' t'] chunks]; cbn [List.map String.concat fst].
    * by rewrite !StrFacts.app_nil_r.
    * cbn. by rewrite StrFacts.app_assoc.
  + f_equal. cbn [lastActivityAt setActivity List.map snd].
    destruct (List.map snd chunks) as [|t' ts]; [done|].
    unfold setActivity. cbn. f_equal. apply (DataFacts.last_cons_any t' ts).
Qed.

Lemma X8_transcript_chunks_witness :
  default ""
    (files (fs (replay Scenario.cfg Scenario.utf8 Scenario.noArtifacts
                  [AData "r1" "he" 1001; AData "r1" "llo" 1002]
                  (Scenario.run [Scenario.startWarm])))
     !! "/ws/a/.runs/codex-ts.log")
  = "hello".
Proof.
destruct (X8_transcript_chunks Scenario.cfg Scenario.utf8 Scenario.noArtifacts "r1"
            Scenario.warmRun [("he", 1001%Z); ("llo", 1002%Z)]
            (Scenario.run [Scenario.startWarm])) as [H _].
- vm_compute. reflexivity.
- reflexivity.
- exact H.
Defined.



(* --------------------------------------------------------------------- *)
(** ** Paths below a directory *)
(* --------------------------------------------------------------------- *)

Module JoinFacts.

Import Str StrFacts Path.

#[local] Arguments String.append !_ _ / : simpl nomatch.
#[local] Arguments ascii_dec : simpl never.

Lemma split_app_sep c a b : split c (a +:+ String c b) = split c a ++ split c b.
Proof.
induction a as [|d a IH]; simpl.
- by rewrite Ascii.eqb_refl.
- destruct (Ascii.eqb d c); [by rewrite IH|]. rewrite IH.
  pose proof (SSEFacts.split_nonempty c a). by destruct (split c a).
Qed.

Lemma split_one c b : free c b = true -> split c b = [b].
Proof.
induction b as [|d b IH]; [done|]. unfold free. simpl. intros H.
apply andb_true_iff in H as [Hd Hb]. apply negb_true_iff in Hd. rewrite Hd.
by rewrite (IH Hb).
Qed.

Lemma endsWith_clean x b : cleanSeg b -> endsWith (x +:+ b) "/" = false.
Proof.
intros (Hne & _ & _ & Hf). unfold endsWith. rewrite rev_app.
assert (Hr : free SLASH (rev b) = true) by (unfold free; by rewrite all_rev).
assert (Hl : rev b <> "").
{ intros E. apply Hne. rewrite <- (rev_involutive b), E. reflexivity. }
destruct (rev b) as [|d w]; [done|]. unfold free in Hr. simpl in Hr.
apply andb_true_iff in Hr as [Hd _]. apply negb_true_iff in Hd.
change (rev "/") with "/". simpl.
destruct (ascii_dec _ d) as [E|]; [|done]. subst d. by rewrite Ascii.eqb_refl in Hd.
Qed.

Lemma join_clean_ne (l : list string) b : cleanSeg b -> Forall cleanSeg l ->
  Str.join "/" (l ++ [b]) <> "".
Proof.
intros Hb Hl. destruct l as [|x l].
- cbn. apply Hb.
- apply Forall_cons in Hl as [Hx _]. cbn [app].
  destruct (PathFacts.join_cons x (l ++ [b])) as [w ->].
  destruct x as [|c x]; [by destruct Hx|]. done.
Qed.

(** [path.join] of an absolute directory and a name. *)
Lemma join_abs cwd a b :
  isAbsolute a = true -> cleanSeg b ->
  Path.join a b = ofSegs (resolveSegs cwd a ++ [b]).
Proof.
intros Ha Hb. unfold Path.join.
destruct (String.eqb_spec a ""); [by subst|].
destruct (String.eqb_spec b ""); [by destruct Hb|].
unfold normalize.
assert (Hp : isAbsolute (a +:+ "/" +:+ b) = true) by (destruct a; done).
destruct (String.eqb_spec (a +:+ "/" +:+ b) ""); [by destruct a|]. rewrite Hp.
rewrite <- app_assoc, endsWith_clean by done. rewrite app_assoc.
change ("/" +:+ b) with (String SLASH b). rewrite split_app_sep.
rewrite (split_one _ b) by apply Hb.
unfold normalizeSegs. rewrite fold_left_app. cbn [fold_left negb].
rewrite PathFacts.pushSeg_keep by done. cbn [List.rev].
assert (Hs : List.rev (fold_left (pushSeg false) (split SLASH a) []) = resolveSegs cwd a).
{ unfold resolveSegs, normalizeSegs. by rewrite Ha. }
rewrite Hs.
destruct (String.eqb_spec (Str.join "/" (resolveSegs cwd a ++ [b])) "") as [E|_].
- exfalso. revert E. apply join_clean_ne; [done | apply PathFacts.resolveSegs_clean].
- reflexivity.
Qed.

Lemma clean_snoc (l : list string) b :
  Forall cleanSeg l -> cleanSeg b -> Forall cleanSeg (l ++ [b]).
Proof. intros Hl Hb. apply Forall_app. split; [done|]. by apply Forall_cons. Qed.

Lemma resolveSegs_join cwd a b :
  isAbsolute a = true -> cleanSeg b ->
  resolveSegs cwd (Path.join a b) = resolveSegs cwd a ++ [b].
Proof.
intros Ha Hb. rewrite (join_abs cwd) by done. apply PathFacts.resolveSegs_ofSegs.
apply clean_snoc; [apply PathFacts.resolveSegs_clean | done].
Qed.

Lemma resolve_join cwd a b :
  isAbsolute a = true -> cleanSeg b -> resolve cwd (Path.join a b) = Path.join a b.
Proof.
intros Ha Hb. unfold resolve. rewrite resolveSegs_join by done.
symmetry. by apply join_abs.
Qed.

Lemma isAbsolute_join a b :
  isAbsolute a = true -> cleanSeg b -> isAbsolute (Path.join a b) = true.
Proof. intros Ha Hb. by rewrite (join_abs "/"). Qed.

End JoinFacts.

(* --------------------------------------------------------------------- *)
(** ** Files of a workspace *)
(* --------------------------------------------------------------------- *)

Module FileFacts.

Import Str StrFacts.

#[local] Arguments String.append !_ _ / : simpl nomatch.

Lemma clean_runs : cleanSeg ".runs".
Proof. by repeat split. Qed.

Lemma clean_env : cleanSeg ".env".
Proof. by repeat split. Qed.

(** The name of a transcript is one segment of a path. *)
Lemma clean_log eng ts :
  isEngine eng = true -> free Path.SLASH ts = true ->
  cleanSeg (eng +:+ "-" +:+ ts +:+ ".log").
Proof.
intros He Hts.
assert (Hf : free Path.SLASH (eng +:+ "-" +:+ ts +:+ ".log") = true).
{ unfold free in *. rewrite !all_app, Hts.
  apply isEngine_cases in He as [->|[->| ->]]; reflexivity. }
apply isEngine_cases in He as [->|[->| ->]]; by repeat split.
Qed.

(** What passes the guard of the download lies strictly below the
    workspace. *)
Lemma guard_descendant cwd abs ws :
  Path.isAbsolute ws = true ->
  negb (isSubPath cwd abs ws) && negb (String.eqb abs (Path.join ws ".runs")) = false ->
  strictDescendant cwd abs ws.
Proof.
intros Hws H. apply andb_false_iff in H as [H|H]; apply negb_false_iff in H.
- apply PathFacts.isSubPath_spec in H as (seg & rest & H & _). by exists (seg :: rest).
- apply String.eqb_eq in H. subst abs. exists [".runs"]. split; [done|].
  apply JoinFacts.resolveSegs_join; [done | apply clean_runs].
Qed.

End FileFacts.

(** X10: the download of [GET /runs/:id/file] serves only what lies
    strictly below the workspace of the run.  In every reachable state, a
    path that is answered with a file, or found to be a directory, resolves
    to a strict descendant of the workspace, and the file served is the one
    at the resolved path; a path that resolves to anything else, the
    workspace itself included, is answered 400. *)
Theorem X10_download_confined cfg utf8 det (cs : list Call) d f id p run :
  let s := serveAll cfg utf8 det cs (emptyApp d f) in
  runsGet s id = Some run -> Str.truthy p = true ->
  (forall content, getFile cfg id p s = AFile content ->
     strictDescendant (cwd cfg) (Path.resolve (cwd cfg) p) (workspace run)
     /\ files (fs s) !! Path.resolve (cwd cfg) p = Some content)
  /\ (getFile cfg id p s = AUnreadable ->
      strictDescendant (cwd cfg) (Path.resolve (cwd cfg) p) (workspace run))
  /\ (~ strictDescendant (cwd cfg) (Path.resolve (cwd cfg) p) (workspace run) ->
      getFile cfg id p s = ABad "path outside workspace").
Proof.
intros s Hrun Hp.
destruct (InvFacts.reachable cfg utf8 det cs d f) as (_ & _ & Hobj). fold s in Hobj.
pose proof Hrun as Hget. apply InvFacts.runsGet_Some in Hrun as [_ Hh].
destruct (Hobj _ _ Hh) as [_ (_ & Hws & _)].
unfold getFile. rewrite Hget, Hp. cbn [negb].
destruct (negb (isSubPath _ _ _) && negb (String.eqb _ _)) eqn:Hg.
- split; [done|]. split; [done|]. done.
- apply FileFacts.guard_descendant in Hg; [|done]. split; [|split; [|done]].
  + intros content. destruct (files (fs s) !! _) as [c|]; [by intros [= <-]|].
    by destruct (dirents (fs s) !! _).
  + done.
Qed.

Lemma X10_download_confined_witness :
  getFile Scenario.cfg "r1" "/ws/a/../b/x"
    (serveAll Scenario.cfg Scenario.utf8 Scenario.noArtifacts
       [CAction Scenario.startWarm] Scenario.boot)
  = ABad "path outside workspace".
Proof.
destruct (X10_download_confined Scenario.cfg Scenario.utf8 Scenario.noArtifacts
            [CAction Scenario.startWarm] Scenario.daemon (mkFS ∅ ∅) "r1"
            "/ws/a/../b/x" Scenario.warmRun) as (_ & _ & H).
- vm_compute. reflexivity.
- reflexivity.
- apply H. intros (rest & _ & E). vm_compute in E. discriminate E.
Defined.

Module StartFileFacts.

Lemma start_ok cfg q id fileTs cid now s id' name :
  (startRun cfg q id fileTs cid now s).2 = Started id' name ->
  let tp := Path.join (Path.join (q_workspace q) ".runs")
              (q_engine q +:+ "-" +:+ fileTs +:+ ".log") in
  startChecks cfg q = Ok tt
  /\ fs (startRun cfg q id fileTs cid now s).1
     = appendFile (ensureDir (Path.join (q_workspace q) ".runs") (fs s)) tp ""
  /\ exists c ex,
       runsGet (startRun cfg q id fileTs cid now s).1 id
       = Some (mkRun id (q_engine q) (q_workspace q) (q_creds q) c name "running" tp []
                 (mkStream [] false) ex now).
Proof.
unfold startRun. destruct (startChecks cfg q) as [[]|m] eqn:Hc; [|done].
destruct (if q_preferWarm q then _ else _) as [[w|]|]; [| |done].
- intros [= <- <-]. split; [done|]. split; [done|]. eexists _, _. cbn [fst].
  rewrite StartFacts.get_broadcast. apply (StartFacts.runsSet_get (mkRun _ _ _ _ _ _ _ _ _ _ _ _)).
- destruct (Driver.run _ _); [|done].
  intros [= <- <-]. split; [done|]. split; [done|]. eexists _, _. cbn [fst].
  rewrite StartFacts.get_broadcast. apply (StartFacts.runsSet_get (mkRun _ _ _ _ _ _ _ _ _ _ _ _)).
Qed.

End StartFileFacts.

(** X11: the transcript of a run that was started can be downloaded.
    When the time stamp in the name has no slash, as the one of
    [tsForFile] has none, the transcript lies two levels below the
    workspace, at [.runs/<engine>-<ts>.log], and [GET /runs/:id/file] with
    the transcript path answers with the file, which right after the start
    holds what a transcript of that name held before. *)
Theorem X11_transcript_download cfg q id fileTs cid now s id' name :
  (startRun cfg q id fileTs cid now s).2 = Started id' name ->
  Str.free Path.SLASH fileTs = true ->
  let s' := (startRun cfg q id fileTs cid now s).1 in
  let log := q_engine q +:+ "-" +:+ fileTs +:+ ".log" in
  let tp := Path.join (Path.join (q_workspace q) ".runs") log in
  Path.resolveSegs (cwd cfg) tp = Path.resolveSegs (cwd cfg) (q_workspace q) ++ [".runs"; log]
  /\ Path.resolve (cwd cfg) tp = tp
  /\ getFile cfg id tp s' = AFile (default "" (files (fs s) !! tp)).
Proof.
intros Hs Hts s' log tp.
destruct (StartFileFacts.start_ok _ _ _ _ _ _ _ _ _ Hs) as (Hc & Hfs & c & ex & Hrun).
fold s' in Hfs, Hrun. fold log in Hfs, Hrun. fold tp in Hfs, Hrun.
apply InvFacts.startChecks_ok in Hc as (He & Hws & _).
pose proof (FileFacts.clean_log _ _ He Hts) as Hlog. fold log in Hlog.
pose proof (JoinFacts.isAbsolute_join _ _ Hws FileFacts.clean_runs) as Habs.
assert (Hsegs : Path.resolveSegs (cwd cfg) tp
                = Path.resolveSegs (cwd cfg) (q_workspace q) ++ [".runs"; log]).
{ subst tp. rewrite JoinFacts.resolveSegs_join by done.
  rewrite JoinFacts.resolveSegs_join by (done || apply FileFacts.clean_runs).
  by rewrite <- List.app_assoc. }
assert (Hres : Path.resolve (cwd cfg) tp = tp) by by apply JoinFacts.resolve_join.
split; [done|]. split; [done|].
unfold getFile. rewrite Hrun. cbn [workspace].
assert (Htr : Str.truthy tp = true).
{ pose proof (JoinFacts.isAbsolute_join _ _ Habs Hlog) as H. fold tp in H. by destruct tp. }
rewrite Htr, Hres. cbn [negb].
assert (Hsub : isSubPath (cwd cfg) tp (q_workspace q) = true).
{ apply PathFacts.isSubPath_spec. exists ".runs", [log]. by split. }
rewrite Hsub. cbn [negb andb]. rewrite Hfs. cbn [files appendFile].
rewrite lookup_insert_eq. f_equal. cbn [ensureDir files]. apply StrFacts.app_nil_r.
Qed.

Lemma X11_transcript_download_witness :
  getFile Scenario.cfg "r1" "/ws/a/.runs/codex-ts.log"
    (startRun Scenario.cfg Scenario.askWarm "r1" "ts" "c1" 1000 Scenario.boot).1
  = AFile "".
Proof.
destruct (X11_transcript_download Scenario.cfg Scenario.askWarm "r1" "ts" "c1" 1000%Z
            Scenario.boot "r1" "w1") as (_ & _ & H).
- vm_compute. reflexivity.
- reflexivity.
- exact H.
Defined.

(* --------------------------------------------------------------------- *)
(** ** The credentials routes *)
(* --------------------------------------------------------------------- *)

Module CredsFacts.

Import Str StrFacts.

#[local] Arguments String.append !_ _ / : simpl nomatch.

Lemma resolve_idem cwd p : Path.resolve cwd (Path.resolve cwd p) = Path.resolve cwd p.
Proof. unfold Path.resolve at 1 3. by rewrite PathFacts.resolveSegs_idem. Qed.

(** A path the guard accepts has the segments of a root at its start. *)
Lemma allowed_below cwd p roots :
  isAllowed cwd p roots = true ->
  exists root rest, In root roots
    /\ Path.resolveSegs cwd p = Path.resolveSegs cwd root ++ rest.
Proof.
intros H. apply isAllowed_sound in H as (root & Hin & [H|(rest & _ & H)]).
- exists root, []. split; [done|]. rewrite List.app_nil_r. rewrite <- H.
  by rewrite PathFacts.resolveSegs_idem.
- exists root, rest. split; [done|]. by rewrite PathFacts.resolveSegs_idem in H.
Qed.

Lemma fold_map_init (ls : list string) env :
  fold_left Creds.parseLine (map_init chopCR ls) env = fold_left Creds.parseLine ls env.
Proof.
revert env. induction ls as [|x ls IH]; intros env; [done|].
destruct ls as [|y ls]; [done|].
change (map_init chopCR (x :: y :: ls)) with (chopCR x :: map_init chopCR (y :: ls)).
cbn [fold_left]. rewrite EnvFacts.parseLine_chopCR. apply IH.
Qed.

Lemma parse_lines text : Creds.parseDotEnv text = fold_left Creds.parseLine (split LF text) ∅.
Proof. unfold Creds.parseDotEnv, splitLines. apply fold_map_init. Qed.

Lemma parse_append text line :
  free LF line = true ->
  Creds.parseDotEnv (text +:+ NL +:+ line) = Creds.parseLine (Creds.parseDotEnv text) line.
Proof.
intros Hl. rewrite !parse_lines. change (NL +:+ line) with (String LF line).
rewrite JoinFacts.split_app_sep, (JoinFacts.split_one _ line) by done.
by rewrite fold_left_app.
Qed.

Lemma written_back objectKeys f credsPath (updates : gmap string string) k v :
  keysSpec objectKeys ->
  (forall k v, updates !! k = Some v -> keyOk k /\ valOk v) ->
  updates !! k = Some v ->
  Creds.readCredsEnv (Creds.writeCredsEnv objectKeys f credsPath updates).1 credsPath !! k
  = Some v.
Proof.
intros Hkeys Hok Hu. rewrite EnvFacts.read_after_write.
rewrite (EnvFacts.parse_serialize objectKeys _ Hkeys) with (v := v).
- f_equal. apply EnvFacts.stripQuotes_ok. by destruct (Hok k v Hu).
- intros k' v' Hkv. apply lookup_union_Some_raw in Hkv.
  destruct Hkv as [Hu' | [_ Hc]].
  + destruct (Hok k' v' Hu') as [Hk (Hv & _)]. done.
  + by apply (EnvFacts.readCredsEnv_parsed f credsPath).
- by apply lookup_union_Some_l.
Qed.

End CredsFacts.

(* --------------------------------------------------------------------- *)
(** ** Directory listings *)
(* --------------------------------------------------------------------- *)

Module FsFacts.

Lemma addEntry_other dir name (d : gmap string (list string)) p :
  p <> dir -> addEntry dir name d !! p = d !! p.
Proof.
intros Hp. unfold addEntry. destruct (d !! dir) as [ent|]; [|done].
destruct (existsb _ ent); [done|]. rewrite lookup_insert_ne; [done|].
intros E. by apply Hp.
Qed.

(** A listing only grows. *)
Lemma addEntry_grow dir name (d : gmap string (list string)) p ent :
  d !! p = Some ent -> exists more, addEntry dir name d !! p = Some (ent ++ more).
Proof.
intros H. unfold addEntry. destruct (d !! dir) as [e|] eqn:Hd.
- destruct (existsb _ e).
  + exists []. by rewrite List.app_nil_r.
  + destruct (decide (dir = p)) as [E|Hne].
    * subst p. rewrite lookup_insert_eq. exists [name]. congruence.
    * rewrite lookup_insert_ne by done. exists []. by rewrite List.app_nil_r.
- exists []. by rewrite List.app_nil_r.
Qed.

Lemma addEntry_in dir name (d : gmap string (list string)) ent :
  d !! dir = Some ent ->
  exists ent', addEntry dir name d !! dir = Some ent' /\ In name ent'.
Proof.
intros H. unfold addEntry. rewrite H.
destruct (existsb (String.eqb name) ent) eqn:E.
- exists ent. split; [done|]. apply existsb_exists in E as (x & Hin & Hx).
  apply String.eqb_eq in Hx. by subst.
- rewrite lookup_insert_eq. exists (ent ++ [name]). split; [done|].
  apply in_or_app. right. by left.
Qed.

(** [mkdirs] touches the listings of the directories on the way only. *)
Lemma mkdirs_other segs : forall pre d p,
  (forall n, p <> Path.ofSegs (pre ++ List.firstn n segs)) ->
  mkdirs pre segs d !! p = d !! p.
Proof.
induction segs as [|x rest IH]; intros pre d p Hp; [done|].
cbn [mkdirs]. rewrite IH.
- destruct (d !! Path.ofSegs (pre ++ [x])); [done|].
  rewrite lookup_insert_ne.
  + apply addEntry_other. specialize (Hp 0%nat). cbn [List.firstn] in Hp.
    by rewrite List.app_nil_r in Hp.
  + intros E. by apply (Hp 1%nat).
- intros n. specialize (Hp (S n)). cbn [List.firstn] in Hp.
  by rewrite <- List.app_assoc.
Qed.

Lemma mkdirs_grow segs : forall pre d p ent,
  d !! p = Some ent -> exists more, mkdirs pre segs d !! p = Some (ent ++ more).
Proof.
induction segs as [|x rest IH]; intros pre d p ent H.
- exists []. by rewrite List.app_nil_r.
- cbn [mkdirs]. destruct (d !! Path.ofSegs (pre ++ [x])) eqn:Hd.
  + by apply IH.
  + destruct (addEntry_grow (Path.ofSegs pre) x d p ent H) as [m1 H1].
    assert (Hne : Path.ofSegs (pre ++ [x]) <> p) by (intros E; rewrite E in Hd; congruence).
    destruct (IH (pre ++ [x])
                (<[Path.ofSegs (pre ++ [x]) := []]> (addEntry (Path.ofSegs pre) x d))
                p (ent ++ m1)) as [m2 H2].
    { by rewrite lookup_insert_ne. }
    exists (m1 ++ m2). by rewrite List.app_assoc.
Qed.

(** Every directory on the way can be listed afterwards. *)
Lemma mkdirs_listed segs : forall pre d n, (n < length segs)%nat ->
  is_Some (mkdirs pre segs d !! Path.ofSegs (pre ++ List.firstn (S n) segs)).
Proof.
induction segs as [|x rest IH]; intros pre d n Hn; [cbn in Hn; lia|].
cbn [mkdirs].
set (d' := match d !! Path.ofSegs (pre ++ [x]) with
           | Some _ => d
           | None => <[Path.ofSegs (pre ++ [x]) := []]> (addEntry (Path.ofSegs pre) x d)
           end).
destruct n as [|n].
- assert (H : is_Some (d' !! Path.ofSegs (pre ++ [x]))).
  { subst d'. destruct (d !! Path.ofSegs (pre ++ [x])) eqn:Hd;
      [by rewrite Hd | by rewrite lookup_insert_eq]. }
  destruct H as [ent H].
  destruct (mkdirs_grow rest (pre ++ [x]) d' _ ent H) as [more Hm].
  change (List.firstn 1 (x :: rest)) with [x]. by rewrite Hm.
- cbn [length] in Hn.
  replace (pre ++ List.firstn (S (S n)) (x :: rest))
    with ((pre ++ [x]) ++ List.firstn (S n) rest)
    by (cbn [List.firstn]; by rewrite <- List.app_assoc).
  apply IH. lia.
Qed.

(** A directory that was missing is entered in the one above it, when
    that one can be listed. *)
Lemma mkdirs_entered x rest pre d ent :
  d !! Path.ofSegs (pre ++ [x]) = None ->
  d !! Path.ofSegs pre = Some ent ->
  exists ent', mkdirs pre (x :: rest) d !! Path.ofSegs pre = Some ent' /\ In x ent'.
Proof.
intros Hd Hp. cbn [mkdirs]. rewrite Hd.
destruct (addEntry_in (Path.ofSegs pre) x d ent Hp) as (e1 & H1 & Hin).
assert (Hne : Path.ofSegs (pre ++ [x]) <> Path.ofSegs pre)
  by (intros E; rewrite E in Hd; congruence).
destruct (mkdirs_grow rest (pre ++ [x])
            (<[Path.ofSegs (pre ++ [x]) := []]> (addEntry (Path.ofSegs pre) x d))
            (Path.ofSegs pre) e1) as [more Hm].
{ by rewrite lookup_insert_ne. }
exists (e1 ++ more). split; [done|]. apply in_or_app. by left.
Qed.

(** The file [.env] of the directory [abs]: the path is entered in the
    listing of [abs]. *)
Lemma link_env cwd p d :
  link (Path.join (Path.resolve cwd p) ".env") d
  = addEntry (Path.resolve cwd p) ".env" d.
Proof.
unfold link. rewrite JoinFacts.resolveSegs_join; [|done | apply FileFacts.clean_env].
unfold Path.resolve at 1.
rewrite PathFacts.resolveSegs_ofSegs by apply PathFacts.resolveSegs_clean.
rewrite List.rev_app_distr. cbn [List.rev app]. by rewrite List.rev_involutive.
Qed.

Lemma segs_resolve cwd p :
  Path.resolveSegs "/" (Path.resolve cwd p) = Path.resolveSegs cwd p.
Proof.
unfold Path.resolve.
apply PathFacts.resolveSegs_ofSegs, PathFacts.resolveSegs_clean.
Qed.

End FsFacts.

(** X12: [POST /creds/write-env] writes one file, below an allowed root.
    A request without updates or path, or with a path that resolves
    outside the allowed roots, is answered 400 and the file system is as
    before.  Any other request is answered 200: the credentials path
    resolves to an allowed root or below one, the file written is [.env]
    directly in that directory, and no other file has changed.  The
    directory and every directory above it can be listed afterwards, the
    directory lists [.env], no listing has lost an entry, and the
    listings of all other directories are as before. *)
Theorem X12_write_env_confined objectKeys cfg f credsParam updates :
  let out := postWriteEnv objectKeys cfg f credsParam updates in
  let abs := Path.resolve (cwd cfg) credsParam in
  let segs := Path.resolveSegs (cwd cfg) credsParam in
  (updates = None \/ credsParam = ""
   \/ isAllowed (cwd cfg) abs (ALLOW_CREDS_ROOTS cfg) = false ->
   out.1 = f /\ exists msg, out.2 = CBad msg)
  /\ (forall ks, out.2 = CWritten ks ->
      (exists root rest, In root (ALLOW_CREDS_ROOTS cfg)
         /\ Path.resolveSegs (cwd cfg) (Path.join abs ".env")
            = Path.resolveSegs (cwd cfg) root ++ rest ++ [".env"])
      /\ is_Some (files out.1 !! Path.join abs ".env")
      /\ (forall p, p <> Path.join abs ".env" -> files out.1 !! p = files f !! p)
      /\ (forall n, (n < length segs)%nat ->
            is_Some (dirents out.1 !! Path.ofSegs (List.firstn (S n) segs)))
      /\ (segs <> [] -> exists ent, dirents out.1 !! abs = Some ent /\ In ".env" ent)
      /\ (forall p ent, dirents f !! p = Some ent ->
            exists more, dirents out.1 !! p = Some (ent ++ more))
      /\ (forall p, (forall n, p <> Path.ofSegs (List.firstn n segs)) ->
            dirents out.1 !! p = dirents f !! p))
  /\ ((exists msg, out.2 = CBad msg) \/ (exists ks, out.2 = CWritten ks)).
Proof.
intros out abs segs. subst out. unfold postWriteEnv.
destruct updates as [u|]; [|split; [by eauto|split; [done|by eauto]]].
destruct (Str.truthy credsParam) eqn:Ht; cbn [negb];
  [|split; [by eauto|split; [done|by eauto]]]. fold abs.
destruct (isAllowed (cwd cfg) abs (ALLOW_CREDS_ROOTS cfg)) eqn:Ha; cbn [negb];
  [|split; [by eauto|split; [done|by eauto]]].
split; [|split; [|by eauto]].
{ intros [H|[H|H]]; [done| |done]. subst credsParam. done. }
intros ks _. cbn [fst snd Creds.writeCredsEnv writeFile files dirents ensureDir].
pose proof (FsFacts.link_env (cwd cfg) credsParam) as Hl. fold abs in Hl.
pose proof (FsFacts.segs_resolve (cwd cfg) credsParam) as Hsg. fold abs segs in Hsg.
rewrite !Hl, Hsg.
assert (Habs : abs = Path.ofSegs (List.firstn (length segs) segs))
  by (by rewrite List.firstn_all).
split; [|split; [|split; [|split; [|split; [|split]]]]].
- apply CredsFacts.allowed_below in Ha as (root & rest & Hin & Hs).
  exists root, rest. split; [done|].
  rewrite JoinFacts.resolveSegs_join; [|done | apply FileFacts.clean_env].
  unfold abs at 1. rewrite PathFacts.resolveSegs_idem.
  unfold abs in Hs. rewrite PathFacts.resolveSegs_idem in Hs.
  by rewrite Hs, <- List.app_assoc.
- rewrite lookup_insert_eq. by eexists.
- intros p Hp. by rewrite lookup_insert_ne.
- intros n Hn. destruct (FsFacts.mkdirs_listed segs [] (dirents f) n Hn) as [ent He].
  cbn [app] in He.
  destruct (FsFacts.addEntry_grow abs ".env" _ _ ent He) as [more Hm]. by rewrite Hm.
- intros Hne.
  assert (Hlen : (length segs <> 0)%nat) by (by destruct segs).
  destruct (FsFacts.mkdirs_listed segs [] (dirents f) (Nat.pred (length segs)))
    as [ent He]; [lia|].
  cbn [app] in He.
  replace (S (Nat.pred (length segs))) with (length segs) in He by lia.
  rewrite <- Habs in He.
  by apply FsFacts.addEntry_in with (ent := ent).
- intros p ent Hp.
  destruct (FsFacts.mkdirs_grow segs [] (dirents f) p ent Hp) as [m1 H1].
  destruct (FsFacts.addEntry_grow abs ".env" _ p (ent ++ m1) H1) as [m2 H2].
  exists (m1 ++ m2). by rewrite List.app_assoc.
- intros p Hp. rewrite FsFacts.addEntry_other by (rewrite Habs; apply Hp).
  by apply FsFacts.mkdirs_other.
Qed.

(** A first write for a credentials directory that does not exist yet:
    the directory is made below the allowed root, with its parent, and
    lists the one file written. *)
Lemma X12_write_env_confined_witness :
  let out := postWriteEnv Creds.keysOf Scenario.cfg (mkFS ∅ {[ "/cr" := ["a"] ]})
               "/cr/new/sub/" (Some {[ "OPENAI_API_KEY" := "sk-2" ]}) in
  out.2 = CWritten ["OPENAI_API_KEY"]
  /\ dirents out.1 !! "/cr" = Some ["a"; "new"]
  /\ dirents out.1 !! "/cr/new" = Some ["sub"]
  /\ (exists ent, dirents out.1 !! "/cr/new/sub" = Some ent /\ In ".env" ent)
  /\ dirents out.1 !! "/ws" = None.
Proof.
cbv zeta.
destruct (X12_write_env_confined Creds.keysOf Scenario.cfg (mkFS ∅ {[ "/cr" := ["a"] ]})
            "/cr/new/sub/" (Some {[ "OPENAI_API_KEY" := "sk-2" ]})) as (_ & H & _).
destruct (H ["OPENAI_API_KEY"]) as (_ & _ & _ & _ & Hin & _ & Hfr);
  [vm_compute; reflexivity|].
split; [vm_compute; reflexivity|]. split; [vm_compute; reflexivity|].
split; [vm_compute; reflexivity|]. split.
- apply Hin. vm_compute. discriminate.
- etransitivity; [apply Hfr | reflexivity].
  intros [|[|[|[|n]]]]; vm_compute; discriminate.
Defined.

(** X13: the [.env] parser reads line by line, and a later line wins.
    Parsing a text followed by a line feed and one more line gives what
    the loop body makes of the parse of the text and that line: a blank
    line or a comment changes nothing, a line without [=] changes
    nothing, and a line [key=value] binds the key to the value, replacing
    an earlier binding. *)
Theorem X13_parse_last_line_wins text line :
  Str.free Str.LF line = true ->
  Creds.parseDotEnv (text +:+ NL +:+ line)
  = Creds.parseLine (Creds.parseDotEnv text) line
  /\ (Str.trim line = "" \/ Str.startsWith (Str.trim line) "#" = true
      \/ Str.free "="%char line = true ->
      Creds.parseDotEnv (text +:+ NL +:+ line) = Creds.parseDotEnv text)
  /\ (forall k v, line = k +:+ "=" +:+ v -> keyOk k -> valOk v ->
      Creds.parseDotEnv (text +:+ NL +:+ line) = <[k := v]> (Creds.parseDotEnv text)).
Proof.
intros Hl. rewrite CredsFacts.parse_append by done. split; [done|]. split.
- intros H. unfold Creds.parseLine. destruct H as [H|[H|H]].
  + by rewrite H.
  + rewrite H. by rewrite orb_true_r.
  + destruct (negb _ || _); [done|].
    assert (Hf : Str.free "="%char (Str.trim line) = true) by by apply StrFacts.all_trim.
    apply StrFacts.indexOf_free in Hf. by rewrite Hf.
- intros k v -> (Hk & Hp & _) Hv. rewrite EnvFacts.parseLine_entry by done.
  rewrite EnvFacts.stripQuotes_ok by done. unfold Creds.setProp.
  apply String.eqb_neq in Hp. by rewrite Hp.
Qed.

Lemma X13_parse_last_line_wins_witness :
  Creds.parseDotEnv ("A=1" +:+ NL +:+ "A=2") = <[ "A" := "2" ]> (Creds.parseDotEnv "A=1").
Proof.
destruct (X13_parse_last_line_wins "A=1" "A=2") as (_ & _ & H).
- reflexivity.
- apply (H "A" "2"); [reflexivity | by repeat split | by repeat split].
Defined.

Module ReadinessFacts.

Lemma readiness_fields cwd roots f eng credsPath r env :
  Creds.checkReadiness cwd roots f eng credsPath = Ok (r, env) ->
  (Creds.ready r = true <-> Creds.reasons r = [])
  /\ List.length (Creds.reasons r) <= 1
  /\ (forall k, In k (Creds.envKeys r) -> keySet env k)
  /\ List.length (Creds.envKeys r) <= 1
  /\ List.map fst (Creds.dirs r)
     = (if String.eqb eng "gemini" then ["gemini"; "gcloud"] else [eng])
  /\ (forall sub b, In (sub, b) (Creds.dirs r) ->
        (b = true <-> subdirNonEmpty f credsPath sub))
  /\ Creds.vertexPossible r
     = (if String.eqb eng "gemini"
        then Some (Creds.dirNonEmpty f (Path.join credsPath "gcloud")) else None).
Proof.
unfold Creds.checkReadiness.
destruct (isEngine eng) eqn:He; [|done]. cbn [guard bind].
destruct (isAllowed cwd credsPath roots); [|done]. cbn [guard bind].
set (E := Creds.readCredsEnv f credsPath).
assert (Hhas : forall k, Str.truthy (default "" (E !! k)) = true -> keySet E k).
{ intros k Hk. apply (has_spec E [] k). exact Hk. }
pose proof (dirNonEmpty_spec f credsPath) as Hdir.
assert (Hreason : forall b why,
          (b = true <-> Creds.noReason b why = [])
          /\ List.length (Creds.noReason b why) <= 1).
{ intros [] why; cbn; split; [done | lia | split; done | lia]. }
apply isEngine_cases in He as [-> | [-> | ->]]; cbn [String.eqb Ascii.eqb Bool.eqb].
- unfold Creds.has, Creds.existsDir. cbn [app]. intros [= <- <-].
  cbn [Creds.ready Creds.reasons Creds.envKeys Creds.dirs Creds.vertexPossible List.map fst].
  split; [apply Hreason|]. split; [apply Hreason|].
  destruct (Str.truthy (default "" (E !! "OPENAI_API_KEY"))) eqn:T.
  + split; [intros k [<-|[]]; by apply Hhas|]. split; [cbn; lia|]. split; [done|].
    split; [|done]. intros sub b [[= <- <-]|[]]. apply Hdir.
  + split; [by intros k []|]. split; [cbn; lia|]. split; [done|].
    split; [|done]. intros sub b [[= <- <-]|[]]. apply Hdir.
- unfold Creds.has, Creds.existsDir. cbn [app]. intros [= <- <-].
  cbn [Creds.ready Creds.reasons Creds.envKeys Creds.dirs Creds.vertexPossible List.map fst].
  split; [apply Hreason|]. split; [apply Hreason|].
  destruct (Str.truthy (default "" (E !! "GEMINI_API_KEY"))) eqn:T.
  + split; [intros k [<-|[]]; by apply Hhas|]. split; [cbn; lia|]. split; [done|].
    split; [|done]. intros sub b [[= <- <-]|[[= <- <-]|[]]]; apply Hdir.
  + split; [by intros k []|]. split; [cbn; lia|]. split; [done|].
    split; [|done]. intros sub b [[= <- <-]|[[= <- <-]|[]]]; apply Hdir.
- unfold Creds.has, Creds.existsDir. cbn [app].
  destruct (Str.truthy (default "" (E !! "OPENAI_API_KEY"))) eqn:T1;
    [|destruct (Str.truthy (default "" (E !! "ANTHROPIC_API_KEY"))) eqn:T2;
      [|destruct (Str.truthy (default "" (E !! "GEMINI_API_KEY"))) eqn:T3]];
    intros [= <- <-];
    cbn [Creds.ready Creds.reasons Creds.envKeys Creds.dirs Creds.vertexPossible
         List.map fst];
    (split; [first [apply Hreason | by split]|]);
    (split; [first [apply Hreason | cbn; lia]|]);
    (split; [first [by intros k [] | intros k [<-|[]]; by apply Hhas]|]);
    (split; [cbn; lia|]); (split; [done|]); (split; [|done]);
    intros sub b [[= <- <-]|[]]; apply Hdir.
Qed.

(** The keys found: the first key asked for that is set, and no other. *)
Lemma readiness_keys cwd roots f eng credsPath r env :
  Creds.checkReadiness cwd roots f eng credsPath = Ok (r, env) ->
  env = Creds.readCredsEnv f credsPath
  /\ Creds.envKeys r
     = match List.find (isSet env) (keysTried eng) with
       | Some k => [k]
       | None => []
       end.
Proof.
unfold Creds.checkReadiness.
destruct (isEngine eng) eqn:He; [|done]. cbn [guard bind].
destruct (isAllowed cwd credsPath roots); [|done]. cbn [guard bind].
set (E := Creds.readCredsEnv f credsPath).
apply isEngine_cases in He as [-> | [-> | ->]]; cbn [String.eqb Ascii.eqb Bool.eqb].
- unfold Creds.has, Creds.existsDir. cbn [app]. intros [= <- <-].
  split; [done|]. unfold keysTried, isSet.
  cbn [String.eqb Ascii.eqb Bool.eqb List.find Creds.envKeys].
  by destruct (Str.truthy (default "" (E !! "OPENAI_API_KEY"))).
- unfold Creds.has, Creds.existsDir. cbn [app]. intros [= <- <-].
  split; [done|]. unfold keysTried, isSet.
  cbn [String.eqb Ascii.eqb Bool.eqb List.find Creds.envKeys].
  by destruct (Str.truthy (default "" (E !! "GEMINI_API_KEY"))).
- unfold Creds.has, Creds.existsDir. cbn [app].
  destruct (Str.truthy (default "" (E !! "OPENAI_API_KEY"))) eqn:T1;
    [|destruct (Str.truthy (default "" (E !! "ANTHROPIC_API_KEY"))) eqn:T2;
      [|destruct (Str.truthy (default "" (E !! "GEMINI_API_KEY"))) eqn:T3]];
    intros [= <- <-]; (split; [done|]); unfold keysTried, isSet;
    cbn [String.eqb Ascii.eqb Bool.eqb List.find Creds.envKeys];
    rewrite ?T1, ?T2, ?T3; reflexivity.
Qed.

End ReadinessFacts.

(** X14: what a readiness report says beside [ready].  A report has a
    reason exactly when it is not ready, and then one; the keys are read
    from the [.env] file of the credentials directory; every key the
    report lists has a non-empty value there, and it lists at most one
    key: the first that has a non-empty value among the keys asked for,
    in the order asked, which for [codex] is [OPENAI_API_KEY] alone, for
    [gemini] [GEMINI_API_KEY] alone, and for [opencode]
    [OPENAI_API_KEY], [ANTHROPIC_API_KEY], [GEMINI_API_KEY]; when none
    has, it lists no key.  It lists the sub-directory of the engine, for
    [gemini] also [gcloud], each with whether it can be listed and has an
    entry; and [vertexPossible] is given for [gemini] only, as the entry
    of [gcloud]. *)
Theorem X14_readiness_report cwd roots f eng credsPath r env :
  Creds.checkReadiness cwd roots f eng credsPath = Ok (r, env) ->
  (Creds.ready r = true <-> Creds.reasons r = [])
  /\ List.length (Creds.reasons r) <= 1
  /\ (forall k, In k (Creds.envKeys r) -> keySet env k)
  /\ List.length (Creds.envKeys r) <= 1
  /\ List.map fst (Creds.dirs r)
     = (if String.eqb eng "gemini" then ["gemini"; "gcloud"] else [eng])
  /\ (forall sub b, In (sub, b) (Creds.dirs r) ->
        (b = true <-> subdirNonEmpty f credsPath sub))
  /\ Creds.vertexPossible r
     = (if String.eqb eng "gemini"
        then Some (Creds.dirNonEmpty f (Path.join credsPath "gcloud")) else None)
  /\ env = Creds.readCredsEnv f credsPath
  /\ Creds.envKeys r
     = match List.find (isSet env) (keysTried eng) with
       | Some k => [k]
       | None => []
       end
  /\ (eng = "codex" \/ eng = "gemini" \/ eng = "opencode").
Proof.
intros H.
destruct (ReadinessFacts.readiness_fields cwd roots f eng credsPath r env H)
  as (H1 & H2 & H3 & H4 & H5 & H6 & H7).
destruct (ReadinessFacts.readiness_keys cwd roots f eng credsPath r env H) as [H8 H9].
repeat (split; [assumption|]).
unfold Creds.checkReadiness in H. destruct (isEngine eng) eqn:He; [|done].
by apply isEngine_cases.
Qed.

Lemma X14_readiness_report_witness :
  exists r, Creds.checkReadiness "/srv" ["/cr"] Scenario.pocket "opencode" "/cr/a"
            = Ok (r, Creds.readCredsEnv Scenario.pocket "/cr/a")
    /\ Creds.envKeys r = ["OPENAI_API_KEY"] /\ Creds.reasons r = [].
Proof.
eexists. split; [vm_compute; reflexivity|].
destruct (X14_readiness_report "/srv" ["/cr"] Scenario.pocket "opencode" "/cr/a" _
            (Creds.readCredsEnv Scenario.pocket "/cr/a")
            ltac:(vm_compute; reflexivity))
  as (Hr & _ & _ & _ & _ & _ & _ & _ & Hk & _).
split.
- etransitivity; [exact Hk | vm_compute; reflexivity].
- apply Hr. reflexivity.
Defined.

(** X15: the answers of [GET /creds/check].  A missing engine or path
    is answered 400 [engine and creds required]; then an engine that is
    not one of the three is answered [invalid engine], before the path is
    looked at; then a path that resolves outside the allowed roots is
    answered [creds not under allowed roots].  So a readiness report is
    only ever given for one of the three engines and a directory that is
    an allowed root or lies strictly below one. *)
Theorem X15_creds_check_answers cfg f eng p :
  (eng = "" \/ p = "" -> getCredsCheck cfg f eng p = CBad "engine and creds required")
  /\ (eng <> "" -> p <> "" -> isEngine eng = false ->
      getCredsCheck cfg f eng p = CBad "invalid engine")
  /\ (p <> "" -> isEngine eng = true ->
      isAllowed (cwd cfg) (Path.resolve (cwd cfg) p) (ALLOW_CREDS_ROOTS cfg) = false ->
      getCredsCheck cfg f eng p = CBad "creds not under allowed roots")
  /\ (forall r, getCredsCheck cfg f eng p = CReadiness r ->
      isEngine eng = true /\ Creds.r_engine r = eng
      /\ exists root, In root (ALLOW_CREDS_ROOTS cfg)
           /\ (Path.resolve (cwd cfg) p = root
               \/ strictDescendant (cwd cfg) (Path.resolve (cwd cfg) p) root)).
Proof.
unfold getCredsCheck. split; [|split; [|split]].
- intros [-> | ->]; [done|]. by destruct (Str.truthy eng).
- intros He Hp Hn. apply truthy_spec in He, Hp. rewrite He, Hp. cbn [negb orb].
  unfold Creds.checkReadiness. by rewrite Hn.
- intros Hp He Ha. apply truthy_spec in Hp. rewrite Hp.
  assert (Ht : Str.truthy eng = true) by (apply truthy_spec; by intros ->).
  rewrite Ht. cbn [negb orb]. unfold Creds.checkReadiness. by rewrite He, Ha.
- intros r. destruct (negb (Str.truthy eng) || negb (Str.truthy p)); [done|].
  destruct (Creds.checkReadiness _ _ _ _ _) as [[r' env]|] eqn:E; [|done].
  intros [= ->]. unfold Creds.checkReadiness in E.
  destruct (isEngine eng) eqn:He; [|done]. cbn [guard bind] in E.
  destruct (isAllowed _ _ _) eqn:Ha; [|done]. cbn [guard bind] in E.
  split; [done|]. split.
  + apply isEngine_cases in He as [-> | [-> | ->]];
      cbn [String.eqb Ascii.eqb Bool.eqb] in E.
    * by injection E as <- _.
    * by injection E as <- _.
    * destruct (Creds.has _ _ _) as [ks a]; destruct a;
        [|destruct (Creds.has _ _ _) as [ks' b]; destruct b];
        by injection E as <- _.
  + apply isAllowed_sound in Ha as (root & Hin & H). exists root. split; [done|].
    by rewrite CredsFacts.resolve_idem in H.
Qed.

(** X16: a key written through [POST /creds/write-env] makes the engine
    ready.  When the request is answered 200 and its updates fit the
    file, with a non-empty value for the key of the engine
    ([OPENAI_API_KEY] for [codex] and [opencode], [GEMINI_API_KEY] for
    [gemini]), [GET /creds/check] for the same path then reports the
    engine ready, without a reason, and names the key. *)
Theorem X16_write_env_then_ready objectKeys cfg f credsParam updates eng k v ks :
  keysSpec objectKeys ->
  (forall k v, updates !! k = Some v -> keyOk k /\ valOk v) ->
  (eng = "codex" /\ k = "OPENAI_API_KEY" \/ eng = "gemini" /\ k = "GEMINI_API_KEY"
   \/ eng = "opencode" /\ k = "OPENAI_API_KEY") ->
  updates !! k = Some v -> v <> "" ->
  (postWriteEnv objectKeys cfg f credsParam (Some updates)).2 = CWritten ks ->
  exists r,
    getCredsCheck cfg (postWriteEnv objectKeys cfg f credsParam (Some updates)).1
      eng credsParam = CReadiness r
    /\ Creds.ready r = true /\ Creds.reasons r = [] /\ Creds.envKeys r = [k].
Proof.
intros Hkeys Hok Hk Hu Hv. unfold postWriteEnv, getCredsCheck.
destruct (Str.truthy credsParam); cbn [negb]; [|done].
set (abs := Path.resolve (cwd cfg) credsParam).
destruct (isAllowed (cwd cfg) abs (ALLOW_CREDS_ROOTS cfg)) eqn:Ha; cbn [negb]; [|done].
intros _. cbn [fst].
pose proof (CredsFacts.written_back objectKeys (ensureDir abs f) abs updates k v
              Hkeys Hok Hu) as Hback.
set (f' := (Creds.writeCredsEnv objectKeys (ensureDir abs f) abs updates).1) in *.
assert (Ht : Str.truthy (default "" (Creds.readCredsEnv f' abs !! k)) = true).
{ rewrite Hback. cbn [default]. by apply truthy_spec. }
unfold Creds.checkReadiness. rewrite Ha.
destruct Hk as [[-> ->] | [[-> ->] | [-> ->]]];
  cbn [isEngine ENGINES existsb String.eqb Ascii.eqb Bool.eqb orb negb guard bind];
  unfold Creds.has; rewrite Ht; cbn [orb Creds.existsDir app];
  eexists; (split; [reflexivity|]); done.
Qed.

Lemma X16_write_env_then_ready_witness :
  exists r,
    getCredsCheck Scenario.cfg
      (postWriteEnv Creds.keysOf Scenario.cfg (mkFS ∅ ∅) "/cr/b"
         (Some {[ "GEMINI_API_KEY" := "g-1" ]})).1 "gemini" "/cr/b" = CReadiness r
    /\ Creds.ready r = true.
Proof.
destruct (X16_write_env_then_ready Creds.keysOf Scenario.cfg (mkFS ∅ ∅) "/cr/b"
            {[ "GEMINI_API_KEY" := "g-1" ]} "gemini" "GEMINI_API_KEY" "g-1"
            ["GEMINI_API_KEY"]) as (r & H1 & H2 & _).
- apply EnvFacts.keysOf_spec.
- intros k v H. apply lookup_singleton_Some in H as [<- <-]. by repeat split.
- right. left. by split.
- reflexivity.
- discriminate.
- vm_compute. reflexivity.
- exists r. split; [exact H1 | exact H2].
Defined.

(** X23: what [serializeDotEnv] writes, [parseDotEnv] reads back.  For
    an object whose keys and values fit a line of the file, parsing the
    serialized text gives the object again: every key with its value, the
    empty value included, and no other key. *)
Theorem X23_serialize_parse objectKeys (obj : gmap string string) :
  keysSpec objectKeys ->
  (forall k v, obj !! k = Some v -> keyOk k /\ valOk v) ->
  Creds.parseDotEnv (Creds.serializeDotEnv objectKeys obj) = obj.
Proof.
intros Hkeys Hok. apply map_eq. intros j.
destruct (obj !! j) as [v|] eqn:Hj.
- rewrite (EnvFacts.parse_serialize objectKeys obj Hkeys) with (v := v); [|..|done].
  + f_equal. apply EnvFacts.stripQuotes_ok. by destruct (Hok j v Hj).
  + intros k w Hk. destruct (Hok k w Hk) as [H1 (H2 & _)]. done.
- destruct (Hkeys obj) as [Hnd Hin].
  assert (Hnot : ~ In j (objectKeys obj)).
  { intros H. apply Hin in H. rewrite Hj in H. by destruct H. }
  assert (Hlines : Forall (fun l => Str.free Str.LF l = true)
                     (List.map (Creds.entryLine obj) (objectKeys obj))).
  { apply Forall_forall. intros l Hl. apply list_elem_of_In, in_map_iff in Hl.
    destruct Hl as (k & <- & Hk). apply Hin in Hk as [w Hw].
    destruct (Hok k w Hw) as [(_ & _ & Hfk) (Hfv & _)].
    by apply (EnvFacts.entry_free obj k w). }
  unfold Creds.serializeDotEnv.
  change (String Str.LF "") with NL.
  rewrite <- (List.length_map (Creds.entryLine obj) (objectKeys obj)).
  rewrite EnvFacts.parse_text by done.
  rewrite EnvFacts.parse_entries.
  + rewrite EnvFacts.assign_other by done. apply lookup_empty.
  + apply Forall_forall. intros k Hk. apply list_elem_of_In, Hin in Hk as [w Hw].
    by destruct (Hok k w Hw) as [(H1 & _) _].
Qed.

Lemma X23_serialize_parse_witness :
  Creds.parseDotEnv
    (Creds.serializeDotEnv Creds.keysOf {[ "A" := "1"; "B" := "" ]})
  = {[ "A" := "1"; "B" := "" ]}.
Proof.
apply (X23_serialize_parse Creds.keysOf {[ "A" := "1"; "B" := "" ]}
         EnvFacts.keysOf_spec).
intros k v Hkv. apply lookup_insert_Some in Hkv as [[<- <-] | [_ Hkv]].
- repeat split; vm_compute; congruence.
- apply lookup_singleton_Some in Hkv as [<- <-]. repeat split; vm_compute; congruence.
Defined.

(* --------------------------------------------------------------------- *)
(** ** The warm pool *)
(* --------------------------------------------------------------------- *)

Module WarmFacts.

Lemma find_app {A} (p : A -> bool) l1 l2 :
  List.find p (l1 ++ l2)
  = match List.find p l1 with Some x => Some x | None => List.find p l2 end.
Proof. induction l1 as [|x l1 IH]; cbn; [done|]. by destruct (p x). Qed.

(** A container made for [m] carries the six labels. *)
Lemma warm_labels m st ar cid :
  forallb (Driver.hasLabel (mkContainer cid st (list_to_map (labelsForWarm m)) ar))
    (labelsForWarm m) = true.
Proof.
unfold labelsForWarm, Driver.hasLabel. cbn [forallb Labels fst snd list_to_map foldr].
repeat (first [rewrite lookup_insert_eq | rewrite lookup_insert_ne by done]).
by rewrite !String.eqb_refl.
Qed.

Lemma warm_unlabelled m st ar cid rid :
  labelled rid (mkContainer cid st (list_to_map (labelsForWarm m)) ar) = false.
Proof.
unfold labelled, labelsForWarm, Driver.hasLabel. cbn [Labels fst snd list_to_map foldr].
by repeat (first [rewrite lookup_insert_eq | rewrite lookup_insert_ne by done]).
Qed.

Lemma inspect_in d c :
  daemonUp d = true -> In c (containers d) -> exists c0, Driver.inspect d (Id c) = Ok c0.
Proof.
intros Hup Hin. unfold Driver.inspect. rewrite Hup.
destruct (find _ _) as [c0|] eqn:E; [by exists c0|].
exfalso. apply (List.find_none _ _ E) in Hin. by rewrite String.eqb_refl in Hin.
Qed.

Lemma findWarm_eq d m :
  daemonUp d = true ->
  findWarmContainer d m
  = Ok (List.find (fun c => String.eqb (State c) "running")
          (List.filter (fun c => forallb (Driver.hasLabel c) (labelsForWarm m))
             (containers d))).
Proof. intros Hup. unfold findWarmContainer, Driver.listContainers. by rewrite Hup. Qed.

(** What [ensureWarmContainer] returns, and the store it leaves. *)
Lemma ensure_ok cid d m d' id :
  ensureWarmContainer cid d m = Ok (d', id) ->
  daemonUp d' = true
  /\ (exists c, findWarmContainer d' m = Ok (Some c) /\ Id c = id)
  /\ (d' = d
      \/ id = cid
         /\ containers d'
            = containers d
              ++ [mkContainer cid "running" (list_to_map (labelsForWarm m)) false]).
Proof.
unfold ensureWarmContainer.
destruct (findWarmContainer d m) as [[c|]|] eqn:Hf; [| |done]; cbn [bind].
- assert (Hup : daemonUp d = true).
  { unfold findWarmContainer, Driver.listContainers in Hf. by destruct (daemonUp d). }
  destruct (Driver.inspect d (Id c)); [|done]. cbn [bind]. intros [= <- <-].
  split; [done|]. split; [by exists c | by left].
- assert (Hup : daemonUp d = true).
  { unfold findWarmContainer, Driver.listContainers in Hf. by destruct (daemonUp d). }
  assert (Hn : List.find (fun c => String.eqb (State c) "running")
                 (List.filter (fun c => forallb (Driver.hasLabel c) (labelsForWarm m))
                    (containers d)) = None)
    by (rewrite (findWarm_eq d m Hup) in Hf; congruence).
  unfold Driver.run. rewrite Hup. intros [= <- <-].
  split; [done|]. split; [|right; by split].
  rewrite findWarm_eq by done.
  change (containers (mkDocker true ?x _)) with x.
  rewrite List.filter_app, find_app, Hn.
  change (List.filter ?p [?x]) with (if p x then [x] else []).
  cbv beta.
  match goal with |- context [forallb ?h ?l] =>
    replace (forallb h l) with true
      by (symmetry; exact (warm_labels m "running" false cid)) end.
  eexists. split; reflexivity.
Qed.

Lemma ensure_again cid cid' d m d' id :
  ensureWarmContainer cid d m = Ok (d', id) ->
  ensureWarmContainer cid' d' m = Ok (d', id).
Proof.
intros H. destruct (ensure_ok _ _ _ _ _ H) as (Hup & (c & Hf & Hid) & _).
unfold ensureWarmContainer. rewrite Hf. cbn [bind].
destruct (findWarm_found _ _ _ Hf) as (Hin & _).
destruct (inspect_in d' c Hup Hin) as [c0 ->]. cbn [bind]. by rewrite Hid.
Qed.

End WarmFacts.

(** X17: [POST /warm/ensure] is idempotent.  A request with an engine
    that is not one of the three, a path that is not absolute or a path
    outside the allowed roots is answered 400 and the daemon is not
    called.  After a request answered 200 with a warm id, the lookup of
    the warm pool finds a running container of that id for the same
    fields, [GET /warm] lists it with the engine and the two paths of the
    request, and the same request again, whatever id the daemon would give
    a new container, is answered with the same warm id and changes
    nothing.  The first request either changed nothing or added the one
    container it returns, which is not removed by the daemon on exit and
    carries no run id. *)
Theorem X17_warm_ensure_idempotent cfg m cid d :
  let out := postWarmEnsure cfg m cid d in
  (isEngine (m_engine m) = false
   \/ Path.isAbsolute (m_workspace m) = false \/ Path.isAbsolute (m_creds m) = false
   \/ isAllowed (cwd cfg) (m_workspace m) (ALLOW_WORKSPACE_ROOTS cfg) = false
   \/ isAllowed (cwd cfg) (m_creds m) (ALLOW_CREDS_ROOTS cfg) = false ->
   out.1 = d /\ exists msg, out.2 = WBad msg)
  /\ (forall id, out.2 = WEnsured id ->
      (forall cid', postWarmEnsure cfg m cid' out.1 = (out.1, WEnsured id))
      /\ (exists c, findWarmContainer out.1 m = Ok (Some c) /\ Id c = id)
      /\ (exists l w, getWarm out.1 = Ok l /\ In w l /\ w_id w = id
            /\ w_state w = "running" /\ w_engine w = Some (m_engine m)
            /\ w_workspace w = Some (m_workspace m) /\ w_creds w = Some (m_creds m))
      /\ (out.1 = d
          \/ exists c, containers out.1 = containers d ++ [c] /\ Id c = id /\ id = cid
               /\ AutoRemove c = false /\ forall rid, labelled rid c = false)).
Proof.
intros out. subst out. unfold postWarmEnsure.
destruct (isEngine (m_engine m)); cbn [negb]; [|split; [by eauto | done]].
destruct (Path.isAbsolute (m_workspace m)); cbn [negb orb]; [|split; [by eauto | done]].
destruct (Path.isAbsolute (m_creds m)); cbn [negb orb]; [|split; [by eauto | done]].
destruct (isAllowed _ (m_workspace m) _); cbn [negb orb]; [|split; [by eauto | done]].
destruct (isAllowed _ (m_creds m) _); cbn [negb orb]; [|split; [by eauto | done]].
split; [by intros [H|[H|[H|[H|H]]]]|].
destruct (ensureWarmContainer cid d m) as [[d' id']|] eqn:E; [|done].
cbn [fst snd]. intros id [= <-].
destruct (WarmFacts.ensure_ok _ _ _ _ _ E) as (Hup & (c & Hf & Hid) & Hd).
split; [|split; [|split]].
- intros cid'. by rewrite (WarmFacts.ensure_again _ cid' _ _ _ _ E).
- by exists c.
- destruct (findWarm_found _ _ _ Hf) as (Hin & Hst & Hl).
  unfold labelsForWarm in Hl.
  apply Forall_cons in Hl as [Hl1 Hl]. apply Forall_cons in Hl as [Hl2 Hl].
  apply Forall_cons in Hl as [Hl3 Hl]. apply Forall_cons in Hl as [Hl4 _].
  cbn [fst snd] in *.
  unfold getWarm, Driver.listContainers. rewrite Hup. cbn [bind].
  eexists _, (mkWarmInfo (Id c) (State c) (Labels c !! "adz.engine")
                (Labels c !! "adz.workspace") (Labels c !! "adz.creds")).
  split; [reflexivity|]. split.
  + apply in_map_iff. exists c. split; [done|]. apply filter_In. split; [done|].
    cbn [forallb]. unfold Driver.hasLabel. cbn [fst snd]. by rewrite Hl1.
  + cbn [w_id w_state w_engine w_workspace w_creds]. by rewrite Hl2, Hl3, Hl4.
- destruct Hd as [->|[-> Hc]]; [by left|]. right. eexists. split; [exact Hc|].
  split; [done|]. split; [done|]. split; [done|]. intros rid. apply WarmFacts.warm_unlabelled.
Qed.

(** X18: [DELETE /warm/:id] answers 200 for every id, warm or not, known
    or not.  While the daemon answers, no container of that id is left
    and the containers of other ids are the ones there were, so [GET
    /warm] no longer lists the id; when the daemon does not answer
    nothing changes, and the answer is still 200. *)
Theorem X18_warm_delete id d :
  (deleteWarm id d).2 = WDeleted
  /\ (daemonUp d = true ->
      (forall c, In c (containers (deleteWarm id d).1) -> Id c <> id)
      /\ (forall c, Id c <> id ->
            (In c (containers (deleteWarm id d).1) <-> In c (containers d)))
      /\ exists l, getWarm (deleteWarm id d).1 = Ok l
                   /\ forall w, In w l -> w_id w <> id)
  /\ (daemonUp d = false -> (deleteWarm id d).1 = d).
Proof.
unfold deleteWarm. cbn [fst snd]. split; [done|]. split.
- intros Hup.
  assert (Hup' : daemonUp (Driver.remove id (Driver.halt id d)) = true)
    by by rewrite remove_daemonUp, halt_daemonUp.
  assert (Hgone : forall c, In c (containers (Driver.remove id (Driver.halt id d))) ->
            Id c <> id).
  { intros c. apply remove_gone. by rewrite halt_daemonUp. }
  split; [exact Hgone|]. split.
  + intros c Hne. split; [|by apply halt_remove_keeps].
    unfold Driver.remove, Driver.halt. rewrite Hup. cbn.
    intros [Hin _]%filter_In. apply in_flat_map in Hin as (c0 & Hc0 & Hin).
    destruct (halted_origin _ _ _ Hin) as [Hid _].
    rewrite halted_other in Hin by congruence. destruct Hin as [<-|[]]. done.
  + unfold getWarm, Driver.listContainers. rewrite Hup'. cbn [bind].
    eexists. split; [reflexivity|]. intros w Hw.
    apply in_map_iff in Hw as (c & <- & Hc). apply filter_In in Hc as [Hc _].
    cbn [w_id]. by apply Hgone.
- intros Hdown. unfold Driver.remove, Driver.halt. rewrite Hdown. by rewrite Hdown.
Qed.

(** X24: a start reuses the container that [POST /warm/ensure] has
    answered with.  When the daemon is as the request left it, a start
    for the same engine, paths, read-only flag and user that prefers the
    warm pool passes its checks, execs the entry point in the container of
    the warm id, registers a warm-exec run named by the first twelve
    characters of that id, and makes no container. *)
Theorem X24_ensure_then_start cfg m cid d id q rid fileTs cid' now s :
  postWarmEnsure cfg m cid d = (docker s, WEnsured id) ->
  mountOf q = m -> q_preferWarm q = true ->
  let out := startRun cfg q rid fileTs cid' now s in
  out.2 = Started rid (Str.take 12 id)
  /\ containers (docker out.1) = containers (docker s)
  /\ execLog (docker out.1) = execLog (docker s) ++ [(id, "/entrypoint.sh")]
  /\ exists run, runsGet out.1 rid = Some run
       /\ isExec run = true /\ containerId run = id /\ status run = "running".
Proof.
intros He <- Hp out. subst out. unfold postWarmEnsure in He.
cbn [mountOf m_engine m_workspace m_creds] in He.
destruct (isEngine (q_engine q)) eqn:H1; cbn [negb] in He; [|done].
destruct (Path.isAbsolute (q_workspace q)) eqn:H2; cbn [negb orb] in He; [|done].
destruct (Path.isAbsolute (q_creds q)) eqn:H3; cbn [negb orb] in He; [|done].
destruct (isAllowed _ (q_workspace q) _) eqn:H4; cbn [negb orb] in He; [|done].
destruct (isAllowed _ (q_creds q) _) eqn:H5; cbn [negb orb] in He; [|done].
destruct (ensureWarmContainer cid d (mountOf q)) as [[d' id']|] eqn:E; [|done].
assert (Hd : d' = docker s) by congruence. assert (Hi : id' = id) by congruence.
subst d' id'.
destruct (WarmFacts.ensure_ok _ _ _ _ _ E) as (Hup & (c & Hf & Hid) & _).
unfold startRun, startChecks, guard. rewrite H1, H2, H3. cbn [bind]. rewrite H4. cbn [bind].
rewrite H5, Hp. cbn [docker withFs]. rewrite Hf. cbn [fst snd]. rewrite Hid.
split; [done|]. unfold Driver.exec. rewrite Hup.
split; [done|]. split; [done|].
eexists. split; [rewrite StartFacts.get_broadcast; apply (StartFacts.runsSet_get (mkRun _ _ _ _ _ _ _ _ _ _ _ _))|].
done.
Qed.

Lemma X24_ensure_then_start_witness :
  (startRun Scenario.cfg Scenario.askWarm "r1" "ts" "c1" 1000 Scenario.boot).2
  = Started "r1" "w1".
Proof.
destruct (X24_ensure_then_start Scenario.cfg Scenario.warmMount "c0" Scenario.daemon "w1"
            Scenario.askWarm "r1" "ts" "c1" 1000%Z Scenario.boot) as [H _].
- vm_compute. reflexivity.
- reflexivity.
- reflexivity.
- exact H.
Defined.

Example warm_ensure_new :
  postWarmEnsure Scenario.cfg Scenario.warmMount "w2" (mkDocker true [] [])
  = (mkDocker true
       [mkContainer "w2" "running" (list_to_map (labelsForWarm Scenario.warmMount)) false]
       [],
     WEnsured "w2").
Proof. reflexivity. Qed.

Example warm_ensure_found :
  postWarmEnsure Scenario.cfg Scenario.warmMount "w2" Scenario.daemon
  = (Scenario.daemon, WEnsured "w1").
Proof. reflexivity. Qed.

(* --------------------------------------------------------------------- *)
(** ** Artifacts *)
(* --------------------------------------------------------------------- *)

Module ArtifactFacts.

Lemma insertNewer_perm x l : Permutation (x :: l) (insertNewer x l).
Proof.
induction l as [|y l IH]; cbn; [done|].
destruct (Z.ltb (i_mtime x) (i_mtime y)); [|done].
rewrite <- IH. apply perm_swap.
Qed.

Lemma byMtime_perm l : Permutation l (byMtime l).
Proof.
induction l as [|x l IH]; cbn; [done|].
rewrite <- insertNewer_perm. by apply perm_skip.
Qed.

Lemma insertNewer_sorted x l : newestFirst l -> newestFirst (insertNewer x l).
Proof.
induction l as [|y l IH]; intros Hs; cbn; [done|].
destruct Hs as [Hy Hs]. destruct (Z.ltb_spec (i_mtime x) (i_mtime y)) as [Hlt|Hge].
- cbn. split; [|by apply IH].
  rewrite <- insertNewer_perm. apply Forall_cons. split; [lia | done].
- cbn. split; [|done]. apply Forall_cons. split; [done|].
  eapply Forall_impl; [exact Hy|]. cbn. intros z Hz. lia.
Qed.

Lemma byMtime_sorted l : newestFirst (byMtime l).
Proof. induction l as [|x l IH]; cbn; [done|]. by apply insertNewer_sorted. Qed.

Lemma sorted_split a b :
  newestFirst (a ++ b) ->
  newestFirst a /\ forall x y, In x a -> In y b -> (i_mtime y <= i_mtime x)%Z.
Proof.
induction a as [|z a IH]; cbn; intros H; [by split|].
destruct H as [Hz Hs]. destruct (IH Hs) as [Ha Hab].
apply Forall_app in Hz as [Hza Hzb]. split; [done|].
intros x y [<-|Hx] Hy; [|by apply Hab].
rewrite Forall_forall in Hzb. apply Hzb. by apply list_elem_of_In.
Qed.

Lemma sorted_lookup (l : list FileInfo) i j a b :
  newestFirst l -> i < j -> l !! i = Some a -> l !! j = Some b ->
  (i_mtime b <= i_mtime a)%Z.
Proof.
revert i j. induction l as [|x l IH]; intros i j Hs Hij Ha Hb; [done|].
destruct Hs as [Hx Hs]. destruct j as [|j]; [lia|]. cbn in Hb.
destruct i as [|i]; cbn in Ha.
- injection Ha as <-. rewrite Forall_forall in Hx. apply Hx.
  by apply list_elem_of_lookup_2 in Hb.
- apply (IH i j); [done | lia | done | done].
Qed.

(** The newest [n] of [l]: what [sort] and [slice(0, n)] give. *)
Lemma newest_spec n l :
  let out := List.firstn n (byMtime l) in
  List.length out = Nat.min n (List.length l)
  /\ newestFirst out
  /\ Permutation (out ++ List.skipn n (byMtime l)) l
  /\ forall x y, In x out -> In y (List.skipn n (byMtime l)) ->
       (i_mtime y <= i_mtime x)%Z.
Proof.
intros out. subst out.
pose proof (byMtime_sorted l) as Hs. pose proof (byMtime_perm l) as Hp.
rewrite <- (List.firstn_skipn n (byMtime l)) in Hs.
apply sorted_split in Hs as [Hs1 Hs2].
split; [|split; [done|split; [|done]]].
- rewrite List.length_firstn. by rewrite <- (Permutation_length Hp).
- by rewrite List.firstn_skipn.
Qed.

End ArtifactFacts.

(** X19: [listTranscripts] answers with the newest fifty regular files
    of [.runs].  The list has at most fifty entries, newest first; each is
    an entry of the directory whose [stat] succeeds and says regular file,
    with the path [<workspace>/.runs/<name>], its size and its time; and
    every such entry that is left out is at most as new as every one
    listed.  When [.runs] cannot be listed the answer is empty. *)
Theorem X19_transcripts_newest workspace runsNode :
  let out := listTranscripts workspace runsNode in
  List.length out <= 50
  /\ (forall i j a b, i < j -> out !! i = Some a -> out !! j = Some b ->
        (i_mtime b <= i_mtime a)%Z)
  /\ (forall x, In x out ->
        exists items name,
          runsNode = NDir (Some items)
          /\ In (name, NFile (Some (i_size x, i_mtime x))) items
          /\ i_path x = Path.join (Path.join workspace ".runs") name)
  /\ (forall items, runsNode = NDir (Some items) ->
        List.length out
        = Nat.min 50 (List.length (omap (transcriptOf (Path.join workspace ".runs")) items))
        /\ exists rest,
             Permutation (out ++ rest)
               (omap (transcriptOf (Path.join workspace ".runs")) items)
             /\ forall x y, In x out -> In y rest -> (i_mtime y <= i_mtime x)%Z)
  /\ ((forall items, runsNode <> NDir (Some items)) -> out = []).
Proof.
intros out. subst out. unfold listTranscripts.
set (dir := Path.join workspace ".runs").
destruct runsNode as [st|[items|]|].
1,3,4: (split; [cbn; lia|]); (split; [done|]); (split; [by intros x []|]);
       (split; [done|]); done.
destruct (ArtifactFacts.newest_spec 50 (omap (transcriptOf dir) items))
  as (Hlen & Hs & Hp & Hnew).
split; [rewrite Hlen; lia|]. split; [|split; [|split]].
- intros i j a b. by apply ArtifactFacts.sorted_lookup.
- intros x Hx. exists items.
  assert (Hin : In x (omap (transcriptOf dir) items)).
  { eapply Permutation_in; [exact Hp|]. apply in_or_app. by left. }
  apply list_elem_of_In, list_elem_of_omap in Hin as ([name e] & Hin & He).
  apply list_elem_of_In in Hin. unfold transcriptOf in He. cbn [fst snd] in He.
  destruct e as [[[size mtime]|]| |]; try done. injection He as <-.
  exists name. by split.
- intros items' [= <-]. split; [done|]. eexists. split; [exact Hp | exact Hnew].
- intros H. by destruct (H items).
Qed.

Module WalkFacts.

Lemma found_file ents name size mtime dir depth :
  In (name, NFile (Some (size, mtime))) ents ->
  Str.startsWith name ".DS_" = false -> depth <= 3 ->
  foundBelow (NDir (Some ents)) dir depth (mkFileInfo (Path.join dir name) size mtime).
Proof.
intros Hin Hds Hd. exists [name]. cbn.
split; [by eapply leads_down; [exact Hin | apply leads_here]|].
split; [done|]. split; [done|]. split; [lia|]. split; [by apply Forall_cons | done].
Qed.

Lemma found_deeper ents name e dir depth fi :
  In (name, e) ents ->
  Str.startsWith name ".DS_" = false -> excluded name = false ->
  foundBelow e (Path.join dir name) (S depth) fi ->
  foundBelow (NDir (Some ents)) dir depth fi.
Proof.
intros Hin Hds Hex (names & Hl & Hp & Hne & Hlen & Hf1 & Hf2).
exists (name :: names). split; [by eapply leads_down|]. split; [done|].
split; [done|]. split; [cbn; lia|]. split; [by apply Forall_cons|].
destruct names as [|x names]; [done|].
change (List.removelast (name :: x :: names)) with (name :: List.removelast (x :: names)).
by apply Forall_cons.
Qed.

(** The loop over the entries of a directory, given what the walk of a
    sub-directory finds. *)
Lemma each_sound ents dir depth fi :
  depth <= 3 ->
  (forall e d out, Nat.ltb depth 3 = true ->
     In fi (walk e d (S depth) out) -> In fi out \/ foundBelow e d (S depth) fi) ->
  forall es out,
    (forall x, In x es -> In x ents) ->
    In fi ((fix each (es : list (string * Node)) (out : list FileInfo) {struct es}
              : list FileInfo :=
              match es with
              | [] => out
              | (name, e) :: es' =>
                  each es'
                    (if Str.startsWith name ".DS_" then out
                     else
                       match e with
                       | NDir _ =>
                           if excluded name then out
                           else if Nat.ltb depth 3
                                then walk e (Path.join dir name) (S depth) out
                                else out
                       | NFile (Some (size, mtime)) =>
                           out ++ [mkFileInfo (Path.join dir name) size mtime]
                       | NFile None => out
                       | NOther => out
                       end)
              end) es out) ->
    In fi out \/ foundBelow (NDir (Some ents)) dir depth fi.
Proof.
intros Hd IHw. induction es as [|[name e] es IHes]; intros o Hsub; [tauto|].
intros Hin. apply IHes in Hin; [|intros x Hx; apply Hsub; by right].
destruct Hin as [Hin|Hin]; [|by right].
destruct (Str.startsWith name ".DS_") eqn:Hds; [by left|].
destruct e as [[[size mtime]|]|o'|]; try by left.
- apply in_app_or in Hin as [Hin|[<-|[]]]; [by left|]. right.
  apply found_file; [apply Hsub; by left | done | done].
- destruct (excluded name) eqn:Hex; [by left|].
  destruct (Nat.ltb depth 3) eqn:Hlt; [|by left].
  apply IHw in Hin; [|done]. destruct Hin as [Hin|Hin]; [by left|]. right.
  eapply found_deeper; [apply Hsub; by left | done | done | exact Hin].
Qed.

Lemma walk_sound k : forall n dir depth out fi,
  depth + k = 3 ->
  In fi (walk n dir depth out) -> In fi out \/ foundBelow n dir depth fi.
Proof.
induction k as [|k IH]; intros n dir depth out fi Hk;
  (destruct n as [st|[ents|]|]; cbn [walk]; try tauto);
  (destruct (Nat.leb 500 (List.length out)); [tauto|]);
  apply each_sound; try tauto; try lia.
- intros e d0 o Hlt. apply Nat.ltb_lt in Hlt. lia.
- intros e d0 o _. apply IH. lia.
Qed.

End WalkFacts.

(** X20: what [listRecentFiles] can list.  The answer has at most
    [limit] entries, newest first.  Each is a regular file whose [stat]
    succeeded, reached from the workspace along at most four names, its
    path the names joined to the workspace one after the other; no name on
    the way begins with [.DS_], and no directory on the way is one of
    [node_modules], [.git], [.runs], [.venv], [venv], [dist], [build]. *)
Theorem X20_recent_files workspace root limit :
  let out := listRecentFiles workspace root limit in
  List.length out <= limit
  /\ (forall i j a b, i < j -> out !! i = Some a -> out !! j = Some b ->
        (i_mtime b <= i_mtime a)%Z)
  /\ (forall fi, In fi out ->
        exists names,
          leadsTo root names (NFile (Some (i_size fi, i_mtime fi)))
          /\ i_path fi = fold_left Path.join names workspace
          /\ 1 <= List.length names <= 4
          /\ Forall (fun x => Str.startsWith x ".DS_" = false) names
          /\ Forall (fun x => ~ In x EXCLUDE) (List.removelast names)).
Proof.
intros out. subst out. unfold listRecentFiles.
destruct (ArtifactFacts.newest_spec limit (walk root workspace 0 []))
  as (Hlen & Hs & Hp & _).
split; [rewrite Hlen; lia|]. split.
- intros i j a b. by apply ArtifactFacts.sorted_lookup.
- intros fi Hfi.
  assert (Hin : In fi (walk root workspace 0 [])).
  { eapply Permutation_in; [exact Hp|]. apply in_or_app. by left. }
  apply (WalkFacts.walk_sound 3) in Hin; [|done].
  destruct Hin as [[]|(names & H1 & H2 & H3 & H4 & H5 & H6)].
  exists names. split; [done|]. split; [done|]. split.
  { destruct names; [done|]. cbn in *. lia. }
  split; [done|]. eapply Forall_impl; [exact H6|]. intros x Hx Hin.
  change (existsb (String.eqb x) EXCLUDE = false) in Hx.
  assert (existsb (String.eqb x) EXCLUDE = true); [|congruence].
  apply existsb_exists. exists x. split; [done | apply String.eqb_refl].
Qed.

Example transcripts_of_runs :
  listTranscripts "/ws/a"
    (NDir (Some [ ("codex-1.log", NFile (Some (12%N, 100%Z)));
                  ("old", NDir (Some []));
                  ("gemini-2.log", NFile (Some (7%N, 300%Z)));
                  ("gone.log", NFile None) ]))
  = [ mkFileInfo "/ws/a/.runs/gemini-2.log" 7 300;
      mkFileInfo "/ws/a/.runs/codex-1.log" 12 100 ].
Proof. reflexivity. Qed.

Example recent_files_of_tree :
  listRecentFiles "/ws/a"
    (NDir (Some [ ("src", NDir (Some [("m.js", NFile (Some (10%N, 5%Z)))]));
                  ("node_modules", NDir (Some [("x.js", NFile (Some (1%N, 9%Z)))]));
                  (".DS_Store", NFile (Some (1%N, 8%Z)));
                  ("README", NFile (Some (3%N, 7%Z))) ])) 30
  = [ mkFileInfo "/ws/a/README" 3 7; mkFileInfo "/ws/a/src/m.js" 10 5 ].
Proof. reflexivity. Qed.

(* --------------------------------------------------------------------- *)
(** ** Start-up and names *)
(* --------------------------------------------------------------------- *)

Module ConfigFacts.

Import Str StrFacts Path.

#[local] Arguments String.append !_ _ / : simpl nomatch.

Lemma truthy_resolve cwd p : truthy (resolve cwd p) = true.
Proof. reflexivity. Qed.

Lemma resolve_fixed cwd p : resolve cwd (resolve cwd p) = resolve cwd p.
Proof. apply CredsFacts.resolve_idem. Qed.

Lemma resolve_empty cwd :
  isAbsolute cwd = true -> resolve cwd "" = resolve cwd cwd.
Proof.
intros Ha. unfold resolve, resolveSegs. rewrite Ha. cbn [isAbsolute].
rewrite StrFacts.app_nil_r. change "/" with (String SLASH "").
rewrite JoinFacts.split_app_sep. unfold normalizeSegs. rewrite fold_left_app.
reflexivity.
Qed.

End ConfigFacts.

(** X21: the time stamp of file and container names.  [tsForFile]
    replaces every colon and every dot of the ISO string by a hyphen and
    leaves the other characters in place: the result has the length of
    the input, no colon and no dot, a character other than these three
    occurs in it exactly if it occurs in the input, so the result has no
    slash when the input has none, and a second application changes
    nothing. *)
Theorem X21_tsForFile iso :
  String.length (tsForFile iso) = String.length iso
  /\ Str.free ":" (tsForFile iso) = true
  /\ Str.free "." (tsForFile iso) = true
  /\ (forall c : ascii, c <> ":"%char -> c <> "."%char -> c <> "-"%char ->
        Str.free c (tsForFile iso) = Str.free c iso)
  /\ tsForFile (tsForFile iso) = tsForFile iso.
Proof.
induction iso as [|a s (IH1 & IH2 & IH3 & IH4 & IH5)]; [done|].
cbn [tsForFile String.length]. unfold Str.free in *. cbn [Str.all].
split; [by rewrite IH1|]. rewrite IH2, IH3, IH5.
destruct (Ascii.eqb_spec a ":") as [->|H1]; [|destruct (Ascii.eqb_spec a ".") as [->|H2]];
  cbn [orb].
- split; [done|]. split; [done|]. split; [|done]. intros c Hc1 Hc2 Hc3.
  rewrite IH4 by done. f_equal.
  destruct (Ascii.eqb_spec "-" c); [congruence|]. by destruct (Ascii.eqb_spec ":" c).
- split; [done|]. split; [done|]. split; [|done]. intros c Hc1 Hc2 Hc3.
  rewrite IH4 by done. f_equal.
  destruct (Ascii.eqb_spec "-" c); [congruence|]. by destruct (Ascii.eqb_spec "." c).
- apply Ascii.eqb_neq in H1 as H1', H2 as H2'. rewrite H1', H2'. cbn [negb andb orb].
  split; [done|]. split; [done|]. split; [|done]. intros c Hc1 Hc2 Hc3.
  by rewrite IH4.
Qed.

(** X22: the allow-lists the server holds.  The setting of the
    environment is taken when it is set and not empty, and the default
    root otherwise.  Every entry of the comma-separated text so chosen
    gives one root, in order, none is dropped by the final filter; every
    root is absolute and already resolved; and an entry that is empty or
    blank gives the working directory of the server as a root.  With a
    setting that is missing or empty and a default without a comma, the
    one root is the default, resolved.  With these roots the guard accepts
    a path exactly when it resolves to a root, or to a path below a root
    whose first name below the root does not begin with two dots. *)
Theorem X22_allow_roots cwd setting dflt :
  Path.isAbsolute cwd = true ->
  let config := orDefault setting dflt in
  let roots := allowRoots cwd setting dflt in
  (setting = None \/ setting = Some "" -> config = dflt)
  /\ (forall v, setting = Some v -> v <> "" -> config = v)
  /\ roots = List.map (fun p => Path.resolve cwd (Str.trim p)) (Str.split "," config)
  /\ List.length roots = List.length (Str.split "," config)
  /\ (forall root, In root roots ->
        Path.isAbsolute root = true /\ Path.resolve cwd root = root)
  /\ (forall entry, In entry (Str.split "," config) -> Str.trim entry = "" ->
        In (Path.resolve cwd cwd) roots)
  /\ (setting = None \/ setting = Some "" -> Str.free "," dflt = true ->
        roots = [Path.resolve cwd (Str.trim dflt)])
  /\ (forall p, isAllowed cwd p roots = true <->
        exists root, In root roots
          /\ (Path.resolveSegs cwd p = Path.resolveSegs cwd root
              \/ exists seg rest,
                   Path.resolveSegs cwd p = Path.resolveSegs cwd root ++ seg :: rest
                   /\ Str.startsWith seg ".." = false)).
Proof.
intros Hcwd config roots.
assert (Hd : setting = None \/ setting = Some "" -> config = dflt).
{ intros [->| ->]; reflexivity. }
assert (Hv : forall v, setting = Some v -> v <> "" -> config = v).
{ intros v -> Hne. subst config. unfold orDefault. by destruct v. }
assert (Hall : forall l : list string,
          List.filter Str.truthy (List.map (fun p => Path.resolve cwd (Str.trim p)) l)
          = List.map (fun p => Path.resolve cwd (Str.trim p)) l).
{ induction l as [|x l IH]; [done|]. cbn [List.map List.filter].
  rewrite ConfigFacts.truthy_resolve. by rewrite IH. }
assert (Hr : roots = List.map (fun p => Path.resolve cwd (Str.trim p))
                       (Str.split "," config)).
{ subst roots. unfold allowRoots. fold config. apply Hall. }
assert (Hroot : forall root, In root roots ->
          Path.isAbsolute root = true /\ Path.resolve cwd root = root).
{ intros root Hin. rewrite Hr in Hin. apply in_map_iff in Hin as (e & <- & _).
  split; [reflexivity | apply ConfigFacts.resolve_fixed]. }
split; [exact Hd|]. split; [exact Hv|]. split; [exact Hr|].
split; [rewrite Hr; apply List.length_map|]. split; [exact Hroot|]. split; [|split].
- intros entry Hin He. rewrite Hr. apply in_map_iff. exists entry. split; [|done].
  rewrite He. by apply ConfigFacts.resolve_empty.
- intros Hs Hf. rewrite Hr, (Hd Hs), (JoinFacts.split_one _ dflt Hf). reflexivity.
- intros p. apply PathFacts.isAllowed_spec. intros root Hin. by apply Hroot.
Qed.

Lemma X22_allow_roots_witness :
  In "/srv" (allowRoots "/srv" (Some "/ws, /cr/x/../y,") "/repo/ws")
  /\ allowRoots "/srv" (Some "/ws, /cr/x/../y,") "/repo/ws" = ["/ws"; "/cr/y"; "/srv"]
  /\ allowRoots "/srv" (Some "") "/repo/ws" = ["/repo/ws"].
Proof.
split; [|split].
- destruct (X22_allow_roots "/srv" (Some "/ws, /cr/x/../y,") "/repo/ws")
    as (_ & _ & _ & _ & _ & H & _); [reflexivity|].
  apply (H ""); [vm_compute; tauto | reflexivity].
- destruct (X22_allow_roots "/srv" (Some "/ws, /cr/x/../y,") "/repo/ws")
    as (_ & _ & H & _); [reflexivity|].
  etransitivity; [exact H | vm_compute; reflexivity].
- destruct (X22_allow_roots "/srv" (Some "") "/repo/ws")
    as (_ & _ & _ & _ & _ & _ & H & _); [reflexivity|].
  etransitivity; [apply H; [by right | reflexivity] | vm_compute; reflexivity].
Defined.
